(** * ParticleEngine: the gesture-driven camera pipeline

    A shallow embedding of the gesture overlay (landmark classifier and
    per-frame gesture logic) and of the application side (gesture handler,
    centre raycaster, camera rig), followed by the properties checked
    against the specification.

    JavaScript numbers are IEEE-754 binary64 values; they are modelled by
    Rocq's primitive floats, which are the same format with the same
    rounding, so every definition below evaluates on concrete inputs. *)

From Stdlib Require Import Floats ZArith Lia List String Bool Permutation.
Import ListNotations.

Set Warnings "-inexact-float".
Set Implicit Arguments.

(** ** JavaScript numbers and the part of [Math] the code uses *)

Module JS.

Definition number := float.
Bind Scope float_scope with number.

Definition Math_PI : number := 3.141592653589793%float.

Definition Math_abs (a : number) : number := PrimFloat.abs a.

Definition Math_sqrt (a : number) : number := PrimFloat.sqrt a.

(** [a < b] and [a > b] on numbers: false as soon as one side is NaN. *)
Definition lt (a b : number) : bool := PrimFloat.ltb a b.
Definition gt (a b : number) : bool := lt b a.
Definition le (a b : number) : bool := PrimFloat.leb a b.

Definition isNaN (a : number) : bool := PrimFloat.is_nan a.

(** [Math.max] and [Math.min] of two arguments: NaN if either argument is
    NaN, and [+0] is larger than [-0]. *)
Definition Math_max (a b : number) : number :=
  if (isNaN a || isNaN b)%bool then PrimFloat.nan
  else if lt a b then b
  else if lt b a then a
  else if (PrimFloat.is_zero a && PrimFloat.get_sign a)%bool then b else a.

Definition Math_min (a b : number) : number :=
  if (isNaN a || isNaN b)%bool then PrimFloat.nan
  else if lt a b then a
  else if lt b a then b
  else if (PrimFloat.is_zero a && negb (PrimFloat.get_sign a))%bool then b else a.

(** Reading a property of a value that may be [undefined] throws a
    TypeError; nothing else in the modelled code throws. *)
Inductive completion (A : Type) : Type :=
| normal (a : A)
| throwTypeError.
Arguments throwTypeError {A}.

(** [v.prop ...] where [v] came out of an array read [arr[i]]. *)
Definition deref {A : Type} (v : option A) : completion A :=
  match v with
  | Some a => normal a
  | None => throwTypeError
  end.

Definition bindC {A B : Type} (c : completion A) (k : A -> completion B)
  : completion B :=
  match c with
  | normal a => k a
  | throwTypeError => throwTypeError
  end.

(** [a && b] on completions of booleans: [b] is not evaluated when [a]
    is false. *)
Definition andAlso (a b : completion bool) : completion bool :=
  bindC a (fun va => if va then b else normal false).

End JS.

Import JS.

(** The platform functions whose result ECMAScript leaves to the engine
    ("implementation-approximated"): they are an interface of the model. *)
Class Platform : Type := {
  Math_hypot : number -> number -> number;
  Math_tan : number -> number
}.

(** ** The gesture overlay *)

Module Landmark.
(** [NormalizedLandmark] of the hand-landmark detector. *)
Record t : Type := mk { x : number; y : number; z : number }.
End Landmark.

Module XY.
(** The [{x, y}] objects held by the tracking refs. *)
Record t : Type := mk { x : number; y : number }.
End XY.

Module GestureOverlay.

(** One detected hand: the array of landmarks as the detector returns it.
    [landmarks[i]] is [nth_error landmarks i], [undefined] out of range. *)
Definition Hand := list Landmark.t.

(** Math helper: linear interpolation. *)
Definition lerp (start end_ factor : number) : number :=
  (start + (end_ - start) * factor)%float.

Section Classifier.
Context {P : Platform}.

(** Distance of a landmark from the wrist, in the image plane. *)
Definition fromWrist (p wrist : Landmark.t) : number :=
  Math_hypot (Landmark.x p - Landmark.x wrist)%float
             (Landmark.y p - Landmark.y wrist)%float.

Definition isFolded (landmarks : Hand) (tipIdx pipIdx : nat)
  : completion bool :=
  bindC (deref (nth_error landmarks tipIdx)) (fun tip =>
  bindC (deref (nth_error landmarks 0)) (fun wrist =>
  bindC (deref (nth_error landmarks pipIdx)) (fun pip =>
  normal (lt (fromWrist tip wrist) (fromWrist pip wrist))))).

Definition isExtended (landmarks : Hand) (tipIdx pipIdx : nat)
  : completion bool :=
  bindC (deref (nth_error landmarks tipIdx)) (fun tip =>
  bindC (deref (nth_error landmarks 0)) (fun wrist =>
  bindC (deref (nth_error landmarks pipIdx)) (fun pip =>
  normal (gt (fromWrist tip wrist) (fromWrist pip wrist))))).

(** Index, middle, ring, pinky folded; [&&] stops at the first false. *)
Definition detectFist (landmarks : Hand) : completion bool :=
  andAlso (andAlso (andAlso (isFolded landmarks 8 6)
                            (isFolded landmarks 12 10))
                   (isFolded landmarks 16 14))
          (isFolded landmarks 20 18).

(** Index, middle, ring, pinky extended; the thumb is ignored. *)
Definition detectOpenPalm (landmarks : Hand) : completion bool :=
  andAlso (andAlso (andAlso (isExtended landmarks 8 6)
                            (isExtended landmarks 12 10))
                   (isExtended landmarks 16 14))
          (isExtended landmarks 20 18).

(** Index and middle extended, ring and pinky folded.  The four tests
    are evaluated into constants before they are combined. *)
Definition detectTwoFingers (landmarks : Hand) : completion bool :=
  bindC (isExtended landmarks 8 6) (fun indexExt =>
  bindC (isExtended landmarks 12 10) (fun middleExt =>
  bindC (isFolded landmarks 16 14) (fun ringFold =>
  bindC (isFolded landmarks 20 18) (fun pinkyFold =>
  normal (indexExt && middleExt && ringFold && pinkyFold)%bool)))).

End Classifier.

(** *** Tracking refs and what the component does to the outside *)

Record Refs : Type := mkRefs {
  lastPalmPos : option XY.t;
  wasFist : bool;
  smoothRot : XY.t
}.

(** The refs as they are when the component mounts. *)
Definition initialRefs : Refs :=
  mkRefs None false (XY.mk 0%float 0%float).

Record RotateData : Type := mkRotate { dx : number; dy : number }.

(** Calls that leave the component: the [onGesture] prop (the gesture
    consumer), [setActiveGesture] (the label shown to the user) and the
    feedback tone. *)
Inductive Effect : Type :=
| onGesture (type : string) (data : option RotateData)
| setActiveGesture (label : option string)
| playFeedbackTone (tone : string).

(** A computation over the refs that logs its calls and may throw; the
    refs and the log are kept as they were when it threw. *)
Record Run (A : Type) : Type := mkRun {
  outcome : completion A;
  refs : Refs;
  calls : list Effect
}.

Definition M (A : Type) : Type := Refs -> Run A.

Definition ret {A : Type} (a : A) : M A :=
  fun r => mkRun (normal a) r [].

Definition bind {A B : Type} (m : M A) (k : A -> M B) : M B :=
  fun r =>
    match m r with
    | mkRun (normal a) r1 calls1 =>
        match k a r1 with
        | mkRun o r2 calls2 => mkRun o r2 (calls1 ++ calls2)
        end
    | mkRun throwTypeError r1 calls1 => mkRun throwTypeError r1 calls1
    end.

Definition lift {A : Type} (c : completion A) : M A :=
  fun r => mkRun c r [].

Definition emit (e : Effect) : M unit :=
  fun r => mkRun (normal tt) r [e].

Definition get {A : Type} (field : Refs -> A) : M A :=
  fun r => mkRun (normal (field r)) r [].

Definition set_wasFist (b : bool) : M unit :=
  fun r => mkRun (normal tt) (mkRefs (lastPalmPos r) b (smoothRot r)) [].

Definition set_lastPalmPos (p : option XY.t) : M unit :=
  fun r => mkRun (normal tt) (mkRefs p (wasFist r) (smoothRot r)) [].

Definition set_smoothRot_x (v : number) : M unit :=
  fun r => mkRun (normal tt)
             (mkRefs (lastPalmPos r) (wasFist r)
                     (XY.mk v (XY.y (smoothRot r)))) [].

Definition set_smoothRot_y (v : number) : M unit :=
  fun r => mkRun (normal tt)
             (mkRefs (lastPalmPos r) (wasFist r)
                     (XY.mk (XY.x (smoothRot r)) v)) [].

Declare Scope overlay_scope.
Delimit Scope overlay_scope with overlay.
Notation "x <- c1 ;; c2" := (bind c1 (fun x => c2))
  (at level 61, c1 at next level, right associativity) : overlay_scope.
Notation "c1 ;; c2" := (bind c1 (fun _ => c2))
  (at level 61, right associativity) : overlay_scope.
Local Open Scope overlay_scope.
Local Open Scope string_scope.

(** The labels handed to [setActiveGesture]. *)
Definition labelGrab := "预览中心 (Grab)".
Definition labelHold := "保持抓取 (Hold)".
Definition labelRelease := "退出预览 (Release)".
Definition labelMove := "移动视角 (Move)".
Definition labelDisabled := "移动 (Disabled in Preview)".
Definition labelZoomOut := "缩小 (Zoom Out)".
Definition labelZoomIn := "放大 (Zoom In)".
Definition labelIdle := "待机 (Idle)".

Section Frame.
Context {P : Platform}.

(** The gesture logic of [predictWebcam], run once the video and the
    canvas are ready.  [results] is what [gestureService.detect]
    returned: [None] when it returned [null] (the video time has not
    advanced), otherwise [results.landmarks]. *)
Definition predictWebcam (isInPreview : bool)
           (results : option (list Hand)) : M unit :=
  match results with
  | None => ret tt
  | Some [] =>
      emit (setActiveGesture None) ;;
      set_lastPalmPos None ;;
      set_wasFist false
  | Some (landmarks :: _) =>
      let palmCenter := nth_error landmarks 9 in
      isFist <- lift (detectFist landmarks) ;;
      isOpen <- lift (detectOpenPalm landmarks) ;;
      isTwoFingers <- lift (detectTwoFingers landmarks) ;;
      if isFist then
        was <- get wasFist ;;
        (if negb was then
           emit (onGesture "Grab" None) ;;
           emit (setActiveGesture (Some labelGrab)) ;;
           emit (playFeedbackTone "click")
         else
           emit (setActiveGesture (Some labelHold))) ;;
        set_wasFist true ;;
        set_lastPalmPos None
      else if isOpen then
        set_wasFist false ;;
        set_lastPalmPos None ;;
        emit (onGesture "Release" None) ;;
        emit (setActiveGesture (Some labelRelease))
      else if isTwoFingers then
        set_wasFist false ;;
        if negb isInPreview then
          last <- get lastPalmPos ;;
          match last with
          | Some lastPos =>
              palm <- lift (deref palmCenter) ;;
              let dx := (Landmark.x palm - XY.x lastPos)%float in
              let dy := (Landmark.y palm - XY.y lastPos)%float in
              if (gt (Math_abs dx) 0.005%float || gt (Math_abs dy) 0.005%float)%bool
              then
                s <- get smoothRot ;;
                set_smoothRot_x (lerp (XY.x s) dx 0.4%float) ;;
                s <- get smoothRot ;;
                set_smoothRot_y (lerp (XY.y s) dy 0.4%float) ;;
                s <- get smoothRot ;;
                emit (onGesture "Rotate"
                        (Some (mkRotate (- XY.x s)%float (XY.y s)))) ;;
                emit (setActiveGesture (Some labelMove))
              else ret tt
          | None => ret tt
          end ;;
          palm <- lift (deref palmCenter) ;;
          set_lastPalmPos (Some (XY.mk (Landmark.x palm) (Landmark.y palm)))
        else
          emit (setActiveGesture (Some labelDisabled))
      else
        set_wasFist false ;;
        set_lastPalmPos None ;;
        thumb <- lift (deref (nth_error landmarks 4)) ;;
        index <- lift (deref (nth_error landmarks 8)) ;;
        let dist := Math_hypot (Landmark.x thumb - Landmark.x index)%float
                               (Landmark.y thumb - Landmark.y index)%float in
        if lt dist 0.05%float then
          emit (onGesture "ZoomOut" None) ;;
          emit (setActiveGesture (Some labelZoomOut))
        else if gt dist 0.12%float then
          emit (onGesture "ZoomIn" None) ;;
          emit (setActiveGesture (Some labelZoomIn))
        else
          emit (setActiveGesture (Some labelIdle))
  end.

(** One animation frame as the overlay sees it. *)
Record Frame : Type := mkFrame {
  isInPreview : bool;
  results : option (list Hand)
}.

(** The frame loop: every frame starts from the refs the previous one
    left, also when the previous one threw. *)
Fixpoint frameLoop (frames : list Frame) (r : Refs) : list (Run unit) :=
  match frames with
  | [] => []
  | f :: rest =>
      let o := predictWebcam (isInPreview f) (results f) r in
      o :: frameLoop rest (refs o)
  end.

End Frame.

End GestureOverlay.

(** ** The three.js values the application touches *)

Module Vector3.
Record t : Type := mk { x : number; y : number; z : number }.

Definition add (a v : t) : t :=
  mk (x a + x v)%float (y a + y v)%float (z a + z v)%float.

Definition sub (a v : t) : t :=
  mk (x a - x v)%float (y a - y v)%float (z a - z v)%float.

Definition multiplyScalar (a : t) (s : number) : t :=
  mk (x a * s)%float (y a * s)%float (z a * s)%float.

Definition dot (a v : t) : number :=
  (x a * x v + y a * y v + z a * z v)%float.

Definition length (a : t) : number :=
  Math_sqrt (x a * x a + y a * y a + z a * z a)%float.

Definition distanceToSquared (a v : t) : number :=
  let dx := (x a - x v)%float in
  let dy := (y a - y v)%float in
  let dz := (z a - z v)%float in
  (dx * dx + dy * dy + dz * dz)%float.

Definition distanceTo (a v : t) : number :=
  Math_sqrt (distanceToSquared a v).

Definition lerp (a v : t) (alpha : number) : t :=
  mk (x a + (x v - x a) * alpha)%float
     (y a + (y v - y a) * alpha)%float
     (z a + (z v - z a) * alpha)%float.
End Vector3.

Module Quaternion.
Record t : Type := mk { x : number; y : number; z : number; w : number }.
End Quaternion.

Record Camera : Type := mkCamera {
  position : Vector3.t;
  quaternion : Quaternion.t;
  fov : number
}.

(** The orbit controls are the library's ([OrbitControls] of drei, the
    class of three-stdlib).  The record keeps the state its calls read
    and write: the spherical angles that [getAzimuthalAngle] and
    [getPolarAngle] return, the orbit target, the enabled flag, and the
    change of the angles that is still pending ([sphericalDelta]): the
    controls are mounted with [enableDamping], so the library applies a
    request a fraction at a time. *)
Module Orbit.
Record OrbitControls : Type := mkOrbit {
  azimuthalAngle : number;
  polarAngle : number;
  target : Vector3.t;
  enabled : bool;
  sphericalDeltaTheta : number;
  sphericalDeltaPhi : number
}.

Definition getAzimuthalAngle (c : OrbitControls) : number := azimuthalAngle c.
Definition getPolarAngle (c : OrbitControls) : number := polarAngle c.
Definition setTarget (v : Vector3.t) (c : OrbitControls) : OrbitControls :=
  mkOrbit (azimuthalAngle c) (polarAngle c) v (enabled c)
          (sphericalDeltaTheta c) (sphericalDeltaPhi c).
Definition setEnabled (b : bool) (c : OrbitControls) : OrbitControls :=
  mkOrbit (azimuthalAngle c) (polarAngle c) (target c) b
          (sphericalDeltaTheta c) (sphericalDeltaPhi c).
End Orbit.

(** The three.js operations used as library calls: rotation of a vector,
    spherical interpolation, the look-at orientation, projection to
    normalized device coordinates and the camera's viewing direction; and
    the three calls of the orbit controls that change them,
    [setAzimuthalAngle], [setPolarAngle] and [update], which work on the
    controls and on the camera they move.  Of these three the pipeline
    relies on one thing only: they leave the [enabled] flag alone. *)
Class ThreeJS : Type := {
  applyQuaternion : Vector3.t -> Quaternion.t -> Vector3.t;
  slerp : Quaternion.t -> Quaternion.t -> number -> Quaternion.t;
  lookAtQuaternion : Vector3.t -> Vector3.t -> Vector3.t -> Quaternion.t;
  project : Vector3.t -> Camera -> Vector3.t;
  getWorldDirection : Camera -> Vector3.t;
  setAzimuthalAngle :
    number -> Orbit.OrbitControls -> Camera -> Orbit.OrbitControls * Camera;
  setPolarAngle :
    number -> Orbit.OrbitControls -> Camera -> Orbit.OrbitControls * Camera;
  update : Orbit.OrbitControls -> Camera -> Orbit.OrbitControls * Camera;
  setAzimuthalAngle_enabled :
    forall v c cam,
      Orbit.enabled (fst (setAzimuthalAngle v c cam)) = Orbit.enabled c;
  setPolarAngle_enabled :
    forall v c cam,
      Orbit.enabled (fst (setPolarAngle v c cam)) = Orbit.enabled c;
  update_enabled :
    forall c cam, Orbit.enabled (fst (update c cam)) = Orbit.enabled c
}.

(** [userData] of a scene node; the album layer tags its images with
    [isInteractable: true] and [type: 'album-image'].  A missing
    [isInteractable] is falsy, a missing [type] is [None]. *)
Record UserData : Type := mkUserData {
  isInteractable : bool;
  type : option string;
  width : number;
  height : number
}.

Record Object3D : Type := mkObject {
  userData : UserData;
  worldPosition : Vector3.t;
  worldQuaternion : Quaternion.t
}.

(** ** The application: gesture handler, raycaster and camera rig *)

Module App.

Local Open Scope string_scope.

Module FocusTarget.
Record t : Type := mk {
  position : Vector3.t;
  rotation : Quaternion.t;
  width : number;
  height : number
}.
End FocusTarget.

(** The orbit controls, as [orbitRef.current] holds them. *)
Include Orbit.

(** [stateRef] of the camera rig. *)
Module Rig.
Record t : Type := mk {
  saved : bool;
  position : Vector3.t;
  quaternion : Quaternion.t;
  target : Vector3.t
}.
End Rig.

(** The state the handlers share: React state of [App], the camera, the
    orbit controls ([orbitRef.current], which is also [controls] of the
    canvas since they are made default) and the refs of the two helper
    components. *)
Record State : Type := mkState {
  focusTarget : option FocusTarget.t;
  grabSignal : number;
  camera : Camera;
  controls : option OrbitControls;
  rig : Rig.t;
  lastTriggerRef : number
}.

Definition setFocusTarget (f : option FocusTarget.t) (s : State) : State :=
  mkState f (grabSignal s) (camera s) (controls s) (rig s) (lastTriggerRef s).
Definition setGrabSignal (g : number) (s : State) : State :=
  mkState (focusTarget s) g (camera s) (controls s) (rig s) (lastTriggerRef s).
Definition setCamera (c : Camera) (s : State) : State :=
  mkState (focusTarget s) (grabSignal s) c (controls s) (rig s) (lastTriggerRef s).
Definition setControls (c : option OrbitControls) (s : State) : State :=
  mkState (focusTarget s) (grabSignal s) (camera s) c (rig s) (lastTriggerRef s).
Definition setRig (r : Rig.t) (s : State) : State :=
  mkState (focusTarget s) (grabSignal s) (camera s) (controls s) r (lastTriggerRef s).
Definition setLastTrigger (g : number) (s : State) : State :=
  mkState (focusTarget s) (grabSignal s) (camera s) (controls s) (rig s) g.

Definition setPosition (p : Vector3.t) (c : Camera) : Camera :=
  mkCamera p (quaternion c) (fov c).
Definition setQuaternion (q : Quaternion.t) (c : Camera) : Camera :=
  mkCamera (position c) q (fov c).

(** [isPaused] handed to the layers and [isInPreview] handed to the
    overlay are both [focusTarget !== null]. *)
Definition isPaused (s : State) : bool :=
  match focusTarget s with Some _ => true | None => false end.
Definition isInPreview (s : State) : bool :=
  match focusTarget s with Some _ => true | None => false end.

(** The argument of [onHit]: the node's [userData] spread, plus the node. *)
Record HitData : Type := mkHit {
  data_userData : UserData;
  object : Object3D
}.

Definition handleObjectHit (data : HitData) (s : State) : State :=
  match type (data_userData data) with
  | Some ty =>
      if String.eqb ty "album-image" then
        let targetObj := object data in
        setFocusTarget
          (Some (FocusTarget.mk (worldPosition targetObj) (worldQuaternion targetObj)
                         (width (data_userData data))
                         (height (data_userData data)))) s
      else s
  | None => s
  end.

Definition SENSITIVITY : number := 20.0%float.
Definition ZOOM_STEP : number := 1.0%float.

(** [newPolar] of the Rotate branch, from [currentPolar] and [data.dy]. *)
Definition newPolar (currentPolar dy : number) : number :=
  Math_max 0.1%float
    (Math_min (Math_PI - 0.1)%float (currentPolar - dy * SENSITIVITY)%float).

Section Handlers.
Context {T : ThreeJS} {P : Platform}.

(** [handleGesture] as one render of [App] creates it.  The function
    closes over that render's [focusTarget], here [rendered]; the
    controls and the camera are reached through [orbitRef.current]
    and the two state setters are the functional ones, so these are
    the current ones whenever the function runs. *)
Definition handleGestureOf (rendered : option FocusTarget.t)
           (gesture : string)
           (data : option GestureOverlay.RotateData) (s : State) : State :=
  match controls s with
  | None => s
  | Some orbit =>
      match String.eqb gesture "Rotate", data, rendered with
      | true, Some d, None =>
          let currentAzimuth := getAzimuthalAngle orbit in
          let moved :=
            setAzimuthalAngle
              (currentAzimuth - GestureOverlay.dx d * SENSITIVITY)%float
              orbit (camera s) in
          let currentPolar := getPolarAngle (fst moved) in
          let moved :=
            setPolarAngle (newPolar currentPolar (GestureOverlay.dy d))
                          (fst moved) (snd moved) in
          let moved := update (fst moved) (snd moved) in
          setControls (Some (fst moved)) (setCamera (snd moved) s)
      | _, _, _ =>
          if String.eqb gesture "ZoomIn" then
            let cam := camera s in
            let forward :=
              applyQuaternion (Vector3.mk 0 0 (-1)) (quaternion cam) in
            let forward := Vector3.multiplyScalar forward ZOOM_STEP in
            let nextPos := Vector3.add (position cam) forward in
            if gt (Vector3.length nextPos) 5%float then
              let forward := Vector3.multiplyScalar forward ZOOM_STEP in
              let cam := setPosition (Vector3.add (position cam) forward) cam in
              let forward := Vector3.multiplyScalar forward ZOOM_STEP in
              let orbit := setTarget (Vector3.add (target orbit) forward) orbit in
              let moved := update orbit cam in
              setControls (Some (fst moved)) (setCamera (snd moved) s)
            else s
          else if String.eqb gesture "ZoomOut" then
            let cam := camera s in
            let forward :=
              applyQuaternion (Vector3.mk 0 0 (-1)) (quaternion cam) in
            let forward := Vector3.multiplyScalar forward ZOOM_STEP in
            let nextPos := Vector3.sub (position cam) forward in
            if lt (Vector3.length nextPos) 100%float then
              let forward := Vector3.multiplyScalar forward ZOOM_STEP in
              let cam := setPosition (Vector3.sub (position cam) forward) cam in
              let forward := Vector3.multiplyScalar forward ZOOM_STEP in
              let orbit := setTarget (Vector3.sub (target orbit) forward) orbit in
              let moved := update orbit cam in
              setControls (Some (fst moved)) (setCamera (snd moved) s)
            else s
          else if String.eqb gesture "Grab" then
            setGrabSignal (grabSignal s + 1)%float s
          else if String.eqb gesture "Release" then
            setFocusTarget None s
          else s
      end
  end.

(** The handler of the latest render: its [focusTarget] is the
    current one. *)
Definition handleGesture (gesture : string)
           (data : option GestureOverlay.RotateData) (s : State) : State :=
  handleGestureOf (focusTarget s) gesture data s.

(** *** Centre raycaster *)

Record Candidate : Type := mkCandidate {
  alignment : number;
  dist : number;
  obj : Object3D
}.

(** The body of the [scene.traverse] callback for one node. *)
Definition visit (cam : Camera) (camDir : Vector3.t) (o : Object3D)
  : list Candidate :=
  if isInteractable (userData o) then
    let pos := worldPosition o in
    let ndcPos := project pos cam in
    if (lt (Math_abs (Vector3.z ndcPos)) 1%float
        && lt (Math_abs (Vector3.x ndcPos)) 0.8%float
        && lt (Math_abs (Vector3.y ndcPos)) 0.8%float)%bool then
      let objNormal :=
        applyQuaternion (Vector3.mk 0 0 1) (worldQuaternion o) in
      let alignment := Vector3.dot camDir objNormal in
      if lt alignment 0.2%float then
        [mkCandidate alignment
                     (Vector3.distanceTo pos (position cam)) o]
      else []
    else []
  else [].

(** The candidates in the order the traversal pushes them. *)
Definition collect (cam : Camera) (scene : list Object3D) : list Candidate :=
  let camDir := getWorldDirection cam in
  flat_map (visit cam camDir) scene.

(** The comparator handed to [candidates.sort]. *)
Definition compareCandidates (a b : Candidate) : number :=
  if lt (Math_abs (alignment a - alignment b)%float) 0.1%float then
    (dist a - dist b)%float
  else
    (alignment a - alignment b)%float.

End Handlers.

(** [Array.prototype.sort] with a comparator.  ECMAScript asks for a
    stable sort and leaves the order to the engine when the comparator
    is not a consistent ordering; the model inserts the elements one
    after the other, an element going in front of the first one it
    compares below. *)
Section ArraySort.
Variable A : Type.
Variable comparefn : A -> A -> number.

Fixpoint insert (v : A) (sorted : list A) : list A :=
  match sorted with
  | [] => [v]
  | w :: rest =>
      if lt (comparefn v w) 0%float then v :: sorted
      else w :: insert v rest
  end.

Definition sort (arr : list A) : list A :=
  fold_left (fun acc v => insert v acc) arr [].
End ArraySort.

Section Components.
Context {T : ThreeJS} {P : Platform}.

(** What the raycaster returns for the scene: [onHit] is called with
    it when there is a candidate. *)
Definition selectBest (cam : Camera) (scene : list Object3D)
  : option HitData :=
  match sort compareCandidates (collect cam scene) with
  | best :: _ => Some (mkHit (userData (obj best)) (obj best))
  | [] => None
  end.

(** One frame of [CenterRaycaster], with [onHit = handleObjectHit]. *)
Definition CenterRaycaster (scene : list Object3D) (s : State) : State :=
  if PrimFloat.eqb (grabSignal s) (lastTriggerRef s) then s
  else
    let s := setLastTrigger (grabSignal s) s in
    match selectBest (camera s) scene with
    | Some data => handleObjectHit data s
    | None => s
    end.

Definition degToRad (degrees : number) : number :=
  (degrees * (Math_PI / 180))%float.

(** One frame of [CameraRig]. *)
Definition CameraRig (delta : number) (s : State) : State :=
  let step := (4 * delta)%float in
  match focusTarget s with
  | Some ft =>
      let s :=
        if negb (Rig.saved (rig s)) then
          let tgt := match controls s with
                     | Some c => target c
                     | None => Rig.target (rig s)
                     end in
          let s := setRig (Rig.mk true (position (camera s))
                                 (quaternion (camera s)) tgt) s in
          setControls (option_map (setEnabled false) (controls s)) s
        else s in
      let fovRad := degToRad (fov (camera s)) in
      let distance :=
        (FocusTarget.height ft / 2 / Math_tan (fovRad / 2) * 1.3)%float in
      let normal := applyQuaternion (Vector3.mk 0 0 1) (FocusTarget.rotation ft) in
      let targetPos :=
        Vector3.add (FocusTarget.position ft) (Vector3.multiplyScalar normal distance) in
      let pos := Vector3.lerp (position (camera s)) targetPos step in
      let targetQuat :=
        lookAtQuaternion pos (FocusTarget.position ft) (Vector3.mk 0 1 0) in
      let quat := slerp (quaternion (camera s)) targetQuat step in
      let s := setCamera (setQuaternion quat (setPosition pos (camera s))) s in
      setControls
        (option_map (fun c => setTarget (Vector3.lerp (target c) (FocusTarget.position ft) step) c)
                    (controls s)) s
  | None =>
      if Rig.saved (rig s) then
        let r := rig s in
        let pos := Vector3.lerp (position (camera s)) (Rig.position r) step in
        let quat := slerp (quaternion (camera s)) (Rig.quaternion r) step in
        let s := setCamera (setQuaternion quat (setPosition pos (camera s))) s in
        let s :=
          setControls
            (option_map (fun c => setTarget (Vector3.lerp (target c) (Rig.target r) step) c)
                        (controls s)) s in
        if lt (Vector3.distanceTo (position (camera s)) (Rig.position r)) 0.1%float
        then
          let s := setRig (Rig.mk false (Rig.position r) (Rig.quaternion r)
                                 (Rig.target r)) s in
          setControls (option_map (setEnabled true) (controls s)) s
        else s
      else s
  end.

(** Render frames of the canvas, the rig running on each. *)
Definition renderFrames (deltas : list number) (s : State) : State :=
  fold_left (fun st delta => CameraRig delta st) deltas s.

(** The overlay's [onGesture] prop is [handleGesture]: the calls of one
    overlay frame, handed to the application in order. *)
Fixpoint deliver (calls : list GestureOverlay.Effect) (s : State) : State :=
  match calls with
  | [] => s
  | GestureOverlay.onGesture gesture data :: rest =>
      deliver rest (handleGesture gesture data s)
  | _ :: rest => deliver rest s
  end.

(** The same for the [onGesture] prop of an earlier render, which is
    the [handleGesture] of that render. *)
Fixpoint deliverOf (rendered : option FocusTarget.t)
         (calls : list GestureOverlay.Effect) (s : State) : State :=
  match calls with
  | [] => s
  | GestureOverlay.onGesture gesture data :: rest =>
      deliverOf rendered rest (handleGestureOf rendered gesture data s)
  | _ :: rest => deliverOf rendered rest s
  end.

End Components.

End App.

(** ** The overlay's loop, as the page wires it *)

Module Wiring.

Section WithLibraries.
Context {T : ThreeJS} {P : Platform}.

(** [startCamera] calls the [predictWebcam] of its own render, and
    that function asks for the next animation frame with itself, by
    name.  So for as long as the camera runs, every frame is the
    [predictWebcam] of the render in which the camera was started,
    with that render's props: [isInPreview], and [onGesture], the
    [handleGesture] of the [App] render that passed it.  [started] is
    the focus target of that render; the refs and the application
    state the frame works on are the current ones. *)
Definition cameraFrame (started : option App.FocusTarget.t)
           (results : option (list GestureOverlay.Hand))
           (rs : GestureOverlay.Refs * App.State)
  : GestureOverlay.Refs * App.State :=
  let isInPreview := match started with Some _ => true | None => false end in
  let o := GestureOverlay.predictWebcam isInPreview results (fst rs) in
  (GestureOverlay.refs o,
   App.deliverOf started (GestureOverlay.calls o) (snd rs)).

Definition cameraFrames (started : option App.FocusTarget.t)
           (frames : list (option (list GestureOverlay.Hand)))
           (rs : GestureOverlay.Refs * App.State)
  : GestureOverlay.Refs * App.State :=
  fold_left (fun acc results => cameraFrame started results acc) frames rs.
End WithLibraries.

End Wiring.

(** ** Vocabulary of the specification *)

Module Spec.
Import GestureOverlay.
Local Open Scope string_scope.

(** The calls that reach the gesture consumer. *)
Definition isGestureCall (e : Effect) : bool :=
  match e with
  | onGesture _ _ => true
  | _ => false
  end.

Definition isLabelCall (e : Effect) : bool :=
  match e with
  | setActiveGesture _ => true
  | _ => false
  end.

Definition isGesture (name : string) (e : Effect) : bool :=
  match e with
  | onGesture ty _ => String.eqb ty name
  | _ => false
  end.

Definition gestureCalls (o : Run unit) : list Effect :=
  filter isGestureCall (calls o).

Definition labelCalls (o : Run unit) : list Effect :=
  filter isLabelCall (calls o).

Definition countGesture (name : string) (o : Run unit) : nat :=
  List.length (filter (isGesture name) (calls o)).

(** A hand as the detector delivers it: all 21 landmarks are there. *)
Definition wellFormedHand (h : Hand) : Prop := 21 <= List.length h.

Section Frames.
Context {P : Platform}.

(** A processed frame: detection ran, and the primary hand, if there
    is one, is well formed. *)
Definition processed (f : Frame) : Prop :=
  match results f with
  | None => False
  | Some [] => True
  | Some (h :: _) => wellFormedHand h
  end.

(** The primary hand of the frame is classified as a fist. *)
Definition classifiedFist (f : Frame) : bool :=
  match results f with
  | Some (h :: _) =>
      match detectFist h with
      | normal true => true
      | _ => false
      end
  | _ => false
  end.

Definition classifiedOpen (f : Frame) : bool :=
  match results f with
  | Some (h :: _) =>
      match detectFist h, detectOpenPalm h with
      | normal false, normal true => true
      | _, _ => false
      end
  | _ => false
  end.

(** The distance the last branch of the gesture logic classifies. *)
Definition pinchDistance (thumb index : Landmark.t) : number :=
  Math_hypot (Landmark.x thumb - Landmark.x index)%float
             (Landmark.y thumb - Landmark.y index)%float.

(** The two-finger branch outside preview: what is sent, and the
    smoothing accumulator after it. *)
Definition pointStep (palm : Landmark.t) (r : Refs) : Run unit :=
  let here := Some (XY.mk (Landmark.x palm) (Landmark.y palm)) in
  match lastPalmPos r with
  | None => mkRun (normal tt) (mkRefs here false (smoothRot r)) []
  | Some lastPos =>
      let dx := (Landmark.x palm - XY.x lastPos)%float in
      let dy := (Landmark.y palm - XY.y lastPos)%float in
      if (gt (Math_abs dx) 0.005%float || gt (Math_abs dy) 0.005%float)%bool
      then
        let sx := lerp (XY.x (smoothRot r)) dx 0.4%float in
        let sy := lerp (XY.y (smoothRot r)) dy 0.4%float in
        mkRun (normal tt) (mkRefs here false (XY.mk sx sy))
              [onGesture "Rotate" (Some (mkRotate (- sx)%float sy));
               setActiveGesture (Some labelMove)]
      else mkRun (normal tt) (mkRefs here false (smoothRot r)) []
  end.
(** The refs after a stretch of frames. *)
Fixpoint finalRefs (frames : list Frame) (r : Refs) : Refs :=
  match frames with
  | [] => r
  | f :: rest =>
      finalRefs rest (refs (predictWebcam (isInPreview f) (results f) r))
  end.
End Frames.

(** The frames of a boolean signal at which it rises, as 1 and 0:
    [prev] is the value before the first frame. *)
Fixpoint risingEdges (prev : bool) (signal : list bool) : list nat :=
  match signal with
  | [] => []
  | b :: rest => (if (b && negb prev)%bool then 1 else 0) :: risingEdges b rest
  end.

Section Selector.
Context {T : ThreeJS} {P : Platform}.

(** The three tests of the selector on one scene node. *)
Definition inView (cam : Camera) (o : Object3D) : bool :=
  let ndc := project (worldPosition o) cam in
  (lt (Math_abs (Vector3.z ndc)) 1%float
   && lt (Math_abs (Vector3.x ndc)) 0.8%float
   && lt (Math_abs (Vector3.y ndc)) 0.8%float)%bool.

Definition alignmentOf (cam : Camera) (o : Object3D) : number :=
  Vector3.dot (getWorldDirection cam)
              (applyQuaternion (Vector3.mk 0 0 1) (worldQuaternion o)).

Definition survives (cam : Camera) (o : Object3D) : bool :=
  (isInteractable (userData o) && inView cam o
   && lt (alignmentOf cam o) 0.2%float)%bool.

Definition candidateOf (cam : Camera) (o : Object3D) : App.Candidate :=
  App.mkCandidate (alignmentOf cam o)
                  (Vector3.distanceTo (worldPosition o) (position cam)) o.

(** [a] is ranked in front of [b] by the comparator. *)
Definition ranksBefore (a b : App.Candidate) : bool :=
  lt (App.compareCandidates a b) 0%float.
End Selector.

End Spec.

(** ** A sample platform and sample inputs, to run the model *)

Module Sample.
Import GestureOverlay.

(** [Math.hypot] computed the plain way; [Math.tan] by its series, good
    enough for the sample field of view. *)
#[export] Instance platform : Platform := {|
  Math_hypot a b := Math_sqrt (a * a + b * b)%float;
  Math_tan a :=
    (a + a * a * a / 3 + 2 * a * a * a * a * a / 15
     + 17 * a * a * a * a * a * a * a / 315)%float
|}.

Definition rotate (v : Vector3.t) (q : Quaternion.t) : Vector3.t :=
  let vx := Vector3.x v in
  let vy := Vector3.y v in
  let vz := Vector3.z v in
  let qx := Quaternion.x q in
  let qy := Quaternion.y q in
  let qz := Quaternion.z q in
  let qw := Quaternion.w q in
  let tx := (2 * (qy * vz - qz * vy))%float in
  let ty := (2 * (qz * vx - qx * vz))%float in
  let tz := (2 * (qx * vy - qy * vx))%float in
  Vector3.mk (vx + qw * tx + qy * tz - qz * ty)%float
             (vy + qw * ty + qz * tx - qx * tz)%float
             (vz + qw * tz + qx * ty - qy * tx)%float.

(** A stand-in for the orbit controls as the page mounts them
    ([enableDamping], [dampingFactor] 0.05, the polar angle between 0
    and pi): a setter makes the difference to the current angle the
    pending change and runs [update]; [update] adds the damping
    factor's share of the pending changes to the angles and keeps the
    rest pending.  Requests are taken less than half a turn away, where
    the library's choice of the shorter way round changes nothing but
    rounding.  Where [update] puts the camera is left out: the stand-in
    leaves the camera where it is. *)
Definition dampingFactor : number := 0.05.

Definition orbitUpdate (c : App.OrbitControls) (cam : Camera)
  : App.OrbitControls * Camera :=
  (App.mkOrbit
     (App.azimuthalAngle c + App.sphericalDeltaTheta c * dampingFactor)%float
     (Math_max 0.000001%float
        (Math_min (Math_PI - 0.000001)%float
           (Math_max 0
              (Math_min Math_PI
                 (App.polarAngle c
                  + App.sphericalDeltaPhi c * dampingFactor)%float))))
     (App.target c) (App.enabled c)
     (App.sphericalDeltaTheta c * (1 - dampingFactor))%float
     (App.sphericalDeltaPhi c * (1 - dampingFactor))%float,
   cam).

Definition orbitSetAzimuthalAngle (v : number) (c : App.OrbitControls)
           (cam : Camera) : App.OrbitControls * Camera :=
  orbitUpdate
    (App.mkOrbit (App.azimuthalAngle c) (App.polarAngle c) (App.target c)
                 (App.enabled c) (v - App.azimuthalAngle c)%float
                 (App.sphericalDeltaPhi c)) cam.

Definition orbitSetPolarAngle (v : number) (c : App.OrbitControls)
           (cam : Camera) : App.OrbitControls * Camera :=
  orbitUpdate
    (App.mkOrbit (App.azimuthalAngle c) (App.polarAngle c) (App.target c)
                 (App.enabled c) (App.sphericalDeltaTheta c)
                 (v - App.polarAngle c)%float) cam.

(** A stand-in for three.js: exact vector rotation, component-wise
    interpolation of quaternions, a pinhole projection for a camera
    that looks down its local [-z] axis, and the damped controls. *)
#[export] Instance three : ThreeJS := {|
  applyQuaternion := rotate;
  slerp qa qb t :=
    Quaternion.mk
      (Quaternion.x qa + (Quaternion.x qb - Quaternion.x qa) * t)%float
      (Quaternion.y qa + (Quaternion.y qb - Quaternion.y qa) * t)%float
      (Quaternion.z qa + (Quaternion.z qb - Quaternion.z qa) * t)%float
      (Quaternion.w qa + (Quaternion.w qb - Quaternion.w qa) * t)%float;
  lookAtQuaternion eye tgt up := Quaternion.mk 0 0 0 1;
  project v cam :=
    let d := Vector3.sub v (position cam) in
    let depth := (- Vector3.z d)%float in
    Vector3.mk (Vector3.x d / depth)%float (Vector3.y d / depth)%float
               (1 - 2 / depth)%float;
  getWorldDirection cam := rotate (Vector3.mk 0 0 (-1)) (quaternion cam);
  setAzimuthalAngle := orbitSetAzimuthalAngle;
  setPolarAngle := orbitSetPolarAngle;
  update := orbitUpdate;
  setAzimuthalAngle_enabled := fun _ _ _ => eq_refl;
  setPolarAngle_enabled := fun _ _ _ => eq_refl;
  update_enabled := fun _ _ => eq_refl
|}.

Definition at_ (x y : number) : Landmark.t := Landmark.mk x y 0.

(** A hand with the wrist at the bottom, the four middle knuckles 0.3
    above it, the middle, ring and pinky tips 0.5 above the wrist when
    extended and 0.2 when folded, the thumb tip, the index tip and the
    palm centre where asked. *)
Definition hand (indexTip : Landmark.t) (middle ring pinky : bool)
           (thumbTip palm : Landmark.t) : Hand :=
  let tip (extended : bool) (x : number) :=
    at_ x (if extended then 0.4 else 0.7)%float in
  [ at_ 0.5 0.9; at_ 0.4 0.8; at_ 0.35 0.75; at_ 0.3 0.7; thumbTip;
    at_ 0.45 0.65; at_ 0.45 0.6; at_ 0.45 0.5; indexTip;
    palm; at_ 0.5 0.6; at_ 0.5 0.5; tip middle 0.5%float;
    at_ 0.55 0.65; at_ 0.55 0.6; at_ 0.55 0.5; tip ring 0.55%float;
    at_ 0.6 0.65; at_ 0.6 0.6; at_ 0.6 0.5; tip pinky 0.6%float ].

Definition fistHand : Hand :=
  hand (at_ 0.45 0.7) false false false (at_ 0.3 0.7) (at_ 0.5 0.65).
Definition openHand : Hand :=
  hand (at_ 0.45 0.4) true true true (at_ 0.3 0.7) (at_ 0.5 0.65).
Definition pointHand (palmX palmY : number) : Hand :=
  hand (at_ 0.45 0.4) true false false (at_ 0.3 0.7) (at_ palmX palmY).
(** Only the index finger out, its tip at the left edge and the thumb tip
    [d] to the right of it: neither fist, open palm nor two-finger
    point, with pinch distance [d]. *)
Definition pinchHand (d : number) : Hand :=
  hand (at_ 0 0.4) false false false (at_ d 0.4) (at_ 0.5 0.65).

Definition frame (preview : bool) (h : Hand) : Frame :=
  mkFrame preview (Some [h]).

(** Open palm, three fist frames, open palm. *)
Definition openFistOpen : list Frame :=
  [ frame false openHand; frame false fistHand; frame false fistHand;
    frame false fistHand; frame false openHand ].

(** A fist with the last landmark (the pinky tip) missing. *)
Definition shortHand : Hand := firstn 20 fistHand.

Definition identity : Quaternion.t := Quaternion.mk 0 0 0 1.

Definition cameraAt (p : Vector3.t) : Camera := mkCamera p identity 60.

Definition orbit0 : App.OrbitControls :=
  App.mkOrbit 0 1.5 (Vector3.mk 0 0 0) true 0 0.

Definition rig0 : App.Rig.t :=
  App.Rig.mk false (Vector3.mk 0 0 0) identity (Vector3.mk 0 0 0).

(** The application right after start: camera at [0, 0, 30], free orbit. *)
Definition state0 : App.State :=
  App.mkState None 0 (cameraAt (Vector3.mk 0 0 30)) (Some orbit0) rig0 0.


(** An album image facing the camera, two units wide. *)
Definition image (p : Vector3.t) : Object3D :=
  mkObject (mkUserData true (Some "album-image"%string) 2 1.5) p identity.

(** An interactable node that is not an album image. *)
Definition widget (p : Vector3.t) : Object3D :=
  mkObject (mkUserData true (Some "widget"%string) 2 1.5) p identity.

(** The application with a Grab waiting for the raycaster. *)
Definition grabPending : App.State :=
  App.mkState None 1 (cameraAt (Vector3.mk 0 0 30)) (Some orbit0) rig0 0.

(** The application while the rig flies back to the pose saved at
    [0, 0, 30] and the camera is still at [10, 0, 30]. *)
Definition midRestore : App.State :=
  App.mkState None 0 (cameraAt (Vector3.mk 10 0 30)) (Some orbit0)
              (App.Rig.mk true (Vector3.mk 0 0 30) identity (Vector3.mk 0 0 0))
              0.

Definition focusOn (o : Object3D) : App.FocusTarget.t :=
  App.FocusTarget.mk (worldPosition o) (worldQuaternion o)
              (width (userData o)) (height (userData o)).

(** The two candidates of the selector example. *)
Definition far : App.Candidate :=
  App.mkCandidate (-0.9) 10 (image (Vector3.mk 0 0 20)).
Definition near : App.Candidate :=
  App.mkCandidate (-0.85) 5 (image (Vector3.mk 0 0 25)).

End Sample.

(** ** The rest of the overlay: landmark service, frame callback, window *)

Module GestureService.

(** [handLandmarker] is either loaded or [null]; [lastVideoTime] starts
    at -1. *)
Record t : Type := mk { handLandmarker : bool; lastVideoTime : number }.

Definition fresh : t := mk false (-1).

(** [detect(video)]: [raw] is what the library's [detectForVideo] does
    for this video frame, a result or an exception (which is caught and
    logged).  The video time is recorded before the library is called. *)
Definition detect (svc : t) (currentTime : number)
           (raw : completion (list GestureOverlay.Hand))
  : option (list GestureOverlay.Hand) * t :=
  if negb (handLandmarker svc) then (None, svc)
  else if negb (PrimFloat.eqb currentTime (lastVideoTime svc)) then
    let svc' := mk (handLandmarker svc) currentTime in
    match raw with
    | normal result => (Some result, svc')
    | throwTypeError => (None, svc')
    end
  else (None, svc).

End GestureService.

Module OverlayLoop.
Import GestureOverlay.

Record Video : Type := mkVideo {
  videoWidth : number;
  videoHeight : number;
  paused : bool;
  currentTime : number
}.

(** What the callback finds in the page: [videoRef.current], whether
    [canvasRef.current] is there and whether it gave a 2D context. *)
Record Dom : Type := mkDom {
  videoRef : option Video;
  canvasRef : bool;
  canvasCtx : bool
}.

(** What one call of the callback leaves: whether it asked for the next
    animation frame, the service, and the run of the gesture logic. *)
Record Tick : Type := mkTick {
  scheduled : bool;
  service : GestureService.t;
  run : Run unit
}.

Section WithPlatform.
Context {P : Platform}.

(** The whole of [predictWebcam], around its gesture logic. *)
Definition animationFrame (isInPreview : bool) (dom : Dom)
           (raw : completion (list Hand))
           (svc : GestureService.t) (r : Refs) : Tick :=
  match videoRef dom with
  | Some video =>
      if (canvasRef dom && GestureService.handLandmarker svc)%bool then
        if (PrimFloat.eqb (videoWidth video) 0
            || PrimFloat.eqb (videoHeight video) 0
            || paused video)%bool
        then mkTick true svc (ret tt r)
        else
          let (results, svc') :=
            GestureService.detect svc (currentTime video) raw in
          if canvasCtx dom
          then mkTick true svc' (predictWebcam isInPreview results r)
          else mkTick true svc' (ret tt r)
      else mkTick false svc (ret tt r)
  | None => mkTick false svc (ret tt r)
  end.
End WithPlatform.

End OverlayLoop.

Module OverlayWindow.

(** The draggable window: its position state, the dragging flag and the
    two refs taken when a drag starts. *)
Record t : Type := mk {
  position : XY.t;
  isDragging : bool;
  dragStartRef : XY.t;
  windowPosStartRef : XY.t
}.

Definition initial (innerHeight : number) : t :=
  mk (XY.mk 20 (innerHeight - 300)%float) false (XY.mk 0 0) (XY.mk 0 0).

(** [onButton]: the mouse went down on the toggle button. *)
Definition startDrag (onButton : bool) (clientX clientY : number) (w : t) : t :=
  if onButton then w
  else mk (position w) true (XY.mk clientX clientY) (position w).

Definition handleWindowMouseMove (innerWidth innerHeight : number)
           (clientX clientY : number) (w : t) : t :=
  if isDragging w then
    let dx := (clientX - XY.x (dragStartRef w))%float in
    let dy := (clientY - XY.y (dragStartRef w))%float in
    let newX :=
      Math_max 0 (Math_min (innerWidth - 220)%float
                           (XY.x (windowPosStartRef w) + dx)%float) in
    let newY :=
      Math_max 0 (Math_min (innerHeight - 40)%float
                           (XY.y (windowPosStartRef w) + dy)%float) in
    mk (XY.mk newX newY) (isDragging w) (dragStartRef w) (windowPosStartRef w)
  else w.

Definition handleWindowMouseUp (w : t) : t :=
  mk (position w) false (dragStartRef w) (windowPosStartRef w).

End OverlayWindow.

(** ** The album layer: its image nodes and its frame callback *)

Module AlbumLayer.
Local Open Scope string_scope.

Definition imgW : number := 3.
Definition imgH : number := 2.

(** The node of one image, where the layout and the layer's transform
    put it. *)
Definition item (worldPos : Vector3.t) (worldQuat : Quaternion.t) : Object3D :=
  mkObject (mkUserData true (Some "album-image") imgW imgH) worldPos worldQuat.

(** A click on the node, with [onImageClick] as [App] passes it. *)
Definition onClick (node : Object3D) (s : App.State) : App.State :=
  App.setFocusTarget
    (Some (App.FocusTarget.mk (worldPosition node) (worldQuaternion node)
                              imgW imgH)) s.

(** The frame callback: [rotationY] is [groupRef.current.rotation.y],
    [None] while the group is not mounted. *)
Definition useFrame (isPaused : bool) (layout : string)
           (rotationY : option number) : option number :=
  if isPaused then rotationY
  else
    match rotationY with
    | None => None
    | Some ry =>
        if negb (String.eqb layout "grid") then Some (ry + 0.002)%float
        else Some ry
    end.

Definition frames (n : nat) (isPaused : bool) (layout : string)
           (rotationY : option number) : option number :=
  Nat.iter n (useFrame isPaused layout) rotationY.

End AlbumLayer.

(** ** Layers: plain objects, the layer handlers of [App] and the album
    handlers of the control panel *)

From Stdlib Require Import DecimalString.

Module JSObject.
Local Open Scope string_scope.

Set Warnings "-register-all".

(** The values the layer objects hold. *)
Inductive Value : Type :=
| VUndefined
| VBool (b : bool)
| VNumber (n : number)
| VString (s : string)
| VArray (items : list Value)
| VObject (fields : list (string * Value)).

(** An object: its own properties in insertion order. *)
Definition t : Type := list (string * Value).

(** [o.k], [undefined] when the property is missing. *)
Fixpoint get (k : string) (o : t) : Value :=
  match o with
  | [] => VUndefined
  | (k', v) :: rest => if String.eqb k' k then v else get k rest
  end.

Fixpoint has (k : string) (o : t) : bool :=
  match o with
  | [] => false
  | (k', _) :: rest => if String.eqb k' k then true else has k rest
  end.

(** Defining [k: v] in an object literal after a spread: the property
    keeps its place when it is there already, and is added at the end
    otherwise. *)
Fixpoint set (k : string) (v : Value) (o : t) : t :=
  match o with
  | [] => [(k, v)]
  | (k', v') :: rest =>
      if String.eqb k' k then (k', v) :: rest else (k', v') :: set k v rest
  end.

(** [{...o, ...updates}]. *)
Definition spread (o updates : t) : t :=
  fold_left (fun acc kv => set (fst kv) (snd kv) acc) updates o.

(** Truthiness. *)
Definition truthy (v : Value) : bool :=
  match v with
  | VUndefined => false
  | VBool b => b
  | VNumber n => negb (PrimFloat.eqb n 0 || isNaN n)
  | VString s => negb (String.eqb s "")
  | VArray _ => true
  | VObject _ => true
  end.

(** [v === s] for a string [s]. *)
Definition isString (v : Value) (s : string) : bool :=
  match v with
  | VString s' => String.eqb s' s
  | _ => false
  end.

End JSObject.

Module Constants.
Import JSObject.
Local Open Scope string_scope.

Definition zeros : Value := VArray [VNumber 0; VNumber 0; VNumber 0].

Definition DEFAULT_PARTICLE_LAYER : JSObject.t :=
  [ ("name", VString "星云"); ("type", VString "PARTICLE");
    ("visible", VBool true); ("opacity", VNumber 1);
    ("position", zeros); ("rotation", zeros); ("scale", VNumber 1);
    ("count", VNumber 5000); ("color", VString "#00ffff");
    ("colorMode", VString "SINGLE"); ("size", VNumber 0.1);
    ("sizeVariation", VNumber 0.5); ("speed", VNumber 0.5);
    ("noiseStrength", VNumber 0.2); ("shape", VString "sphere");
    ("particleShape", VString "circle"); ("blendMode", VString "normal");
    ("audioReactive", VBool true) ].

Definition DEFAULT_IMAGE_PARTICLE_LAYER : JSObject.t :=
  [ ("name", VString "图片粒子"); ("type", VString "IMAGE_PARTICLE");
    ("visible", VBool true); ("opacity", VNumber 1);
    ("position", zeros); ("rotation", zeros); ("scale", VNumber 1);
    ("imageUrl", VString "https://placehold.co/200x200/png?text=Img");
    ("pixelDensity", VNumber 6); ("size", VNumber 0.05);
    ("color", VString "#ffffff"); ("audioReactive", VBool true);
    ("thickness", VNumber 0.5); ("threshold", VNumber 0.1);
    ("particleShape", VString "circle") ].

Definition DEFAULT_TEXT_PARTICLE_LAYER : JSObject.t :=
  [ ("name", VString "文字图层"); ("type", VString "TEXT_PARTICLE");
    ("visible", VBool true); ("opacity", VNumber 1);
    ("position", zeros); ("rotation", zeros); ("scale", VNumber 1);
    ("text", VString "NEBULA"); ("fontSize", VNumber 100);
    ("pixelDensity", VNumber 4); ("size", VNumber 0.08);
    ("color", VString "#ff00ff"); ("audioReactive", VBool true);
    ("thickness", VNumber 5); ("particleShape", VString "circle") ].

Definition DEFAULT_ALBUM_LAYER : JSObject.t :=
  [ ("name", VString "3D 相册"); ("type", VString "ALBUM");
    ("visible", VBool true); ("opacity", VNumber 1);
    ("position", zeros); ("rotation", zeros); ("scale", VNumber 1);
    ("images",
     VArray [ VString "https://placehold.co/400x400/png?text=1";
              VString "https://placehold.co/400x400/png?text=2";
              VString "https://placehold.co/400x400/png?text=3";
              VString "https://placehold.co/400x400/png?text=4";
              VString "https://placehold.co/400x400/png?text=5";
              VString "https://placehold.co/400x400/png?text=6";
              VString "https://placehold.co/400x400/png?text=7";
              VString "https://placehold.co/400x400/png?text=8" ]);
    ("layout", VString "spiral"); ("spacing", VNumber 1.5);
    ("frameConfig",
     VObject [ ("style", VString "minimal"); ("color", VString "#ffffff");
               ("borderWidth", VNumber 0.2); ("padding", VNumber 0.1);
               ("radius", VNumber 0.1); ("shadow", VBool true) ]) ].

End Constants.

Module AppLayers.
Import JSObject Constants.
Local Open Scope string_scope.

(** The two pieces of [App] state the layer handlers write. *)
Record State : Type := mkState {
  layers : list JSObject.t;
  selectedLayerId : option string
}.

(** [l.id === id]. *)
Definition hasId (id : string) (l : JSObject.t) : bool :=
  isString (get "id" l) id.

(** The state [App] starts with; [uuid] is what [uuidv4()] gave. *)
Definition initial (uuid : string) : State :=
  mkState
    [ set "locked" (VBool true)
        (set "name" (VString "Base Layer")
           (set "id" (VString uuid) DEFAULT_PARTICLE_LAYER)) ]
    (Some uuid).

(** [`${n}`] for a count. *)
Definition decimal (n : nat) : string :=
  NilZero.string_of_uint (Nat.to_uint n).

(** [type] is the value of the [LayerType] member, [uuid] what
    [uuidv4()] gives. *)
Definition handleAddLayer (type uuid : string) (st : State) : State :=
  let count := decimal (List.length (layers st) + 1) in
  let newLayer :=
    if String.eqb type "PARTICLE" then
      Some (set "name" (VString ("Particle Layer " ++ count))
              (set "id" (VString uuid) DEFAULT_PARTICLE_LAYER))
    else if String.eqb type "ALBUM" then
      Some (set "name" (VString ("Album Layer " ++ count))
              (set "id" (VString uuid) DEFAULT_ALBUM_LAYER))
    else if String.eqb type "IMAGE_PARTICLE" then
      Some (set "name" (VString ("Img Layer " ++ count))
              (set "id" (VString uuid) DEFAULT_IMAGE_PARTICLE_LAYER))
    else if String.eqb type "TEXT_PARTICLE" then
      Some (set "name" (VString ("Text Layer " ++ count))
              (set "id" (VString uuid) DEFAULT_TEXT_PARTICLE_LAYER))
    else None in
  match newLayer with
  | Some l => mkState (layers st ++ [l]) (Some uuid)
  | None => st
  end.

Definition handleUpdateLayer (id : string) (updates : JSObject.t)
           (st : State) : State :=
  mkState
    (map (fun l => if hasId id l then spread l updates else l) (layers st))
    (selectedLayerId st).

Definition handleDeleteLayer (id : string) (st : State) : State :=
  let layer := find (hasId id) (layers st) in
  if match layer with
     | Some l => truthy (get "locked" l)
     | None => false
     end
  then st
  else
    mkState (filter (fun l => negb (hasId id l)) (layers st))
            (match selectedLayerId st with
             | Some sel => if String.eqb sel id then None else Some sel
             | None => None
             end).

(** A scene preset, as far as the handler reads it. *)
Record ScenePreset : Type := mkPreset {
  preset_id : string;
  preset_layers : list JSObject.t
}.

(** The layers a preset contributes, the [i]-th with the [i]-th id that
    [uuidv4()] gives from [uuids]. *)
Fixpoint instantiate (uuids : nat -> string) (i : nat)
         (ls : list JSObject.t) : list JSObject.t :=
  match ls with
  | [] => []
  | l :: rest =>
      set "locked" (VBool false) (set "id" (VString (uuids i)) l)
      :: instantiate uuids (S i) rest
  end.

Definition handleLoadPreset (SCENE_PRESETS : list ScenePreset)
           (uuids : nat -> string) (presetId : string) (st : State) : State :=
  match find (fun p => String.eqb (preset_id p) presetId) SCENE_PRESETS with
  | Some preset =>
      let newLayers := instantiate uuids 0 (preset_layers preset) in
      mkState (layers st ++ newLayers)
              (match newLayers with
               | first :: _ =>
                   match get "id" first with
                   | VString id => Some id
                   | _ => selectedLayerId st
                   end
               | [] => selectedLayerId st
               end)
  | None => st
  end.

End AppLayers.

Module ControlPanel.
Import JSObject AppLayers.
Local Open Scope string_scope.

(** [layers.find(l => l.id === selectedLayerId)]. *)
Definition selectedLayer (st : State) : option JSObject.t :=
  match selectedLayerId st with
  | Some id => find (hasId id) (layers st)
  | None => None
  end.

Definition isAlbum (l : JSObject.t) : bool :=
  isString (get "type" l) "ALBUM".

(** The handlers call [onUpdateLayer] with [selectedLayer.id]; for a
    layer found by its id this is the selected id. *)
Definition idOf (l : JSObject.t) : option string :=
  match get "id" l with
  | VString id => Some id
  | _ => None
  end.

(** [selectedLayer.images] of an album layer, an array by its type. *)
Definition imagesOf (l : JSObject.t) : option (list Value) :=
  match get "images" l with
  | VArray items => Some items
  | _ => None
  end.

(** The three album handlers, with [onUpdateLayer] as [App] passes it.
    They return the state unchanged when they do nothing. *)
Definition updateSelectedAlbum (newImages : list Value -> list Value)
           (st : State) : State :=
  match selectedLayer st with
  | Some l =>
      if isAlbum l then
        match idOf l, imagesOf l with
        | Some id, Some currentImages =>
            handleUpdateLayer id
              [("images", VArray (newImages currentImages))] st
        | _, _ => st
        end
      else st
  | None => st
  end.

Definition addAlbumImageUrl (albumUrlInput : string) (st : State) : State :=
  if String.eqb albumUrlInput "" then st
  else
    updateSelectedAlbum
      (fun currentImages => (currentImages ++ [VString albumUrlInput])%list) st.

Definition handleAlbumImageUpload (objectUrls : list string) (st : State)
  : State :=
  match objectUrls with
  | [] => st
  | _ =>
      updateSelectedAlbum
        (fun currentImages => (currentImages ++ map VString objectUrls)%list) st
  end.

(** [currentImages.filter((_, i) => i !== index)]. *)
Fixpoint dropIndex {A : Type} (index i : nat) (items : list A) : list A :=
  match items with
  | [] => []
  | x :: rest =>
      if Nat.eqb i index then dropIndex index (S i) rest
      else x :: dropIndex index (S i) rest
  end.

Definition removeAlbumImage (index : nat) (st : State) : State :=
  updateSelectedAlbum (fun currentImages => dropIndex index 0 currentImages) st.

End ControlPanel.

(** ** More vocabulary: traces of the application and of the layer panel *)

Module Traces.
Local Open Scope string_scope.

Section Overlay.
Context {P : Platform}.

(** The primary hand of the frame is classified as a two-finger
    point. *)
Definition classifiedPoint (f : GestureOverlay.Frame) : bool :=
  match GestureOverlay.results f with
  | Some (h :: _) =>
      match GestureOverlay.detectFist h, GestureOverlay.detectOpenPalm h,
            GestureOverlay.detectTwoFingers h with
      | normal false, normal false, normal true => true
      | _, _, _ => false
      end
  | _ => false
  end.

(** A frame the gesture logic does not get through: detection was
    skipped, or the primary hand lacks landmarks. *)
Definition droppedFrame (f : GestureOverlay.Frame) : Prop :=
  match GestureOverlay.results f with
  | None => True
  | Some [] => False
  | Some (h :: _) => List.length h < 21
  end.
End Overlay.

Section Application.
Context {T : ThreeJS} {P : Platform}.

(** Frames of the rig while a focus target is set, the target possibly
    another one at each frame. *)
Definition focusedFrames (frames : list (App.FocusTarget.t * number))
           (s : App.State) : App.State :=
  fold_left
    (fun st f => App.CameraRig (snd f) (App.setFocusTarget (Some (fst f)) st))
    frames s.

(** What can happen to the application: a gesture from the overlay, a
    click on an album image, the exit button, and a render frame, on
    which the rig and the raycaster both run. *)
Inductive Event : Type :=
| Gesture (gesture : string) (data : option GestureOverlay.RotateData)
| Click (node : Object3D)
| ExitButton
| RenderFrame (scene : list Object3D) (delta : number).

Definition step (s : App.State) (e : Event) : App.State :=
  match e with
  | Gesture gesture data => App.handleGesture gesture data s
  | Click node => AlbumLayer.onClick node s
  | ExitButton => App.setFocusTarget None s
  | RenderFrame scene delta =>
      App.CenterRaycaster scene (App.CameraRig delta s)
  end.

Definition steps (events : list Event) (s : App.State) : App.State :=
  fold_left step events s.
End Application.

(** Orbit input is enabled exactly while the rig holds no saved pose. *)
Definition orbitInputConsistent (s : App.State) : Prop :=
  match App.controls s with
  | Some c => App.enabled c = negb (App.Rig.saved (App.rig s))
  | None => True
  end.

(** The two spherical angles of the controls. *)
Definition angles (s : App.State) : option (number * number) :=
  option_map (fun c => (App.azimuthalAngle c, App.polarAngle c))
             (App.controls s).

(** What the layer panel and [App] can do to the layers. *)
Inductive LayerOp : Type :=
| AddLayer (type uuid : string)
| UpdateLayer (id : string) (updates : JSObject.t)
| DeleteLayer (id : string)
| LoadPreset (presets : list AppLayers.ScenePreset) (uuids : nat -> string)
             (presetId : string)
| AddImageUrl (url : string)
| UploadImages (objectUrls : list string)
| RemoveImage (index : nat)
| SelectLayer (id : string).

Definition applyOp (st : AppLayers.State) (op : LayerOp) : AppLayers.State :=
  match op with
  | AddLayer type uuid => AppLayers.handleAddLayer type uuid st
  | UpdateLayer id updates => AppLayers.handleUpdateLayer id updates st
  | DeleteLayer id => AppLayers.handleDeleteLayer id st
  | LoadPreset presets uuids presetId =>
      AppLayers.handleLoadPreset presets uuids presetId st
  | AddImageUrl url => ControlPanel.addAlbumImageUrl url st
  | UploadImages urls => ControlPanel.handleAlbumImageUpload urls st
  | RemoveImage index => ControlPanel.removeAlbumImage index st
  | SelectLayer id =>
      AppLayers.mkState (AppLayers.layers st) (Some id)
  end.

Definition applyOps (ops : list LayerOp) (st : AppLayers.State)
  : AppLayers.State :=
  fold_left applyOp ops st.

(** An update that writes neither [id] nor [locked], as all the updates
    of the control panel. *)
Definition keepsIdentity (op : LayerOp) : Prop :=
  match op with
  | UpdateLayer _ updates =>
      JSObject.has "id" updates = false
      /\ JSObject.has "locked" updates = false
  | _ => True
  end.

(** The first layer with this id is locked. *)
Definition lockedLayer (id : string) (st : AppLayers.State) : Prop :=
  exists l, find (AppLayers.hasId id) (AppLayers.layers st) = Some l
            /\ JSObject.truthy (JSObject.get "locked" l) = true.

(** A selected id is the id of some layer, so the panel finds its
    [selectedLayer]. *)
Definition selectionValid (st : AppLayers.State) : Prop :=
  forall id, AppLayers.selectedLayerId st = Some id ->
             exists l, ControlPanel.selectedLayer st = Some l.

(** One layer under [handleUpdateLayer]. *)
Definition updated (id : string) (updates l : JSObject.t) : JSObject.t :=
  if AppLayers.hasId id l then JSObject.spread l updates else l.

(** What the panel offers in a state: the updates it sends write neither
    [id] nor [locked], and a row to click exists only for a layer that
    is there. *)
Definition offeredAt (st : AppLayers.State) (op : LayerOp) : Prop :=
  match op with
  | SelectLayer id =>
      exists l, In l (AppLayers.layers st) /\ AppLayers.hasId id l = true
  | _ => keepsIdentity op
  end.

Fixpoint offered (ops : list LayerOp) (st : AppLayers.State) : Prop :=
  match ops with
  | [] => True
  | op :: rest => offeredAt st op /\ offered rest (applyOp st op)
  end.

(** The layer types [handleAddLayer] knows. *)
Definition layerTypes : list string :=
  ["PARTICLE"; "ALBUM"; "IMAGE_PARTICLE"; "TEXT_PARTICLE"].

(** No two layers share this id. *)
Definition uniqueId (id : string) (st : AppLayers.State) : Prop :=
  forall l l', In l (AppLayers.layers st) -> In l' (AppLayers.layers st) ->
               AppLayers.hasId id l = true -> AppLayers.hasId id l' = true ->
               l = l'.

End Traces.

Module Sample2.
Import JSObject.
Local Open Scope string_scope.

(** The panel with the base layer and one album layer, the album
    selected. *)
Definition withAlbum : AppLayers.State :=
  AppLayers.handleAddLayer "ALBUM" "album-1" (AppLayers.initial "base-0").

Definition snow : AppLayers.ScenePreset :=
  AppLayers.mkPreset "snow_mountains"
    [ [("name", VString "snow"); ("type", VString "PARTICLE");
       ("locked", VBool true)];
      [("name", VString "peaks"); ("type", VString "PARTICLE")] ].

Definition presetIds (i : nat) : string :=
  "preset-" ++ AppLayers.decimal i.

(** The overlay window while it is dragged from its start position. *)
Definition dragged : OverlayWindow.t :=
  OverlayWindow.startDrag false 100 700 (OverlayWindow.initial 900).

Definition readyVideo (time : number) : OverlayLoop.Video :=
  OverlayLoop.mkVideo 320 240 false time.

Definition readyDom (time : number) : OverlayLoop.Dom :=
  OverlayLoop.mkDom (Some (readyVideo time)) true true.

Definition loaded : GestureService.t := GestureService.mk true (-1).

End Sample2.

Unset Implicit Arguments.

(** ** Ordering of binary64 numbers *)

Module NumberFacts.

Lemma SFcompare_Lt_swap (a b : spec_float) :
  SFcompare a b = Some Lt -> SFcompare b a = Some Gt.
Proof.
  destruct a as [sa|sa| |sa ma ea], b as [sb|sb| |sb mb eb]; cbn;
    try destruct sa; try destruct sb; cbn; try congruence.
  all: rewrite (Z.compare_antisym ea eb);
    destruct (ea ?= eb)%Z; cbn; try congruence;
    change (Pos.compare_cont Eq mb ma) with (Pos.compare mb ma);
    change (Pos.compare_cont Eq ma mb) with (Pos.compare ma mb);
    rewrite (Pos.compare_antisym ma mb);
    destruct (ma ?= mb)%positive; cbn; congruence.
Qed.

Lemma SFcompare_Lt_trans (a b c : spec_float) :
  SFcompare a b = Some Lt -> SFcompare b c = Some Lt ->
  SFcompare a c = Some Lt.
Proof.
  destruct a as [sa|sa| |sa ma ea], b as [sb|sb| |sb mb eb],
           c as [sc|sc| |sc mc ec]; cbn;
    try destruct sa; try destruct sb; try destruct sc; cbn; try congruence.
  all: try (destruct (Z.compare_spec ea eb); try congruence).
  all: try (destruct (Z.compare_spec eb ec); try congruence).
  all: try (destruct (Z.compare_spec ea ec); try congruence).
  all: subst; try lia.
  all: change (Pos.compare_cont Eq ?p ?q) with (Pos.compare p q).
  all: try (destruct (Pos.compare_spec ma mb); cbn; try congruence).
  all: try (destruct (Pos.compare_spec mb mc); cbn; try congruence).
  all: try (destruct (Pos.compare_spec ma mc); cbn; try congruence).
  all: subst; try lia.
Qed.

(** [a < b] excludes [b < a]. *)
Lemma lt_asym (a b : number) : lt a b = true -> lt b a = false.
Proof.
  unfold lt. rewrite !FloatAxioms.ltb_spec. unfold SFltb. intros H.
  destruct (SFcompare (Prim2SF a) (Prim2SF b)) as [[]|] eqn:E; try discriminate.
  now rewrite (SFcompare_Lt_swap _ _ E).
Qed.

Lemma lt_trans (a b c : number) :
  lt a b = true -> lt b c = true -> lt a c = true.
Proof.
  unfold lt. rewrite !FloatAxioms.ltb_spec. unfold SFltb. intros H1 H2.
  destruct (SFcompare (Prim2SF a) (Prim2SF b)) as [[]|] eqn:E1; try discriminate.
  destruct (SFcompare (Prim2SF b) (Prim2SF c)) as [[]|] eqn:E2; try discriminate.
  now rewrite (SFcompare_Lt_trans _ _ _ E1 E2).
Qed.

Lemma lt_le (a b : number) : lt a b = true -> le a b = true.
Proof.
  unfold lt, le. rewrite FloatAxioms.ltb_spec, FloatAxioms.leb_spec. unfold SFltb, SFleb.
  destruct (SFcompare _ _) as [[]|]; congruence.
Qed.

End NumberFacts.

(** ** The landmark classifier *)

Module ClassifierFacts.
Import GestureOverlay Spec.

Section WithPlatform.
Context {P : Platform}.

Lemma deref_nth_normal (lm : Hand) (i : nat) :
  i < List.length lm -> exists p, deref (nth_error lm i) = normal p.
Proof.
  intros Hi. destruct (nth_error lm i) as [p|] eqn:E.
  - now exists p.
  - apply nth_error_None in E. lia.
Qed.

Lemma deref_nth_throws (lm : Hand) (i : nat) :
  List.length lm <= i -> deref (nth_error lm i) = @throwTypeError Landmark.t.
Proof.
  intros Hi. apply nth_error_None in Hi. now rewrite Hi.
Qed.

Lemma deref_nth_reads (lm : Hand) (i : nat) (p : Landmark.t) :
  deref (nth_error lm i) = normal p -> i < List.length lm.
Proof.
  intros H. apply nth_error_Some. destruct (nth_error lm i); [congruence|discriminate].
Qed.

Lemma isFolded_defined (lm : Hand) (t p : nat) :
  t < List.length lm -> p < List.length lm ->
  exists b, isFolded lm t p = normal b.
Proof.
  intros Ht Hp. unfold isFolded.
  destruct (deref_nth_normal lm t Ht) as [a ->].
  destruct (deref_nth_normal lm 0 ltac:(lia)) as [w ->].
  destruct (deref_nth_normal lm p Hp) as [c ->]. cbn. eauto.
Qed.

Lemma isExtended_defined (lm : Hand) (t p : nat) :
  t < List.length lm -> p < List.length lm ->
  exists b, isExtended lm t p = normal b.
Proof.
  intros Ht Hp. unfold isExtended.
  destruct (deref_nth_normal lm t Ht) as [a ->].
  destruct (deref_nth_normal lm 0 ltac:(lia)) as [w ->].
  destruct (deref_nth_normal lm p Hp) as [c ->]. cbn. eauto.
Qed.

Lemma isFolded_reads (lm : Hand) (t p : nat) (b : bool) :
  isFolded lm t p = normal b -> t < List.length lm.
Proof.
  unfold isFolded. destruct (deref (nth_error lm t)) eqn:E; cbn; [|discriminate].
  intros _. eapply deref_nth_reads; eauto.
Qed.

Lemma isExtended_reads (lm : Hand) (t p : nat) (b : bool) :
  isExtended lm t p = normal b -> t < List.length lm.
Proof.
  unfold isExtended. destruct (deref (nth_error lm t)) eqn:E; cbn; [|discriminate].
  intros _. eapply deref_nth_reads; eauto.
Qed.

Lemma isFolded_throws (lm : Hand) (t p : nat) :
  List.length lm <= t -> isFolded lm t p = throwTypeError.
Proof.
  intros H. unfold isFolded. now rewrite (deref_nth_throws lm t H).
Qed.

Lemma isExtended_throws (lm : Hand) (t p : nat) :
  List.length lm <= t -> isExtended lm t p = throwTypeError.
Proof.
  intros H. unfold isExtended. now rewrite (deref_nth_throws lm t H).
Qed.

(** On a well-formed hand no detector throws. *)
Lemma detectors_defined (lm : Hand) :
  wellFormedHand lm ->
  exists bf bo bt,
    detectFist lm = normal bf /\ detectOpenPalm lm = normal bo
    /\ detectTwoFingers lm = normal bt.
Proof.
  unfold wellFormedHand. intros H.
  destruct (isFolded_defined lm 8 6) as [f1 F1]; try lia.
  destruct (isFolded_defined lm 12 10) as [f2 F2]; try lia.
  destruct (isFolded_defined lm 16 14) as [f3 F3]; try lia.
  destruct (isFolded_defined lm 20 18) as [f4 F4]; try lia.
  destruct (isExtended_defined lm 8 6) as [e1 E1]; try lia.
  destruct (isExtended_defined lm 12 10) as [e2 E2]; try lia.
  destruct (isExtended_defined lm 16 14) as [e3 E3]; try lia.
  destruct (isExtended_defined lm 20 18) as [e4 E4]; try lia.
  unfold detectFist, detectOpenPalm, detectTwoFingers, andAlso.
  rewrite F1, F2, F3, F4, E1, E2, E3, E4. cbn.
  destruct f1, f2, f3, e1, e2, e3; cbn; do 3 eexists; repeat split; reflexivity.
Qed.

(** A detector can only answer [true] after reading landmark 20. *)
Lemma detectFist_true_wellFormed (lm : Hand) :
  detectFist lm = normal true -> wellFormedHand lm.
Proof.
  unfold detectFist, andAlso, wellFormedHand.
  destruct (isFolded lm 8 6) as [[]|]; cbn; try discriminate.
  destruct (isFolded lm 12 10) as [[]|]; cbn; try discriminate.
  destruct (isFolded lm 16 14) as [[]|]; cbn; try discriminate.
  intros H. apply isFolded_reads in H. lia.
Qed.

Lemma detectOpenPalm_true_wellFormed (lm : Hand) :
  detectOpenPalm lm = normal true -> wellFormedHand lm.
Proof.
  unfold detectOpenPalm, andAlso, wellFormedHand.
  destruct (isExtended lm 8 6) as [[]|]; cbn; try discriminate.
  destruct (isExtended lm 12 10) as [[]|]; cbn; try discriminate.
  destruct (isExtended lm 16 14) as [[]|]; cbn; try discriminate.
  intros H. apply isExtended_reads in H. lia.
Qed.

(** [detectTwoFingers] reads landmark 20 before it answers at all. *)
Lemma detectTwoFingers_normal_wellFormed (lm : Hand) (b : bool) :
  detectTwoFingers lm = normal b -> wellFormedHand lm.
Proof.
  unfold detectTwoFingers, wellFormedHand.
  destruct (isExtended lm 8 6) as [?|]; cbn; try discriminate.
  destruct (isExtended lm 12 10) as [?|]; cbn; try discriminate.
  destruct (isFolded lm 16 14) as [?|]; cbn; try discriminate.
  destruct (isFolded lm 20 18) as [?|] eqn:E; cbn; try discriminate.
  intros _. apply isFolded_reads in E. lia.
Qed.

Lemma detectTwoFingers_short (lm : Hand) :
  List.length lm < 21 -> detectTwoFingers lm = throwTypeError.
Proof.
  intros H. destruct (detectTwoFingers lm) as [b|] eqn:E; [|reflexivity].
  apply detectTwoFingers_normal_wellFormed in E. unfold wellFormedHand in E. lia.
Qed.

(** A folded finger is not extended. *)
Lemma folded_not_extended (lm : Hand) (t p : nat) :
  isFolded lm t p = normal true -> isExtended lm t p = normal false.
Proof.
  unfold isFolded, isExtended.
  destruct (deref (nth_error lm t)) as [a|]; cbn [bindC]; try discriminate.
  destruct (deref (nth_error lm 0)) as [w|]; cbn [bindC]; try discriminate.
  destruct (deref (nth_error lm p)) as [c|]; cbn [bindC]; try discriminate.
  intros H.
  assert (E : lt (fromWrist a w) (fromWrist c w) = true) by congruence.
  unfold gt. now rewrite (NumberFacts.lt_asym _ _ E).
Qed.

(** Fist and open palm exclude each other. *)
Lemma fist_not_open (lm : Hand) :
  detectFist lm = normal true -> detectOpenPalm lm = normal false.
Proof.
  unfold detectFist, detectOpenPalm, andAlso.
  destruct (isFolded lm 8 6) as [[]|] eqn:E; cbn; try discriminate.
  intros _. now rewrite (folded_not_extended _ _ _ E).
Qed.

End WithPlatform.
End ClassifierFacts.

(** ** One frame of the gesture logic, branch by branch *)

Module FrameFacts.
Import GestureOverlay Spec ClassifierFacts.
Local Open Scope string_scope.

Section WithPlatform.
Context {P : Platform}.

Ltac run_frame :=
  unfold predictWebcam, bind, lift, emit, get, ret,
    set_wasFist, set_lastPalmPos, set_smoothRot_x, set_smoothRot_y;
  cbn [outcome refs calls lastPalmPos wasFist smoothRot app negb XY.x XY.y].

Lemma frame_skipped (pv : bool) (r : Refs) :
  predictWebcam pv None r = mkRun (normal tt) r [].
Proof. reflexivity. Qed.

Lemma frame_no_hand (pv : bool) (r : Refs) :
  predictWebcam pv (Some []) r
  = mkRun (normal tt) (mkRefs None false (smoothRot r))
          [setActiveGesture None].
Proof. reflexivity. Qed.

Lemma frame_fist (pv : bool) (lm : Hand) (rest : list Hand) (r : Refs) :
  detectFist lm = normal true ->
  predictWebcam pv (Some (lm :: rest)) r
  = mkRun (normal tt) (mkRefs None true (smoothRot r))
          (if wasFist r
           then [setActiveGesture (Some labelHold)]
           else [onGesture "Grab" None; setActiveGesture (Some labelGrab);
                 playFeedbackTone "click"]).
Proof.
  intros HF.
  destruct (detectors_defined lm (detectFist_true_wellFormed lm HF))
    as (bf & bo & bt & _ & HO & HT).
  run_frame. rewrite HF, HO, HT.
  cbn [outcome refs calls lastPalmPos wasFist smoothRot app negb].
  destruct (wasFist r); reflexivity.
Qed.

Lemma frame_open (pv : bool) (lm : Hand) (rest : list Hand) (r : Refs) :
  detectFist lm = normal false -> detectOpenPalm lm = normal true ->
  predictWebcam pv (Some (lm :: rest)) r
  = mkRun (normal tt) (mkRefs None false (smoothRot r))
          [onGesture "Release" None; setActiveGesture (Some labelRelease)].
Proof.
  intros HF HO.
  destruct (detectors_defined lm (detectOpenPalm_true_wellFormed lm HO))
    as (bf & bo & bt & _ & _ & HT).
  run_frame. rewrite HF, HO, HT. reflexivity.
Qed.

Lemma frame_point_preview (lm : Hand) (rest : list Hand) (r : Refs) :
  detectFist lm = normal false -> detectOpenPalm lm = normal false ->
  detectTwoFingers lm = normal true ->
  predictWebcam true (Some (lm :: rest)) r
  = mkRun (normal tt) (mkRefs (lastPalmPos r) false (smoothRot r))
          [setActiveGesture (Some labelDisabled)].
Proof.
  intros HF HO HT. run_frame. rewrite HF, HO, HT. reflexivity.
Qed.

Lemma frame_point_free (lm : Hand) (rest : list Hand) (r : Refs)
      (palm : Landmark.t) :
  detectFist lm = normal false -> detectOpenPalm lm = normal false ->
  detectTwoFingers lm = normal true ->
  nth_error lm 9 = Some palm ->
  predictWebcam false (Some (lm :: rest)) r = pointStep palm r.
Proof.
  intros HF HO HT H9. run_frame. rewrite HF, HO, HT, H9.
  unfold pointStep.
  cbn [outcome refs calls lastPalmPos wasFist smoothRot app negb deref].
  destruct (lastPalmPos r) as [lastPos|]; [|reflexivity].
  cbn [outcome refs calls lastPalmPos wasFist smoothRot app negb deref].
  destruct (gt _ _ || gt _ _)%bool; reflexivity.
Qed.

Lemma frame_pinch (pv : bool) (lm : Hand) (rest : list Hand) (r : Refs)
      (thumb index : Landmark.t) :
  detectFist lm = normal false -> detectOpenPalm lm = normal false ->
  detectTwoFingers lm = normal false ->
  nth_error lm 4 = Some thumb -> nth_error lm 8 = Some index ->
  predictWebcam pv (Some (lm :: rest)) r
  = mkRun (normal tt) (mkRefs None false (smoothRot r))
          (if lt (pinchDistance thumb index) 0.05%float then
             [onGesture "ZoomOut" None; setActiveGesture (Some labelZoomOut)]
           else if gt (pinchDistance thumb index) 0.12%float then
             [onGesture "ZoomIn" None; setActiveGesture (Some labelZoomIn)]
           else [setActiveGesture (Some labelIdle)]).
Proof.
  intros HF HO HT H4 H8. run_frame. rewrite HF, HO, HT, H4, H8.
  cbn [outcome refs calls lastPalmPos wasFist smoothRot app negb deref].
  unfold pinchDistance.
  destruct (lt _ _); [reflexivity|].
  destruct (gt _ _); reflexivity.
Qed.

(** A hand with a landmark missing: [detectTwoFingers] throws at the
    latest, before anything was written or sent. *)
Lemma frame_short_hand (pv : bool) (lm : Hand) (rest : list Hand) (r : Refs) :
  List.length lm < 21 ->
  predictWebcam pv (Some (lm :: rest)) r = mkRun throwTypeError r [].
Proof.
  intros Hlen. run_frame. rewrite (detectTwoFingers_short lm Hlen).
  destruct (detectFist lm) as [bf|]; [|reflexivity].
  cbn [outcome refs calls app].
  destruct (detectOpenPalm lm) as [bo|]; reflexivity.
Qed.

Lemma nth_wellFormed (lm : Hand) (i : nat) :
  wellFormedHand lm -> i < 21 -> exists p, nth_error lm i = Some p.
Proof.
  unfold wellFormedHand. intros H Hi.
  destruct (nth_error lm i) as [p|] eqn:E; [now exists p|].
  apply nth_error_None in E. lia.
Qed.

End WithPlatform.
End FrameFacts.

(** ** The frame loop *)

Module LoopFacts.
Import GestureOverlay Spec ClassifierFacts FrameFacts.
Local Open Scope string_scope.

Section WithPlatform.
Context {P : Platform}.

(** What one processed frame does to [wasFist] and how many Grab calls
    it makes. *)
Lemma processed_frame (f : Frame) (r : Refs) :
  processed f ->
  let o := predictWebcam (isInPreview f) (results f) r in
  wasFist (refs o) = classifiedFist f
  /\ countGesture "Grab" o
     = (if (classifiedFist f && negb (wasFist r))%bool then 1 else 0)
  /\ (classifiedFist f = true -> lastPalmPos (refs o) = None).
Proof.
  destruct f as [pv res]. unfold processed, classifiedFist.
  cbn [results isInPreview].
  destruct res as [[|lm rest]|]; [intros _ | | intros []].
  { rewrite frame_no_hand. cbn. repeat split; discriminate. }
  intros WF.
  destruct (detectors_defined lm WF) as (bf & bo & bt & HF & HO & HT).
  rewrite HF. destruct bf.
  { rewrite (frame_fist pv lm rest r HF). cbn [refs wasFist lastPalmPos].
    repeat split. unfold countGesture. cbn [calls andb].
    destruct (wasFist r); reflexivity. }
  destruct bo.
  { rewrite (frame_open pv lm rest r HF HO). cbn. repeat split; discriminate. }
  destruct bt.
  { destruct pv.
    - rewrite (frame_point_preview lm rest r HF HO HT).
      cbn. repeat split; discriminate.
    - destruct (nth_wellFormed lm 9 WF ltac:(lia)) as [palm H9].
      rewrite (frame_point_free lm rest r palm HF HO HT H9).
      unfold pointStep. destruct (lastPalmPos r).
      + destruct (gt _ _ || gt _ _)%bool; cbn; repeat split; discriminate.
      + cbn. repeat split; discriminate. }
  destruct (nth_wellFormed lm 4 WF ltac:(lia)) as [thumb H4].
  destruct (nth_wellFormed lm 8 WF ltac:(lia)) as [index H8].
  rewrite (frame_pinch pv lm rest r thumb index HF HO HT H4 H8).
  destruct (lt _ _); [cbn; repeat split; discriminate|].
  destruct (gt _ _); cbn; repeat split; discriminate.
Qed.

Lemma frameLoop_app (a b : list Frame) (r : Refs) :
  frameLoop (a ++ b)%list r
  = (frameLoop a r ++ frameLoop b (finalRefs a r))%list.
Proof.
  revert r. induction a as [|f a IH]; intros r; [reflexivity|].
  cbn [frameLoop app finalRefs]. now rewrite IH.
Qed.

Lemma frameLoop_length (a : list Frame) (r : Refs) :
  List.length (frameLoop a r) = List.length a.
Proof.
  revert r. induction a as [|f a IH]; intros r; cbn [frameLoop List.length];
    [reflexivity|].
  now rewrite IH.
Qed.

Lemma last_cons {A : Type} (x : A) (l : list A) (d : A) :
  last (x :: l) d = last l x.
Proof.
  revert x d. induction l as [|y l IH]; intros x d; [reflexivity|].
  change (last (x :: y :: l) d) with (last (y :: l) d).
  now rewrite (IH y d), (IH y x).
Qed.

(** [wasFist] after a stretch of processed frames is the class of the
    last one. *)
Lemma wasFist_after (a : list Frame) (r : Refs) :
  Forall processed a ->
  wasFist (finalRefs a r) = last (map classifiedFist a) (wasFist r).
Proof.
  intros H. revert r. induction H as [|f a Hf Ha IH]; intros r; [reflexivity|].
  cbn [finalRefs map]. rewrite last_cons, IH.
  destruct (processed_frame f r Hf) as (Hw & _ & _). now rewrite Hw.
Qed.

Lemma grabs_are_rising_edges (frames : list Frame) (r : Refs) :
  Forall processed frames ->
  map (countGesture "Grab") (frameLoop frames r)
  = risingEdges (wasFist r) (map classifiedFist frames).
Proof.
  intros H. revert r. induction H as [|f a Hf Ha IH]; intros r; [reflexivity|].
  cbn [frameLoop map risingEdges].
  destruct (processed_frame f r Hf) as (Hw & Hg & _).
  rewrite Hg, IH, Hw. reflexivity.
Qed.

(** A stretch of fist frames entered with [wasFist = b]. *)
Lemma fist_run (run : list Frame) (r : Refs) :
  Forall processed run -> forallb classifiedFist run = true ->
  map (countGesture "Grab") (frameLoop run r)
  = match run with
    | [] => []
    | _ :: rest => (if wasFist r then 0 else 1) :: repeat 0 (List.length rest)
    end
  /\ Forall (fun o => wasFist (refs o) = true /\ lastPalmPos (refs o) = None)
            (frameLoop run r).
Proof.
  intros H. revert r. induction H as [|f a Hf Ha IH]; intros r Hall.
  - split; [reflexivity|constructor].
  - cbn [forallb] in Hall. apply andb_true_iff in Hall as [Hfist Hall].
    cbn [frameLoop map].
    destruct (processed_frame f r Hf) as (Hw & Hg & Hp).
    rewrite Hfist in *. specialize (Hp eq_refl).
    destruct (IH (refs (predictWebcam (isInPreview f) (results f) r)) Hall)
      as [IHg IHs].
    split.
    + rewrite Hg, IHg, Hw. cbn [andb List.length].
      destruct a; destruct (wasFist r); reflexivity.
    + constructor; [now split|exact IHs].
Qed.

End WithPlatform.
End LoopFacts.

(** ** The claims about the gesture overlay *)

Module OverlayClaims.
Import GestureOverlay Spec ClassifierFacts FrameFacts LoopFacts.
Local Open Scope string_scope.

(** C1.  Over any sequence of processed frames, a frame makes one Grab
    call exactly when it is classified as a fist and the frame before it
    was not (rising edge), and none otherwise.  So a contiguous run of
    fist frames that starts on a rising edge makes exactly one Grab call,
    on its first frame; every frame of the run leaves [wasFist] true and
    [lastPalmPos] cleared.  For [open, fist, fist, fist, open] the Grab
    counts are 0, 1, 0, 0, 0 and Release is sent on the two open frames
    only. *)
Theorem grab_once_per_fist_run {P : Platform} (frames : list Frame) (r : Refs) :
  Forall processed frames ->
  map (countGesture "Grab") (frameLoop frames r)
  = risingEdges (wasFist r) (map classifiedFist frames)
  /\ (forall pre run post,
         frames = (pre ++ run ++ post)%list ->
         run <> [] ->
         forallb classifiedFist run = true ->
         last (map classifiedFist pre) (wasFist r) = false ->
         exists outsPre outsRun outsPost,
           frameLoop frames r = (outsPre ++ outsRun ++ outsPost)%list
           /\ List.length outsPre = List.length pre
           /\ List.length outsRun = List.length run
           /\ map (countGesture "Grab") outsRun
              = 1 :: repeat 0 (List.length run - 1)
           /\ Forall (fun o => wasFist (refs o) = true
                               /\ lastPalmPos (refs o) = None) outsRun)
  /\ (forall o1 f1 f2 f3 o2,
         frames = [o1; f1; f2; f3; o2] ->
         classifiedOpen o1 = true -> classifiedFist f1 = true ->
         classifiedFist f2 = true -> classifiedFist f3 = true ->
         classifiedOpen o2 = true ->
         map (countGesture "Grab") (frameLoop frames r) = [0; 1; 0; 0; 0]
         /\ map (countGesture "Release") (frameLoop frames r) = [1; 0; 0; 0; 1]).
Proof.
  intros Hproc. split; [|split].
  - now apply grabs_are_rising_edges.
  - intros pre run post -> Hne Hall Hedge.
    apply Forall_app in Hproc as [Hpre Hrest].
    apply Forall_app in Hrest as [Hrun Hpost].
    rewrite frameLoop_app.
    set (r1 := finalRefs pre r).
    rewrite (frameLoop_app run post r1).
    exists (frameLoop pre r), (frameLoop run r1),
      (frameLoop post (finalRefs run r1)).
    split; [reflexivity|].
    rewrite !frameLoop_length. do 2 (split; [reflexivity|]).
    destruct (fist_run run r1 Hrun Hall) as [Hg Hs].
    split; [|exact Hs].
    rewrite Hg. unfold r1. rewrite (wasFist_after pre r Hpre), Hedge.
    destruct run as [|f run]; [congruence|].
    cbn [List.length]. f_equal. f_equal. lia.
  - intros o1 f1 f2 f3 o2 -> Ho1 Hf1 Hf2 Hf3 Ho2.
    assert (Hopen : forall f, classifiedOpen f = true ->
              classifiedFist f = false
              /\ forall r', countGesture "Release"
                     (predictWebcam (isInPreview f) (results f) r') = 1
                   /\ wasFist (refs (predictWebcam (isInPreview f) (results f) r'))
                      = false).
    { intros [pv res]. unfold classifiedOpen, classifiedFist. cbn [results isInPreview].
      destruct res as [[|lm rest]|]; try discriminate.
      destruct (detectFist lm) as [[]|] eqn:HF; try discriminate.
      destruct (detectOpenPalm lm) as [[]|] eqn:HO; try discriminate.
      intros _. split; [reflexivity|]. intros r'.
      rewrite (frame_open pv lm rest r' HF HO). split; reflexivity. }
    assert (Hfist : forall f, classifiedFist f = true ->
              forall r', countGesture "Release"
                     (predictWebcam (isInPreview f) (results f) r') = 0).
    { intros [pv res]. unfold classifiedFist. cbn [results isInPreview].
      destruct res as [[|lm rest]|]; try discriminate.
      destruct (detectFist lm) as [[]|] eqn:HF; try discriminate.
      intros _ r'. rewrite (frame_fist pv lm rest r' HF).
      destruct (wasFist r'); reflexivity. }
    split.
    + rewrite (grabs_are_rising_edges _ r Hproc). cbn [map risingEdges].
      destruct (Hopen o1 Ho1) as [-> _]. destruct (Hopen o2 Ho2) as [-> _].
      rewrite Hf1, Hf2, Hf3. reflexivity.
    + cbn [frameLoop map].
      destruct (Hopen o1 Ho1) as [_ H1]. destruct (Hopen o2 Ho2) as [_ H2].
      rewrite (proj1 (H1 _)), (proj1 (H2 _)).
      rewrite (Hfist f1 Hf1), (Hfist f2 Hf2), (Hfist f3 Hf3). reflexivity.
Qed.

(** C2.  When the hand is neither fist, open palm nor two-finger point,
    the frame clears [wasFist] and [lastPalmPos] and classifies the
    distance between thumb tip (4) and index tip (8): strictly below 0.05
    it sends ZoomOut, strictly above 0.12 it sends ZoomIn, otherwise it
    sends no gesture and shows the Idle label.  In particular 0.049 gives
    ZoomOut, 0.05 gives Idle and 0.121 gives ZoomIn. *)
Theorem pinch_thresholds {P : Platform} (pv : bool) (lm : Hand)
        (rest : list Hand) (r : Refs) :
  detectFist lm = normal false ->
  detectOpenPalm lm = normal false ->
  detectTwoFingers lm = normal false ->
  exists thumb index,
    nth_error lm 4 = Some thumb /\ nth_error lm 8 = Some index
    /\ let d := pinchDistance thumb index in
       let o := predictWebcam pv (Some (lm :: rest)) r in
       let zoomOut := [onGesture "ZoomOut" None;
                       setActiveGesture (Some labelZoomOut)] in
       let zoomIn := [onGesture "ZoomIn" None;
                      setActiveGesture (Some labelZoomIn)] in
       let idle := [setActiveGesture (Some labelIdle)] in
       outcome o = normal tt
       /\ refs o = mkRefs None false (smoothRot r)
       /\ (lt d 0.05%float = true -> calls o = zoomOut)
       /\ (gt d 0.12%float = true -> calls o = zoomIn)
       /\ (lt d 0.05%float = false -> gt d 0.12%float = false ->
           calls o = idle)
       /\ (d = 0.049%float -> calls o = zoomOut)
       /\ (d = 0.05%float -> calls o = idle)
       /\ (d = 0.121%float -> calls o = zoomIn).
Proof.
  intros HF HO HT.
  pose proof (detectTwoFingers_normal_wellFormed lm false HT) as WF.
  destruct (nth_wellFormed lm 4 WF ltac:(lia)) as [thumb H4].
  destruct (nth_wellFormed lm 8 WF ltac:(lia)) as [index H8].
  exists thumb, index. split; [exact H4|]. split; [exact H8|].
  cbv zeta. rewrite (frame_pinch pv lm rest r thumb index HF HO HT H4 H8).
  cbn [outcome refs calls].
  set (d := pinchDistance thumb index).
  assert (Hout : lt d 0.05%float = true ->
                 (if lt d 0.05%float
                  then [onGesture "ZoomOut" None; setActiveGesture (Some labelZoomOut)]
                  else if gt d 0.12%float
                       then [onGesture "ZoomIn" None; setActiveGesture (Some labelZoomIn)]
                       else [setActiveGesture (Some labelIdle)])
                 = [onGesture "ZoomOut" None; setActiveGesture (Some labelZoomOut)]).
  { intros ->. reflexivity. }
  assert (Hin : gt d 0.12%float = true ->
                (if lt d 0.05%float
                 then [onGesture "ZoomOut" None; setActiveGesture (Some labelZoomOut)]
                 else if gt d 0.12%float
                      then [onGesture "ZoomIn" None; setActiveGesture (Some labelZoomIn)]
                      else [setActiveGesture (Some labelIdle)])
                = [onGesture "ZoomIn" None; setActiveGesture (Some labelZoomIn)]).
  { intros Hgt. destruct (lt d 0.05%float) eqn:Hlt.
    - unfold gt in Hgt.
      pose proof (NumberFacts.lt_trans _ _ _ Hgt Hlt) as Habs.
      vm_compute in Habs. discriminate.
    - now rewrite Hgt. }
  assert (Hidle : lt d 0.05%float = false -> gt d 0.12%float = false ->
                (if lt d 0.05%float
                 then [onGesture "ZoomOut" None; setActiveGesture (Some labelZoomOut)]
                 else if gt d 0.12%float
                      then [onGesture "ZoomIn" None; setActiveGesture (Some labelZoomIn)]
                      else [setActiveGesture (Some labelIdle)])
                = [setActiveGesture (Some labelIdle)]).
  { intros -> ->. reflexivity. }
  repeat split; try assumption.
  - intros E. apply Hout. rewrite E. reflexivity.
  - intros E. apply Hidle; rewrite E; reflexivity.
  - intros E. apply Hin. rewrite E. reflexivity.
Qed.

(** C4.  Two consecutive two-finger frames outside preview whose palm
    centres differ by less than 0.005 on both axes: the second frame
    sends nothing, leaves the smoothing accumulator as it was, and still
    stores its own palm centre in [lastPalmPos]. *)
Theorem deadzone_keeps_tracking {P : Platform} (lm1 lm2 : Hand)
        (rest1 rest2 : list Hand) (r : Refs) (palm1 palm2 : Landmark.t) :
  detectFist lm1 = normal false -> detectOpenPalm lm1 = normal false ->
  detectTwoFingers lm1 = normal true -> nth_error lm1 9 = Some palm1 ->
  detectFist lm2 = normal false -> detectOpenPalm lm2 = normal false ->
  detectTwoFingers lm2 = normal true -> nth_error lm2 9 = Some palm2 ->
  lt (Math_abs (Landmark.x palm2 - Landmark.x palm1)%float) 0.005%float = true ->
  lt (Math_abs (Landmark.y palm2 - Landmark.y palm1)%float) 0.005%float = true ->
  let o1 := predictWebcam false (Some (lm1 :: rest1)) r in
  let o2 := predictWebcam false (Some (lm2 :: rest2)) (refs o1) in
  outcome o2 = normal tt
  /\ calls o2 = []
  /\ countGesture "Rotate" o2 = 0
  /\ smoothRot (refs o2) = smoothRot (refs o1)
  /\ lastPalmPos (refs o2)
     = Some (XY.mk (Landmark.x palm2) (Landmark.y palm2)).
Proof.
  intros HF1 HO1 HT1 H91 HF2 HO2 HT2 H92 Hdx Hdy. cbv zeta.
  rewrite (frame_point_free lm1 rest1 r palm1 HF1 HO1 HT1 H91).
  rewrite (frame_point_free lm2 rest2 _ palm2 HF2 HO2 HT2 H92).
  assert (Hlast : lastPalmPos (refs (pointStep palm1 r))
                  = Some (XY.mk (Landmark.x palm1) (Landmark.y palm1))).
  { unfold pointStep. destruct (lastPalmPos r); [|reflexivity].
    destruct (gt _ _ || gt _ _)%bool; reflexivity. }
  set (r1 := refs (pointStep palm1 r)) in *.
  assert (Hstep : pointStep palm2 r1
                  = mkRun (normal tt)
                      (mkRefs (Some (XY.mk (Landmark.x palm2) (Landmark.y palm2)))
                              false (smoothRot r1)) []).
  { unfold pointStep. rewrite Hlast. cbn [XY.x XY.y]. unfold gt.
    now rewrite (NumberFacts.lt_asym _ _ Hdx), (NumberFacts.lt_asym _ _ Hdy). }
  rewrite Hstep. repeat split; reflexivity.
Qed.

(** C6 (as the code has it).  A hand with fewer than 21 landmarks is not
    classified as all-false: [detectTwoFingers] reads every index up to
    20 and throws, [detectFist] and [detectOpenPalm] throw or answer
    false (and throw as soon as landmark 8 is missing), and the frame's
    gesture logic stops with a TypeError, the refs untouched and nothing
    sent. *)
Theorem short_hand_throws {P : Platform} (lm : Hand) :
  List.length lm < 21 ->
  detectTwoFingers lm = throwTypeError
  /\ detectFist lm <> normal true
  /\ detectOpenPalm lm <> normal true
  /\ (List.length lm <= 8 ->
      detectFist lm = throwTypeError /\ detectOpenPalm lm = throwTypeError)
  /\ (forall pv rest r,
        predictWebcam pv (Some (lm :: rest)) r = mkRun throwTypeError r []).
Proof.
  intros Hlen. split; [now apply detectTwoFingers_short|].
  split. { intros H. apply detectFist_true_wellFormed in H.
           unfold wellFormedHand in H. lia. }
  split. { intros H. apply detectOpenPalm_true_wellFormed in H.
           unfold wellFormedHand in H. lia. }
  split.
  - intros H8. unfold detectFist, detectOpenPalm, andAlso.
    rewrite (isFolded_throws lm 8 6 H8), (isExtended_throws lm 8 6 H8).
    split; reflexivity.
  - intros pv rest r. now apply frame_short_hand.
Qed.

(** C7 (as the code has it).  A frame makes at most one [onGesture]
    call and at most one label update, whatever the input; a frame with
    no hand clears [wasFist] and [lastPalmPos], makes no [onGesture]
    call and resets the label to [null]. *)
Theorem at_most_one_gesture_per_frame {P : Platform} (pv : bool)
        (res : option (list Hand)) (r : Refs) :
  List.length (gestureCalls (predictWebcam pv res r)) <= 1
  /\ List.length (labelCalls (predictWebcam pv res r)) <= 1
  /\ predictWebcam pv (Some []) r
     = mkRun (normal tt) (mkRefs None false (smoothRot r))
             [setActiveGesture None].
Proof.
  assert (Hboth : List.length (gestureCalls (predictWebcam pv res r)) <= 1
                  /\ List.length (labelCalls (predictWebcam pv res r)) <= 1).
  { destruct res as [[|lm rest]|]; [cbn; lia| |cbn; lia].
    destruct (le_lt_dec 21 (List.length lm)) as [WF|Hshort].
    2:{ rewrite (frame_short_hand pv lm rest r Hshort). cbn. lia. }
    destruct (detectors_defined lm WF) as (bf & bo & bt & HF & HO & HT).
    destruct (nth_wellFormed lm 4 WF ltac:(lia)) as [thumb H4].
    destruct (nth_wellFormed lm 8 WF ltac:(lia)) as [index H8].
    destruct (nth_wellFormed lm 9 WF ltac:(lia)) as [palm H9].
    destruct bf.
    { rewrite (frame_fist pv lm rest r HF). destruct (wasFist r); cbn; lia. }
    destruct bo.
    { rewrite (frame_open pv lm rest r HF HO). cbn. lia. }
    destruct bt.
    { destruct pv.
      - rewrite (frame_point_preview lm rest r HF HO HT). cbn. lia.
      - rewrite (frame_point_free lm rest r palm HF HO HT H9).
        unfold pointStep. destruct (lastPalmPos r); [|cbn; lia].
        destruct (gt _ _ || gt _ _)%bool; cbn; lia. }
    rewrite (frame_pinch pv lm rest r thumb index HF HO HT H4 H8).
    destruct (lt _ _); [cbn; lia|]. destruct (gt _ _); cbn; lia. }
  split; [apply Hboth|]. split; [apply Hboth|reflexivity].
Qed.

(** *** The claims on sample inputs *)

#[local] Existing Instance Sample.platform.

Lemma grab_once_per_fist_run_witness :
  Forall processed Sample.openFistOpen
  /\ map (countGesture "Grab") (frameLoop Sample.openFistOpen initialRefs)
     = [0; 1; 0; 0; 0]
  /\ map (countGesture "Release") (frameLoop Sample.openFistOpen initialRefs)
     = [1; 0; 0; 0; 1].
Proof.
  assert (H : Forall processed Sample.openFistOpen).
  { repeat constructor. }
  split; [exact H|].
  destruct (grab_once_per_fist_run Sample.openFistOpen initialRefs H)
    as (_ & _ & Hex).
  apply (Hex _ _ _ _ _ eq_refl); vm_compute; reflexivity.
Defined.

Lemma pinch_thresholds_witness :
  calls (predictWebcam false (Some [Sample.pinchHand 0.049]) initialRefs)
  = [onGesture "ZoomOut" None; setActiveGesture (Some labelZoomOut)].
Proof.
  assert (HF : detectFist (Sample.pinchHand 0.049) = normal false)
    by (vm_compute; reflexivity).
  assert (HO : detectOpenPalm (Sample.pinchHand 0.049) = normal false)
    by (vm_compute; reflexivity).
  assert (HT : detectTwoFingers (Sample.pinchHand 0.049) = normal false)
    by (vm_compute; reflexivity).
  destruct (pinch_thresholds false (Sample.pinchHand 0.049) [] initialRefs
              HF HO HT)
    as (thumb & index & H4 & H8 & _ & _ & _ & _ & _ & Hz & _).
  apply Hz. vm_compute in H4, H8.
  injection H4 as <-. injection H8 as <-. vm_compute. reflexivity.
Defined.

Lemma deadzone_keeps_tracking_witness :
  let o1 := predictWebcam false (Some [Sample.pointHand 0.5 0.5]) initialRefs in
  let o2 := predictWebcam false (Some [Sample.pointHand 0.503 0.502]) (refs o1) in
  outcome o2 = normal tt
  /\ calls o2 = []
  /\ countGesture "Rotate" o2 = 0
  /\ smoothRot (refs o2) = smoothRot (refs o1)
  /\ lastPalmPos (refs o2) = Some (XY.mk 0.503 0.502).
Proof.
  assert (HF1 : detectFist (Sample.pointHand 0.5 0.5) = normal false)
    by (vm_compute; reflexivity).
  assert (HO1 : detectOpenPalm (Sample.pointHand 0.5 0.5) = normal false)
    by (vm_compute; reflexivity).
  assert (HT1 : detectTwoFingers (Sample.pointHand 0.5 0.5) = normal true)
    by (vm_compute; reflexivity).
  assert (HF2 : detectFist (Sample.pointHand 0.503 0.502) = normal false)
    by (vm_compute; reflexivity).
  assert (HO2 : detectOpenPalm (Sample.pointHand 0.503 0.502) = normal false)
    by (vm_compute; reflexivity).
  assert (HT2 : detectTwoFingers (Sample.pointHand 0.503 0.502) = normal true)
    by (vm_compute; reflexivity).
  assert (Hdx : lt (Math_abs (0.503 - 0.5)%float) 0.005%float = true)
    by (vm_compute; reflexivity).
  assert (Hdy : lt (Math_abs (0.502 - 0.5)%float) 0.005%float = true)
    by (vm_compute; reflexivity).
  exact (deadzone_keeps_tracking
           (Sample.pointHand 0.5 0.5) (Sample.pointHand 0.503 0.502) [] []
           initialRefs (Sample.at_ 0.5 0.5) (Sample.at_ 0.503 0.502)
           HF1 HO1 HT1 eq_refl HF2 HO2 HT2 eq_refl Hdx Hdy).
Defined.

Lemma short_hand_throws_witness :
  List.length Sample.shortHand < 21
  /\ detectTwoFingers Sample.shortHand = throwTypeError
  /\ predictWebcam false (Some [Sample.shortHand]) initialRefs
     = mkRun throwTypeError initialRefs [].
Proof.
  assert (H : List.length Sample.shortHand < 21) by (vm_compute; lia).
  split; [exact H|].
  destruct (short_hand_throws Sample.shortHand H) as (HT & _ & _ & _ & Hframe).
  split; [exact HT|apply Hframe].
Defined.

(** A fist whose pinky tip is missing: the classifier does not report
    all-false features, it throws, and so does the frame. *)
Lemma short_hand_counterexample :
  List.length Sample.shortHand = 20
  /\ detectFist Sample.shortHand = throwTypeError
  /\ detectOpenPalm Sample.shortHand = normal false
  /\ detectTwoFingers Sample.shortHand = throwTypeError
  /\ outcome (predictWebcam false (Some [Sample.shortHand]) initialRefs)
     = throwTypeError
  /\ ~ (detectFist Sample.shortHand = normal false
        /\ detectOpenPalm Sample.shortHand = normal false
        /\ detectTwoFingers Sample.shortHand = normal false).
Proof.
  repeat split; try (vm_compute; reflexivity).
  intros (H & _). vm_compute in H. discriminate.
Qed.

(** A frame with no hand reaches the gesture consumer with nothing, and
    the first two-finger frame makes no call of any kind: neither frame
    delivers exactly one gesture event. *)
Lemma one_event_per_frame_counterexample :
  List.length (gestureCalls (predictWebcam false (Some []) initialRefs)) = 0
  /\ calls (predictWebcam false (Some []) initialRefs) = [setActiveGesture None]
  /\ calls (predictWebcam false (Some [Sample.pointHand 0.5 0.5]) initialRefs) = []
  /\ ~ (forall (pv : bool) (hands : list Hand) (r : Refs),
          List.length (gestureCalls (predictWebcam pv (Some hands) r)) = 1).
Proof.
  repeat split; try (vm_compute; reflexivity).
  intros H. specialize (H false [] initialRefs). vm_compute in H. discriminate.
Qed.

End OverlayClaims.

(** ** Sorting with a comparator *)

Module SortFacts.
Import App.

Section WithComparator.
Variable A : Type.
Variable comparefn : A -> A -> number.

Lemma insert_permutation (v : A) (l : list A) :
  Permutation (insert comparefn v l) (v :: l).
Proof.
  induction l as [|w l IH]; cbn [insert]; [reflexivity|].
  destruct (lt (comparefn v w) 0); [reflexivity|].
  rewrite IH. apply perm_swap.
Qed.

Lemma fold_insert_permutation (l acc : list A) :
  Permutation (fold_left (fun a v => insert comparefn v a) l acc) (l ++ acc).
Proof.
  revert acc. induction l as [|v l IH]; intros acc; cbn [fold_left app];
    [reflexivity|].
  rewrite IH, insert_permutation. symmetry. apply Permutation_middle.
Qed.

(** Sorting only reorders. *)
Lemma sort_permutation (l : list A) : Permutation (sort comparefn l) l.
Proof.
  unfold sort. rewrite fold_insert_permutation. now rewrite app_nil_r.
Qed.

Lemma sort_nil_iff (l : list A) : sort comparefn l = [] <-> l = [].
Proof.
  split; intros H.
  - pose proof (sort_permutation l) as Hp. rewrite H in Hp.
    now apply Permutation_nil in Hp.
  - now subst.
Qed.

Lemma sort_pair (a b : A) :
  sort comparefn [a; b]
  = if lt (comparefn b a) 0 then [b; a] else [a; b].
Proof. reflexivity. Qed.

(** An element that stays in front of a list it heads. *)
Lemma insert_behind_head (c v : A) (rest : list A) :
  lt (comparefn v c) 0 = false ->
  insert comparefn v (c :: rest) = c :: insert comparefn v rest.
Proof. intros H. cbn [insert]. now rewrite H. Qed.

Lemma insert_in_front (c : A) (l : list A) :
  (forall x, In x l -> lt (comparefn c x) 0 = true) ->
  exists rest, insert comparefn c l = c :: rest.
Proof.
  destruct l as [|w l]; intros H; cbn [insert]; [now exists []|].
  rewrite (H w (or_introl eq_refl)). now exists (w :: l).
Qed.

Lemma fold_insert_keeps_head (c : A) (post rest : list A) :
  (forall x, In x post -> lt (comparefn x c) 0 = false) ->
  exists rest',
    fold_left (fun a v => insert comparefn v a) post (c :: rest) = c :: rest'.
Proof.
  revert rest. induction post as [|v post IH]; intros rest H; cbn [fold_left].
  - now exists rest.
  - rewrite insert_behind_head by (apply H; now left).
    apply IH. intros x Hx. apply H. now right.
Qed.

(** A candidate that the comparator puts in front of every other one,
    and behind none, comes out first. *)
Lemma sort_unbeaten_first (pre post : list A) (c : A) :
  (forall x, In x (pre ++ post) ->
             lt (comparefn c x) 0 = true /\ lt (comparefn x c) 0 = false) ->
  exists rest, sort comparefn (pre ++ c :: post) = c :: rest.
Proof.
  intros H. unfold sort. rewrite fold_left_app. cbn [fold_left].
  set (acc := fold_left (fun a v => insert comparefn v a) pre []).
  destruct (insert_in_front c acc) as [rest Hrest].
  { intros x Hx. apply H. apply in_or_app. left.
    pose proof (fold_insert_permutation pre []) as Hp. rewrite app_nil_r in Hp.
    eapply Permutation_in; [exact Hp|exact Hx]. }
  rewrite Hrest. apply fold_insert_keeps_head.
  intros x Hx. apply H. apply in_or_app. now right.
Qed.

End WithComparator.
End SortFacts.

(** ** The application *)

Module AppFacts.
Import App Spec.
Local Open Scope string_scope.


Section WithLibraries.
Context {T : ThreeJS} {P : Platform}.

Lemma visit_survives (cam : Camera) (o : Object3D) :
  visit cam (getWorldDirection cam) o
  = if survives cam o then [candidateOf cam o] else [].
Proof.
  unfold visit, survives, inView, candidateOf, alignmentOf.
  destruct (isInteractable (userData o)); [|reflexivity].
  cbn [andb].
  destruct (lt (Math_abs (Vector3.z (project (worldPosition o) cam))) 1
            && lt (Math_abs (Vector3.x (project (worldPosition o) cam))) 0.8
            && lt (Math_abs (Vector3.y (project (worldPosition o) cam))) 0.8)%bool;
    [|reflexivity].
  cbn [andb]. destruct (lt _ _); reflexivity.
Qed.

(** The candidates are the nodes that pass the three tests, in
    traversal order. *)
Lemma collect_filter (cam : Camera) (scene : list Object3D) :
  collect cam scene = map (candidateOf cam) (filter (survives cam) scene).
Proof.
  unfold collect. induction scene as [|o scene IH]; [reflexivity|].
  cbn [flat_map filter]. rewrite IH, visit_survives.
  destruct (survives cam o); reflexivity.
Qed.

(** The rig does nothing while no focus is set and no pose is saved. *)
Lemma CameraRig_free (delta : number) (s : State) :
  focusTarget s = None -> Rig.saved (rig s) = false -> CameraRig delta s = s.
Proof.
  intros Hf Hs. unfold CameraRig. now rewrite Hf, Hs.
Qed.

Lemma renderFrames_free (deltas : list number) (s : State) :
  focusTarget s = None -> Rig.saved (rig s) = false -> renderFrames deltas s = s.
Proof.
  intros Hf Hs. unfold renderFrames.
  induction deltas as [|d deltas IH]; [reflexivity|].
  cbn [fold_left]. now rewrite CameraRig_free.
Qed.

End WithLibraries.
End AppFacts.

(** ** The claims about the application *)

Module AppClaims.
Import App Spec SortFacts AppFacts.
Local Open Scope string_scope.

(** C3.  The guards are there: the frame function of the latest render
    sends no Rotate while a focus target is set, and the handler of the
    latest render ignores a Rotate then.  But the camera loop keeps
    running the frame function of the render in which the camera was
    started.  Started while nothing was focused, it takes a two-finger
    frame during preview for a free one: it sends Rotate, and the
    handler it holds, which still sees no focus target, hands the
    rotation to the orbit controls. *)
Theorem rotate_reaches_controls_in_preview {T : ThreeJS} {P : Platform}
        (s : State) (ft : FocusTarget.t) (orbit : OrbitControls)
        (lm : GestureOverlay.Hand) (rest : list GestureOverlay.Hand)
        (r : GestureOverlay.Refs) (palm : Landmark.t) (lastPos : XY.t) :
  focusTarget s = Some ft ->
  controls s = Some orbit ->
  GestureOverlay.detectFist lm = normal false ->
  GestureOverlay.detectOpenPalm lm = normal false ->
  GestureOverlay.detectTwoFingers lm = normal true ->
  nth_error lm 9 = Some palm ->
  GestureOverlay.lastPalmPos r = Some lastPos ->
  (gt (Math_abs (Landmark.x palm - XY.x lastPos)) 0.005
   || gt (Math_abs (Landmark.y palm - XY.y lastPos)) 0.005)%bool = true ->
  let dx := (- GestureOverlay.lerp (XY.x (GestureOverlay.smoothRot r))
                 (Landmark.x palm - XY.x lastPos) 0.4)%float in
  let dy := GestureOverlay.lerp (XY.y (GestureOverlay.smoothRot r))
              (Landmark.y palm - XY.y lastPos) 0.4%float in
  let turned := setAzimuthalAngle (getAzimuthalAngle orbit - dx * 20)%float
                                  orbit (camera s) in
  let tilted := setPolarAngle (newPolar (getPolarAngle (fst turned)) dy)
                              (fst turned) (snd turned) in
  let moved := update (fst tilted) (snd tilted) in
  isInPreview s = true
  /\ snd (Wiring.cameraFrame (focusTarget s) (Some (lm :: rest)) (r, s)) = s
  /\ handleGesture "Rotate" (Some (GestureOverlay.mkRotate dx dy)) s = s
  /\ countGesture "Rotate"
       (GestureOverlay.predictWebcam false (Some (lm :: rest)) r) = 1
  /\ snd (Wiring.cameraFrame None (Some (lm :: rest)) (r, s))
     = setControls (Some (fst moved)) (setCamera (snd moved) s).
Proof.
  intros Hft Hc HF HO HT H9 Hlast Hmove. cbv zeta.
  split; [unfold isInPreview; now rewrite Hft|].
  unfold Wiring.cameraFrame. cbn [fst snd]. split; [|split; [|split]].
  - rewrite Hft.
    rewrite (FrameFacts.frame_point_preview lm rest r HF HO HT).
    reflexivity.
  - unfold handleGesture, handleGestureOf. rewrite Hc, Hft. reflexivity.
  - rewrite (FrameFacts.frame_point_free lm rest r palm HF HO HT H9).
    unfold pointStep. rewrite Hlast, Hmove. reflexivity.
  - rewrite (FrameFacts.frame_point_free lm rest r palm HF HO HT H9).
    unfold pointStep. rewrite Hlast, Hmove.
    cbn [GestureOverlay.calls deliverOf]. unfold handleGestureOf.
    rewrite Hc. reflexivity.
Qed.


(** C5.  The selector keeps the interactable nodes whose projected depth,
    x and y are in range and whose alignment is below 0.2, in traversal
    order; it answers nothing exactly when none is left, and otherwise a
    node of the scene that passed the tests.  The order is the one of the
    comparator: inside the 0.1 tie band the sign of the distance
    difference, outside it the sign of the alignment difference.  With
    two candidates the one the comparator ranks in front is returned; a
    candidate ranked in front of every other one is returned; and of two
    candidates with alignments -0.9 and -0.85 at distances 10 and 5 the
    one at distance 5 is returned. *)
Theorem selector_filters_and_ranks {T : ThreeJS} {P : Platform}
        (cam : Camera) (scene : list Object3D) :
  collect cam scene = map (candidateOf cam) (filter (survives cam) scene)
  /\ (selectBest cam scene = None <-> filter (survives cam) scene = [])
  /\ (forall hit, selectBest cam scene = Some hit ->
                  In (object hit) scene
                  /\ survives cam (object hit) = true
                  /\ data_userData hit = userData (object hit))
  /\ (forall a b,
         ranksBefore a b
         = if lt (Math_abs (alignment a - alignment b)%float) 0.1%float
           then lt (dist a - dist b)%float 0%float
           else lt (alignment a - alignment b)%float 0%float)
  /\ (forall a b,
         collect cam scene = [a; b] ->
         selectBest cam scene
         = Some (if ranksBefore b a
                 then mkHit (userData (obj b)) (obj b)
                 else mkHit (userData (obj a)) (obj a)))
  /\ (forall pre c post,
         collect cam scene = (pre ++ c :: post)%list ->
         (forall x, In x (pre ++ post)%list ->
                    ranksBefore c x = true /\ ranksBefore x c = false) ->
         selectBest cam scene = Some (mkHit (userData (obj c)) (obj c)))
  /\ (forall far near,
         alignment far = (-0.9)%float -> dist far = 10%float ->
         alignment near = (-0.85)%float -> dist near = 5%float ->
         collect cam scene = [far; near] \/ collect cam scene = [near; far] ->
         selectBest cam scene = Some (mkHit (userData (obj near)) (obj near))).
Proof.
  assert (Hpair : forall a b, collect cam scene = [a; b] ->
            selectBest cam scene
            = Some (if ranksBefore b a
                    then mkHit (userData (obj b)) (obj b)
                    else mkHit (userData (obj a)) (obj a))).
  { intros a b H. unfold selectBest. rewrite H, sort_pair.
    unfold ranksBefore. destruct (lt (compareCandidates b a) 0); reflexivity. }
  split; [apply collect_filter|]. split; [|split; [|split; [|split; [|split]]]].
  - unfold selectBest.
    destruct (sort compareCandidates (collect cam scene)) as [|best rest] eqn:E.
    + apply sort_nil_iff in E. rewrite collect_filter in E.
      split; [intros _|reflexivity].
      destruct (filter (survives cam) scene); [reflexivity|discriminate].
    + split; [discriminate|]. intros H. rewrite collect_filter, H in E.
      discriminate.
  - intros hit H. unfold selectBest in H.
    destruct (sort compareCandidates (collect cam scene)) as [|best rest] eqn:E;
      [discriminate|].
    injection H as <-. cbn [object data_userData].
    assert (Hin : In best (collect cam scene)).
    { eapply Permutation_in; [apply sort_permutation|]. rewrite E. now left. }
    rewrite collect_filter in Hin. apply in_map_iff in Hin as (o & <- & Ho).
    apply filter_In in Ho as [Ho Hs]. cbn [candidateOf obj]. now repeat split.
  - intros a b. reflexivity || (unfold ranksBefore, compareCandidates;
      destruct (lt (Math_abs _) _); reflexivity).
  - exact Hpair.
  - intros pre c post H Hwin. unfold selectBest. rewrite H.
    destruct (sort_unbeaten_first _ compareCandidates pre post c Hwin)
      as [rest ->].
    reflexivity.
  - intros far near Haf Hdf Han Hdn [H|H].
    + rewrite (Hpair _ _ H). unfold ranksBefore, compareCandidates.
      rewrite Haf, Hdf, Han, Hdn. reflexivity.
    + rewrite (Hpair _ _ H). unfold ranksBefore, compareCandidates.
      rewrite Haf, Hdf, Han, Hdn. reflexivity.
Qed.

(** C10.  When the raycaster runs for a pending Grab and finds a best
    candidate, the focus target is set, from that node, only if its
    [userData.type] is ['album-image']; for any other type the focus
    target, the preview flag, the pause flag, the camera and the controls
    are left as they were. *)
Theorem focus_only_on_album_image {T : ThreeJS} {P : Platform}
        (scene : list Object3D) (s : State) (data : HitData) :
  PrimFloat.eqb (grabSignal s) (lastTriggerRef s) = false ->
  selectBest (camera s) scene = Some data ->
  let s' := CenterRaycaster scene s in
  (type (data_userData data) = Some "album-image" ->
   focusTarget s'
   = Some (FocusTarget.mk (worldPosition (object data))
                   (worldQuaternion (object data))
                   (width (data_userData data))
                   (height (data_userData data))))
  /\ (type (data_userData data) <> Some "album-image" ->
      handleObjectHit data s = s
      /\ focusTarget s' = focusTarget s
      /\ isInPreview s' = isInPreview s
      /\ isPaused s' = isPaused s
      /\ camera s' = camera s
      /\ controls s' = controls s).
Proof.
  intros Hpending Hbest. cbv zeta. unfold CenterRaycaster.
  rewrite Hpending. cbn [camera setLastTrigger]. rewrite Hbest.
  unfold handleObjectHit. split.
  - intros ->. reflexivity.
  - intros Hty.
    assert (Hskip : forall st : State,
               match type (data_userData data) with
               | Some ty =>
                   if String.eqb ty "album-image"
                   then setFocusTarget
                          (Some (FocusTarget.mk (worldPosition (object data))
                                         (worldQuaternion (object data))
                                         (width (data_userData data))
                                         (height (data_userData data)))) st
                   else st
               | None => st
               end = st).
    { intros st. destruct (type (data_userData data)) as [ty|]; [|reflexivity].
      destruct (String.eqb_spec ty "album-image") as [->|]; [congruence|reflexivity]. }
    rewrite !Hskip. repeat split.
Qed.

(** C9 (as the code has it).  If focus is entered and released before
    any frame of the rig runs, no snapshot is taken and the application
    is exactly as it was before the focus, so the later frames do what
    they would have done without it.  When the rig held no saved pose (no
    earlier restore still running) nothing ever moves: the camera, the
    controls and the rig stay exactly as they were before the focus. *)
Theorem immediate_release_leaves_camera {T : ThreeJS} {P : Platform}
        (s : State) (ft : FocusTarget.t) (deltas : list number) :
  focusTarget s = None ->
  let released := setFocusTarget None (setFocusTarget (Some ft) s) in
  released = s
  /\ renderFrames deltas released = renderFrames deltas s
  /\ (forall data orbit,
         type (data_userData data) = Some "album-image" ->
         controls s = Some orbit ->
         handleGesture "Release" None (handleObjectHit data s) = s)
  /\ (Rig.saved (rig s) = false ->
      renderFrames deltas released = s
      /\ camera (renderFrames deltas released) = camera s
      /\ Rig.saved (rig (renderFrames deltas released)) = false).
Proof.
  intros Hf. cbv zeta.
  assert (Hback : forall f, setFocusTarget None (setFocusTarget f s) = s).
  { intros f. destruct s; cbn in *. now subst. }
  rewrite Hback. split; [reflexivity|]. split; [reflexivity|]. split.
  - intros data orbit Hty Hc. unfold handleObjectHit. rewrite Hty.
    cbn [String.eqb Ascii.eqb Bool.eqb].
    unfold handleGesture, handleGestureOf.
    cbn [controls setFocusTarget focusTarget].
    rewrite Hc. cbn [String.eqb Ascii.eqb Bool.eqb].
    apply Hback.
  - intros Hs. rewrite (renderFrames_free deltas s Hf Hs).
    repeat split; assumption.
Qed.

(** *** The claims on sample inputs *)

#[local] Existing Instance Sample.platform.
#[local] Existing Instance Sample.three.

Lemma rotate_reaches_controls_in_preview_witness :
  let s := setFocusTarget (Some (Sample.focusOn (Sample.image (Vector3.mk 0 0 0))))
                          Sample.state0 in
  let rs := Wiring.cameraFrames (focusTarget Sample.state0)
              [Some [Sample.pointHand 0.5 0.5]; Some [Sample.pointHand 0.6 0.5]]
              (GestureOverlay.initialRefs, s) in
  isInPreview s = true
  /\ focusTarget (snd rs) = focusTarget s
  /\ Traces.angles s = Some (0, 1.5)%float
  /\ Traces.angles (snd rs) <> Traces.angles s.
Proof.
  cbv zeta.
  set (s := setFocusTarget
              (Some (Sample.focusOn (Sample.image (Vector3.mk 0 0 0))))
              Sample.state0).
  set (r1 := fst (Wiring.cameraFrame None (Some [Sample.pointHand 0.5 0.5])
                    (GestureOverlay.initialRefs, s))).
  assert (Hstep1 : Wiring.cameraFrame None (Some [Sample.pointHand 0.5 0.5])
                     (GestureOverlay.initialRefs, s) = (r1, s))
    by (vm_compute; reflexivity).
  assert (HF : GestureOverlay.detectFist (Sample.pointHand 0.6 0.5) = normal false)
    by (vm_compute; reflexivity).
  assert (HO : GestureOverlay.detectOpenPalm (Sample.pointHand 0.6 0.5)
               = normal false)
    by (vm_compute; reflexivity).
  assert (HT : GestureOverlay.detectTwoFingers (Sample.pointHand 0.6 0.5)
               = normal true)
    by (vm_compute; reflexivity).
  assert (H9 : nth_error (Sample.pointHand 0.6 0.5) 9 = Some (Sample.at_ 0.6 0.5))
    by (vm_compute; reflexivity).
  assert (Hlast : GestureOverlay.lastPalmPos r1 = Some (XY.mk 0.5 0.5))
    by (vm_compute; reflexivity).
  assert (Hmove : (gt (Math_abs (Landmark.x (Sample.at_ 0.6 0.5) - 0.5)) 0.005
                   || gt (Math_abs (Landmark.y (Sample.at_ 0.6 0.5) - 0.5)) 0.005)%bool
                  = true)
    by (vm_compute; reflexivity).
  destruct (rotate_reaches_controls_in_preview s
              (Sample.focusOn (Sample.image (Vector3.mk 0 0 0))) Sample.orbit0
              (Sample.pointHand 0.6 0.5) [] r1 (Sample.at_ 0.6 0.5)
              (XY.mk 0.5 0.5) eq_refl eq_refl HF HO HT H9 Hlast Hmove)
    as (Hpv & _ & _ & _ & Hturn).
  split; [exact Hpv|].
  change (focusTarget Sample.state0) with (@None FocusTarget.t).
  unfold Wiring.cameraFrames. cbn [fold_left]. rewrite Hstep1, Hturn.
  split; [reflexivity|]. split; [reflexivity|].
  vm_compute. intros E. discriminate E.
Defined.



Lemma focus_only_on_album_image_witness :
  focusTarget (CenterRaycaster [Sample.widget (Vector3.mk 0 0 0)]
                               Sample.grabPending) = None
  /\ focusTarget (CenterRaycaster [Sample.image (Vector3.mk 0 0 0)]
                                  Sample.grabPending)
     = Some (Sample.focusOn (Sample.image (Vector3.mk 0 0 0))).
Proof.
  assert (Hpending : PrimFloat.eqb (grabSignal Sample.grabPending)
                                   (lastTriggerRef Sample.grabPending) = false)
    by (vm_compute; reflexivity).
  split.
  - assert (Hbest : selectBest (camera Sample.grabPending)
                               [Sample.widget (Vector3.mk 0 0 0)]
                    = Some (mkHit (userData (Sample.widget (Vector3.mk 0 0 0)))
                                  (Sample.widget (Vector3.mk 0 0 0))))
      by (vm_compute; reflexivity).
    destruct (focus_only_on_album_image
                [Sample.widget (Vector3.mk 0 0 0)] Sample.grabPending _
                Hpending Hbest) as [_ Hother].
    destruct Hother as (_ & Hft & _); [vm_compute; discriminate|exact Hft].
  - assert (Hbest : selectBest (camera Sample.grabPending)
                               [Sample.image (Vector3.mk 0 0 0)]
                    = Some (mkHit (userData (Sample.image (Vector3.mk 0 0 0)))
                                  (Sample.image (Vector3.mk 0 0 0))))
      by (vm_compute; reflexivity).
    destruct (focus_only_on_album_image
                [Sample.image (Vector3.mk 0 0 0)] Sample.grabPending _
                Hpending Hbest) as [Halbum _].
    apply Halbum. reflexivity.
Defined.

Lemma immediate_release_leaves_camera_witness :
  focusTarget Sample.state0 = None
  /\ Rig.saved (rig Sample.state0) = false
  /\ renderFrames [0.016; 0.016; 0.5]%float
       (setFocusTarget None
          (setFocusTarget (Some (Sample.focusOn (Sample.image (Vector3.mk 0 0 0))))
                          Sample.state0))
     = Sample.state0.
Proof.
  split; [reflexivity|]. split; [reflexivity|].
  apply (immediate_release_leaves_camera Sample.state0
           (Sample.focusOn (Sample.image (Vector3.mk 0 0 0)))
           [0.016; 0.016; 0.5]%float eq_refl).
  reflexivity.
Defined.

(** The selector on the two sample candidates, in both orders. *)
Example selector_prefers_near :
  sort compareCandidates [Sample.far; Sample.near] = [Sample.near; Sample.far]
  /\ sort compareCandidates [Sample.near; Sample.far] = [Sample.near; Sample.far].
Proof. split; vm_compute; reflexivity. Qed.

(** Focus entered and released at once while the rig is still flying back
    to an earlier snapshot: when the restore completes the camera is
    neither where it was when focus was entered nor on the saved pose. *)
Lemma immediate_release_counterexample :
  let s := Sample.midRestore in
  let ft := Sample.focusOn (Sample.image (Vector3.mk 0 0 0)) in
  let released := setFocusTarget None (setFocusTarget (Some ft) s) in
  let final := renderFrames [0.2; 0.2; 0.2]%float released in
  focusTarget s = None
  /\ Rig.saved (rig final) = false
  /\ position (camera final) = Vector3.mk 0.07999999999999996 0 30
  /\ position (camera s) = Vector3.mk 10 0 30
  /\ Rig.position (rig s) = Vector3.mk 0 0 30
  /\ camera final <> camera s
  /\ position (camera final) <> Rig.position (rig s)
  /\ ~ (forall (s0 : State) (ft0 : FocusTarget.t) (deltas : list number),
          focusTarget s0 = None ->
          let final0 :=
            renderFrames deltas
              (setFocusTarget None (setFocusTarget (Some ft0) s0)) in
          Rig.saved (rig final0) = false -> camera final0 = camera s0).
Proof.
  cbv zeta.
  assert (Hmoved :
            camera (renderFrames [0.2; 0.2; 0.2]%float
                      (setFocusTarget None
                         (setFocusTarget
                            (Some (Sample.focusOn (Sample.image (Vector3.mk 0 0 0))))
                            Sample.midRestore)))
            <> camera Sample.midRestore).
  { intros H.
    apply (f_equal (fun c => PrimFloat.eqb (Vector3.x (position c)) 10)) in H.
    vm_compute in H. discriminate. }
  repeat split; try (vm_compute; reflexivity); try exact Hmoved.
  - intros H. apply (f_equal (fun p => PrimFloat.eqb (Vector3.x p) 0)) in H.
    vm_compute in H. discriminate.
  - intros H. apply Hmoved. apply H; vm_compute; reflexivity.
Qed.

End AppClaims.

(** ** More on the ordering of numbers *)

Module NumberOrder.

Lemma SFcompare_swap (a b : spec_float) :
  SFcompare b a = option_map CompOpp (SFcompare a b).
Proof.
  destruct a as [sa|sa| |sa ma ea], b as [sb|sb| |sb mb eb]; cbn;
    try destruct sa; try destruct sb; cbn; try reflexivity.
  all: rewrite (Z.compare_antisym ea eb);
    destruct (ea ?= eb)%Z; cbn; try reflexivity;
    change (Pos.compare_cont Eq mb ma) with (Pos.compare mb ma);
    change (Pos.compare_cont Eq ma mb) with (Pos.compare ma mb);
    rewrite (Pos.compare_antisym ma mb);
    destruct (ma ?= mb)%positive; cbn; reflexivity.
Qed.

Lemma SFcompare_defined (a b : spec_float) :
  a <> S754_nan -> b <> S754_nan -> exists c, SFcompare a b = Some c.
Proof.
  destruct a as [sa|sa| |sa ma ea], b as [sb|sb| |sb mb eb]; cbn;
    intros Ha Hb; try congruence; eauto.
Qed.

Lemma not_nan (a : number) : isNaN a = false -> Prim2SF a <> S754_nan.
Proof.
  unfold isNaN, is_nan. rewrite FloatAxioms.eqb_spec. unfold SFeqb.
  intros H E. rewrite E in H. cbn in H. discriminate.
Qed.

(** Two numbers are comparable: if [a] is not below [b], then [b] is
    below or equal to [a]. *)
Lemma le_of_not_lt (a b : number) :
  isNaN a = false -> isNaN b = false -> lt a b = false -> le b a = true.
Proof.
  intros Ha Hb. unfold lt, le.
  rewrite FloatAxioms.ltb_spec, FloatAxioms.leb_spec. unfold SFltb, SFleb.
  rewrite (SFcompare_swap (Prim2SF a) (Prim2SF b)).
  destruct (SFcompare_defined _ _ (not_nan a Ha) (not_nan b Hb)) as [c ->].
  destruct c; cbn; congruence.
Qed.

Lemma le_reflexive (a : number) : isNaN a = false -> le a a = true.
Proof.
  intros Ha. apply le_of_not_lt; try assumption.
  destruct (lt a a) eqn:E; [|reflexivity].
  pose proof (NumberFacts.lt_asym _ _ E). congruence.
Qed.

(** [Math.min] of two numbers is one of them, a number, and not above
    either. *)
Lemma min_spec (a b : number) :
  isNaN a = false -> isNaN b = false ->
  (Math_min a b = a \/ Math_min a b = b)
  /\ isNaN (Math_min a b) = false
  /\ le (Math_min a b) a = true /\ le (Math_min a b) b = true.
Proof.
  intros Ha Hb. unfold Math_min. rewrite Ha, Hb. cbn [orb].
  destruct (lt a b) eqn:E1.
  { repeat split; auto using le_reflexive, NumberFacts.lt_le. }
  destruct (lt b a) eqn:E2.
  { repeat split; auto using le_reflexive, NumberFacts.lt_le. }
  destruct (is_zero a && negb (get_sign a))%bool;
    repeat split; auto using le_reflexive, le_of_not_lt.
Qed.

Lemma max_spec (a b : number) :
  isNaN a = false -> isNaN b = false ->
  (Math_max a b = a \/ Math_max a b = b)
  /\ isNaN (Math_max a b) = false
  /\ le a (Math_max a b) = true /\ le b (Math_max a b) = true.
Proof.
  intros Ha Hb. unfold Math_max. rewrite Ha, Hb. cbn [orb].
  destruct (lt a b) eqn:E1.
  { repeat split; auto using le_reflexive, NumberFacts.lt_le. }
  destruct (lt b a) eqn:E2.
  { repeat split; auto using le_reflexive, NumberFacts.lt_le. }
  destruct (is_zero a && get_sign a)%bool;
    repeat split; auto using le_reflexive, le_of_not_lt.
Qed.

(** [Math.max(lo, Math.min(hi, v))] lies between [lo] and [hi] when
    [lo <= hi]. *)
Lemma clamp_between (lo hi v : number) :
  isNaN lo = false -> isNaN hi = false -> isNaN v = false ->
  le lo hi = true ->
  le lo (Math_max lo (Math_min hi v)) = true
  /\ le (Math_max lo (Math_min hi v)) hi = true.
Proof.
  intros Hlo Hhi Hv Hle.
  destruct (min_spec hi v Hhi Hv) as (_ & Hm & Hmhi & _).
  destruct (max_spec lo (Math_min hi v) Hlo Hm) as ([E|E] & _ & H1 & _).
  - split; [exact H1|]. now rewrite E.
  - split; [exact H1|]. now rewrite E.
Qed.

End NumberOrder.

(** ** Plain objects *)

Module JSObjectFacts.
Import JSObject.

Lemma get_set_same (k : string) (v : Value) (o : JSObject.t) :
  get k (set k v o) = v.
Proof.
  induction o as [|[k' v'] o IH]; cbn [set get].
  - now rewrite String.eqb_refl.
  - destruct (String.eqb k' k) eqn:E; cbn [get]; rewrite E; [reflexivity|exact IH].
Qed.

Lemma get_set_other (k k' : string) (v : Value) (o : JSObject.t) :
  k' <> k -> get k' (set k v o) = get k' o.
Proof.
  intros Hne. induction o as [|[k0 v0] o IH]; cbn [set get].
  - destruct (String.eqb_spec k k'); [congruence|reflexivity].
  - destruct (String.eqb_spec k0 k) as [->|Hk]; cbn [get].
    + destruct (String.eqb_spec k k'); [congruence|reflexivity].
    + destruct (String.eqb k0 k'); [reflexivity|exact IH].
Qed.

Lemma set_set (k : string) (v w : Value) (o : JSObject.t) :
  set k v (set k w o) = set k v o.
Proof.
  induction o as [|[k' v'] o IH]; cbn [set].
  - now rewrite String.eqb_refl.
  - destruct (String.eqb k' k) eqn:E; cbn [set]; rewrite E; [reflexivity|].
    now rewrite IH.
Qed.

(** Writing back what a property holds changes nothing. *)
Lemma set_get (k : string) (o : JSObject.t) :
  has k o = true -> set k (get k o) o = o.
Proof.
  induction o as [|[k' v'] o IH]; cbn [has set get]; [discriminate|].
  destruct (String.eqb k' k); [reflexivity|].
  intros H. now rewrite IH.
Qed.

Lemma has_set (k k' : string) (v : Value) (o : JSObject.t) :
  has k' (set k v o) = (String.eqb k k' || has k' o)%bool.
Proof.
  induction o as [|[k0 v0] o IH]; cbn [set has].
  - destruct (String.eqb k k'); reflexivity.
  - destruct (String.eqb_spec k0 k) as [->|Hk]; cbn [has].
    + destruct (String.eqb k k'); reflexivity.
    + rewrite IH. destruct (String.eqb k0 k'); [now rewrite orb_true_r|reflexivity].
Qed.

(** Reading a spread: the update wins where it has the property. *)
Lemma get_spread (k : string) (o updates : JSObject.t) :
  get k (spread o updates)
  = if has k updates then get k (spread [] updates) else get k o.
Proof.
  unfold spread. revert o.
  assert (Hgen : forall o o',
             (has k updates = false ->
              get k (fold_left (fun acc kv => set (fst kv) (snd kv) acc) updates o)
              = get k o)
             /\ (has k updates = true ->
                 get k (fold_left (fun acc kv => set (fst kv) (snd kv) acc) updates o)
                 = get k (fold_left (fun acc kv => set (fst kv) (snd kv) acc) updates o'))).
  { induction updates as [|[k0 v0] updates IH]; intros o o'; cbn [has fold_left fst snd].
    - split; [reflexivity|discriminate].
    - destruct (String.eqb_spec k0 k) as [->|Hk].
      + split; [discriminate|]. intros _.
        destruct (has k updates) eqn:Hh.
        * apply (proj2 (IH _ _) eq_refl).
        * rewrite (proj1 (IH (set k v0 o) o) eq_refl).
          rewrite (proj1 (IH (set k v0 o') o) eq_refl).
          now rewrite !get_set_same.
      + split.
        * intros Hh. rewrite (proj1 (IH _ o) Hh). now apply get_set_other.
        * intros Hh. apply (proj2 (IH _ _) Hh). }
  intros o. destruct (has k updates) eqn:Hh.
  - apply (proj2 (Hgen o []) eq_refl).
  - apply (proj1 (Hgen o []) eq_refl).
Qed.

End JSObjectFacts.

(** ** Further properties of the gesture overlay *)

Module OverlayExtras.
Import GestureOverlay Spec Traces ClassifierFacts FrameFacts LoopFacts.
Local Open Scope string_scope.

Section WithPlatform.
Context {P : Platform}.

Lemma extended_not_folded (lm : Hand) (t p : nat) :
  isExtended lm t p = normal true -> isFolded lm t p = normal false.
Proof.
  unfold isFolded, isExtended.
  destruct (deref (nth_error lm t)) as [a|]; cbn [bindC]; try discriminate.
  destruct (deref (nth_error lm 0)) as [w|]; cbn [bindC]; try discriminate.
  destruct (deref (nth_error lm p)) as [c|]; cbn [bindC]; try discriminate.
  intros H.
  assert (E : lt (fromWrist c w) (fromWrist a w) = true)
    by (unfold gt in H; congruence).
  now rewrite (NumberFacts.lt_asym _ _ E).
Qed.

(** What a processed frame that is no two-finger point leaves in
    [lastPalmPos]. *)
Lemma palm_forgotten (f : Frame) (r : Refs) :
  processed f -> classifiedPoint f = false ->
  lastPalmPos (refs (predictWebcam (isInPreview f) (results f) r)) = None.
Proof.
  destruct f as [pv res]. unfold processed, classifiedPoint.
  cbn [results isInPreview].
  destruct res as [[|lm rest]|]; [intros _ _; reflexivity| |intros []].
  intros WF.
  destruct (detectors_defined lm WF) as (bf & bo & bt & HF & HO & HT).
  rewrite HF, HO, HT.
  destruct bf.
  { intros _. now rewrite (frame_fist pv lm rest r HF). }
  destruct bo.
  { intros _. now rewrite (frame_open pv lm rest r HF HO). }
  destruct bt; [discriminate|]. intros _.
  destruct (nth_wellFormed lm 4 WF ltac:(lia)) as [thumb H4].
  destruct (nth_wellFormed lm 8 WF ltac:(lia)) as [index H8].
  now rewrite (frame_pinch pv lm rest r thumb index HF HO HT H4 H8).
Qed.

Lemma dropped_frame (f : Frame) (r : Refs) :
  droppedFrame f ->
  refs (predictWebcam (isInPreview f) (results f) r) = r
  /\ calls (predictWebcam (isInPreview f) (results f) r) = [].
Proof.
  destruct f as [pv res]. unfold droppedFrame. cbn [results isInPreview].
  destruct res as [[|lm rest]|]; [intros []| |intros _; now split].
  intros Hshort. now rewrite (frame_short_hand pv lm rest r Hshort).
Qed.

End WithPlatform.

(** X1.  At most one of the three detectors answers true for a hand,
    whatever its landmarks: fist, open palm and two-finger point exclude
    each other. *)
Theorem poses_exclude_each_other {P : Platform} (lm : Hand) :
  (detectFist lm = normal true ->
   detectOpenPalm lm = normal false /\ detectTwoFingers lm = normal false)
  /\ (detectOpenPalm lm = normal true ->
      detectFist lm = normal false /\ detectTwoFingers lm = normal false)
  /\ (detectTwoFingers lm = normal true ->
      detectFist lm = normal false /\ detectOpenPalm lm = normal false).
Proof.
  split; [|split].
  - intros H. split; [now apply fist_not_open|].
    revert H. unfold detectFist, detectTwoFingers, andAlso.
    destruct (isFolded lm 8 6) as [[]|] eqn:E1; cbn [bindC]; try discriminate.
    destruct (isFolded lm 12 10) as [[]|] eqn:E2; cbn [bindC]; try discriminate.
    destruct (isFolded lm 16 14) as [[]|] eqn:E3; cbn [bindC]; try discriminate.
    intros E4.
    rewrite (folded_not_extended _ _ _ E1), (folded_not_extended _ _ _ E2), E4.
    reflexivity.
  - unfold detectFist, detectOpenPalm, detectTwoFingers, andAlso.
    destruct (isExtended lm 8 6) as [[]|] eqn:E1; cbn [bindC]; try discriminate.
    destruct (isExtended lm 12 10) as [[]|] eqn:E2; cbn [bindC]; try discriminate.
    destruct (isExtended lm 16 14) as [[]|] eqn:E3; cbn [bindC]; try discriminate.
    intros E4.
    rewrite (extended_not_folded _ _ _ E1), (extended_not_folded _ _ _ E3),
      (extended_not_folded _ _ _ E4).
    cbn [bindC]. split; reflexivity.
  - unfold detectFist, detectOpenPalm, detectTwoFingers, andAlso.
    destruct (isExtended lm 8 6) as [e1|] eqn:E1; cbn [bindC]; try discriminate.
    destruct (isExtended lm 12 10) as [e2|] eqn:E2; cbn [bindC]; try discriminate.
    destruct (isFolded lm 16 14) as [f3|] eqn:E3; cbn [bindC]; try discriminate.
    destruct (isFolded lm 20 18) as [f4|] eqn:E4; cbn [bindC]; try discriminate.
    intros H.
    assert (e1 = true /\ e2 = true /\ f3 = true /\ f4 = true) as (-> & -> & -> & ->).
    { destruct e1, e2, f3, f4; cbn in H; try discriminate. now repeat split. }
    rewrite (extended_not_folded _ _ _ E1), (folded_not_extended _ _ _ E3).
    cbn [bindC]. split; reflexivity.
Qed.

(** X2.  The smoothing accumulator is never reset, not even when the hand
    is lost: a frame either leaves it as it was and sends no Rotate, or
    sends exactly one Rotate whose payload is the new accumulator, x
    mirrored. *)
Theorem smoothing_only_moves_with_rotate {P : Platform} (pv : bool)
        (res : option (list Hand)) (r : Refs) :
  let o := predictWebcam pv res r in
  (smoothRot (refs o) = smoothRot r /\ countGesture "Rotate" o = 0)
  \/ calls o
     = [onGesture "Rotate"
          (Some (mkRotate (- XY.x (smoothRot (refs o)))%float
                          (XY.y (smoothRot (refs o)))));
        setActiveGesture (Some labelMove)].
Proof.
  cbv zeta. destruct res as [[|lm rest]|]; [left; now split| |left; now split].
  destruct (le_lt_dec 21 (List.length lm)) as [WF|Hshort].
  2:{ rewrite (frame_short_hand pv lm rest r Hshort). left. now split. }
  destruct (detectors_defined lm WF) as (bf & bo & bt & HF & HO & HT).
  destruct (nth_wellFormed lm 4 WF ltac:(lia)) as [thumb H4].
  destruct (nth_wellFormed lm 8 WF ltac:(lia)) as [index H8].
  destruct (nth_wellFormed lm 9 WF ltac:(lia)) as [palm H9].
  destruct bf.
  { rewrite (frame_fist pv lm rest r HF). left.
    destruct (wasFist r); now split. }
  destruct bo.
  { rewrite (frame_open pv lm rest r HF HO). left. now split. }
  destruct bt.
  { destruct pv.
    - rewrite (frame_point_preview lm rest r HF HO HT). left. now split.
    - rewrite (frame_point_free lm rest r palm HF HO HT H9).
      unfold pointStep. destruct (lastPalmPos r); [|left; now split].
      destruct (gt _ _ || gt _ _)%bool; [right; reflexivity|left; now split]. }
  rewrite (frame_pinch pv lm rest r thumb index HF HO HT H4 H8). left.
  destruct (lt _ _); [now split|]. destruct (gt _ _); now split.
Qed.

(** X3.  Rotation needs two two-finger frames in a row: after a processed
    frame that is not a two-finger point the palm position is forgotten,
    so the next two-finger frame outside preview sends nothing at all
    and only records its palm centre. *)
Theorem rotate_needs_two_point_frames {P : Platform} (f g : Frame) (r : Refs) :
  processed f -> classifiedPoint f = false ->
  processed g -> classifiedPoint g = true -> isInPreview g = false ->
  let o1 := predictWebcam (isInPreview f) (results f) r in
  let o2 := predictWebcam (isInPreview g) (results g) (refs o1) in
  lastPalmPos (refs o1) = None
  /\ calls o2 = []
  /\ smoothRot (refs o2) = smoothRot (refs o1)
  /\ exists lm rest palm,
       results g = Some (lm :: rest) /\ nth_error lm 9 = Some palm
       /\ lastPalmPos (refs o2)
          = Some (XY.mk (Landmark.x palm) (Landmark.y palm)).
Proof.
  intros Hf Hnf Hg Hpg Hpv. cbv zeta.
  pose proof (palm_forgotten f r Hf Hnf) as Hnone.
  split; [exact Hnone|].
  destruct g as [pv res]. cbn [isInPreview results] in *. subst pv.
  unfold classifiedPoint in Hpg. unfold processed in Hg. cbn [results] in *.
  destruct res as [[|lm rest]|]; try discriminate.
  destruct (detectFist lm) as [[]|] eqn:HF; try discriminate.
  destruct (detectOpenPalm lm) as [[]|] eqn:HO; try discriminate.
  destruct (detectTwoFingers lm) as [[]|] eqn:HT; try discriminate.
  destruct (nth_wellFormed lm 9 Hg ltac:(lia)) as [palm H9].
  rewrite (frame_point_free lm rest _ palm HF HO HT H9).
  unfold pointStep. rewrite Hnone. cbn [calls refs smoothRot lastPalmPos].
  repeat split. exists lm, rest, palm. now repeat split.
Qed.

(** X4.  A frame the gesture logic does not get through (detection
    skipped, or a primary hand with landmarks missing) sends nothing and
    leaves the refs alone, so every other frame of the loop does exactly
    what it would do without it. *)
Theorem dropped_frame_is_transparent {P : Platform}
        (pre post : list Frame) (bad : Frame) (r : Refs) :
  droppedFrame bad ->
  exists o,
    calls o = [] /\ refs o = finalRefs pre r
    /\ frameLoop (pre ++ bad :: post) r
       = (frameLoop pre r ++ o :: frameLoop post (finalRefs pre r))%list
    /\ frameLoop (pre ++ post) r
       = (frameLoop pre r ++ frameLoop post (finalRefs pre r))%list
    /\ finalRefs (pre ++ bad :: post) r = finalRefs (pre ++ post) r.
Proof.
  intros Hbad.
  destruct (dropped_frame bad (finalRefs pre r) Hbad) as [Hrefs Hcalls].
  exists (predictWebcam (isInPreview bad) (results bad) (finalRefs pre r)).
  split; [exact Hcalls|]. split; [exact Hrefs|].
  rewrite !frameLoop_app. cbn [frameLoop]. rewrite Hrefs.
  split; [reflexivity|]. split; [reflexivity|].
  assert (Happ : forall a b r0, finalRefs (a ++ b) r0 = finalRefs b (finalRefs a r0)).
  { induction a as [|x a IH]; intros b r0; [reflexivity|].
    cbn [app finalRefs]. apply IH. }
  rewrite !Happ. cbn [finalRefs]. now rewrite Hrefs.
Qed.

(** X5.  One detection per video time.  With the page complete and the
    video playing, the frame callback asks for the next animation frame;
    once a call at a video time has gone through the landmark service, a
    second call at the same time runs no gesture logic: nothing is sent,
    and the refs and the service stay as the first call left them. *)
Theorem same_video_time_runs_once {P : Platform}
        (pv pv' : bool) (dom dom' : OverlayLoop.Dom)
        (video video' : OverlayLoop.Video)
        (raw raw' : completion (list Hand))
        (svc : GestureService.t) (r : Refs) :
  OverlayLoop.videoRef dom = Some video ->
  OverlayLoop.videoRef dom' = Some video' ->
  OverlayLoop.currentTime video' = OverlayLoop.currentTime video ->
  isNaN (OverlayLoop.currentTime video) = false ->
  OverlayLoop.canvasRef dom = true ->
  GestureService.handLandmarker svc = true ->
  PrimFloat.eqb (OverlayLoop.videoWidth video) 0 = false ->
  PrimFloat.eqb (OverlayLoop.videoHeight video) 0 = false ->
  OverlayLoop.paused video = false ->
  let t1 := OverlayLoop.animationFrame pv dom raw svc r in
  let t2 := OverlayLoop.animationFrame pv' dom' raw'
              (OverlayLoop.service t1) (refs (OverlayLoop.run t1)) in
  OverlayLoop.scheduled t1 = true
  /\ calls (OverlayLoop.run t2) = []
  /\ refs (OverlayLoop.run t2) = refs (OverlayLoop.run t1)
  /\ OverlayLoop.service t2 = OverlayLoop.service t1.
Proof.
  intros Hv Hv' Htime Hnan Hcanvas Hlm Hw Hh Hp. cbv zeta.
  assert (Hrefl : PrimFloat.eqb (OverlayLoop.currentTime video)
                                (OverlayLoop.currentTime video) = true).
  { unfold isNaN, is_nan in Hnan. now apply negb_false_iff in Hnan. }
  assert (Hsvc : GestureService.handLandmarker
                   (OverlayLoop.service (OverlayLoop.animationFrame pv dom raw svc r))
                 = true
                 /\ PrimFloat.eqb (OverlayLoop.currentTime video)
                      (GestureService.lastVideoTime
                         (OverlayLoop.service
                            (OverlayLoop.animationFrame pv dom raw svc r)))
                    = true
                 /\ OverlayLoop.scheduled
                      (OverlayLoop.animationFrame pv dom raw svc r) = true).
  { unfold OverlayLoop.animationFrame, GestureService.detect.
    rewrite Hv, Hcanvas, Hlm, Hw, Hh, Hp. cbn [andb orb negb].
    destruct (PrimFloat.eqb (OverlayLoop.currentTime video)
                            (GestureService.lastVideoTime svc)) eqn:E;
      cbn [negb].
    - destruct (OverlayLoop.canvasCtx dom); cbn; now repeat split.
    - destruct raw; destruct (OverlayLoop.canvasCtx dom); cbn; now repeat split. }
  destruct Hsvc as (Hlm1 & Hlast & Hsched).
  split; [exact Hsched|].
  set (t1 := OverlayLoop.animationFrame pv dom raw svc r) in *.
  unfold OverlayLoop.animationFrame at 1 2 3, GestureService.detect.
  rewrite Hv', Hlm1, Htime, Hlast. cbn [negb].
  destruct (OverlayLoop.canvasRef dom'); cbn [andb]; [|now repeat split].
  destruct (PrimFloat.eqb (OverlayLoop.videoWidth video') 0
            || PrimFloat.eqb (OverlayLoop.videoHeight video') 0
            || OverlayLoop.paused video')%bool; [now repeat split|].
  destruct (OverlayLoop.canvasCtx dom'); now repeat split.
Qed.

(** X6.  While the overlay window is dragged inside a browser window at
    least as large as the overlay, every mouse move leaves its position
    between 0 and [innerWidth - 220] horizontally and between 0 and
    [innerHeight - 40] vertically, and the drag refs untouched.  *)
Theorem dragged_window_stays_inside
        (innerWidth innerHeight clientX clientY : number) (w : OverlayWindow.t) :
  OverlayWindow.isDragging w = true ->
  le 0 (innerWidth - 220)%float = true ->
  le 0 (innerHeight - 40)%float = true ->
  isNaN (XY.x (OverlayWindow.windowPosStartRef w)
         + (clientX - XY.x (OverlayWindow.dragStartRef w)))%float = false ->
  isNaN (XY.y (OverlayWindow.windowPosStartRef w)
         + (clientY - XY.y (OverlayWindow.dragStartRef w)))%float = false ->
  let w' := OverlayWindow.handleWindowMouseMove innerWidth innerHeight
              clientX clientY w in
  le 0 (XY.x (OverlayWindow.position w')) = true
  /\ le (XY.x (OverlayWindow.position w')) (innerWidth - 220)%float = true
  /\ le 0 (XY.y (OverlayWindow.position w')) = true
  /\ le (XY.y (OverlayWindow.position w')) (innerHeight - 40)%float = true
  /\ OverlayWindow.dragStartRef w' = OverlayWindow.dragStartRef w
  /\ OverlayWindow.windowPosStartRef w' = OverlayWindow.windowPosStartRef w
  /\ OverlayWindow.handleWindowMouseMove innerWidth innerHeight clientX clientY
       (OverlayWindow.handleWindowMouseUp w')
     = OverlayWindow.handleWindowMouseUp w'.
Proof.
  intros Hdrag HW HH Hx Hy. cbv zeta.
  assert (Hnum : forall a, le 0 a = true -> isNaN a = false).
  { intros a Ha. destruct (isNaN a) eqn:E; [|reflexivity].
    unfold le in Ha. rewrite FloatAxioms.leb_spec in Ha.
    unfold isNaN, is_nan in E. apply negb_true_iff in E.
    rewrite FloatAxioms.eqb_spec in E. unfold SFeqb, SFleb in *.
    destruct (Prim2SF a); cbn in *; try discriminate.
    - destruct s; discriminate.
    - destruct s; cbn in E.
      + rewrite Z.compare_refl, Pos.compare_cont_refl in E. discriminate.
      + rewrite Z.compare_refl, Pos.compare_cont_refl in E. discriminate. }
  unfold OverlayWindow.handleWindowMouseMove. rewrite Hdrag.
  cbn [OverlayWindow.position OverlayWindow.dragStartRef
       OverlayWindow.windowPosStartRef XY.x XY.y].
  destruct (NumberOrder.clamp_between 0 _ _ eq_refl (Hnum _ HW) Hx HW) as [X1 X2].
  destruct (NumberOrder.clamp_between 0 _ _ eq_refl (Hnum _ HH) Hy HH) as [Y1 Y2].
  repeat split; assumption.
Qed.

(** *** On sample inputs *)

#[local] Existing Instance Sample.platform.

Lemma rotate_needs_two_point_frames_witness :
  let o1 := predictWebcam false (Some [Sample.openHand]) initialRefs in
  let o2 := predictWebcam false (Some [Sample.pointHand 0.5 0.5]) (refs o1) in
  calls o2 = [] /\ lastPalmPos (refs o2) = Some (XY.mk 0.5 0.5).
Proof.
  assert (Hf : processed (Sample.frame false Sample.openHand))
    by (vm_compute; repeat constructor).
  assert (Hg : processed (Sample.frame false (Sample.pointHand 0.5 0.5)))
    by (vm_compute; repeat constructor).
  assert (Hnf : classifiedPoint (Sample.frame false Sample.openHand) = false)
    by (vm_compute; reflexivity).
  assert (Hpg : classifiedPoint (Sample.frame false (Sample.pointHand 0.5 0.5))
                = true)
    by (vm_compute; reflexivity).
  destruct (rotate_needs_two_point_frames
              (Sample.frame false Sample.openHand)
              (Sample.frame false (Sample.pointHand 0.5 0.5))
              initialRefs Hf Hnf Hg Hpg eq_refl)
    as (_ & Hcalls & _ & lm & rest & palm & Hres & H9 & Hlast).
  split; [exact Hcalls|].
  cbv zeta in *. cbn [Sample.frame results isInPreview] in *.
  injection Hres as <- <-. vm_compute in H9. injection H9 as <-. exact Hlast.
Defined.

Lemma dropped_frame_is_transparent_witness :
  map (@calls unit)
      (frameLoop [Sample.frame false Sample.fistHand;
                  Sample.frame false Sample.shortHand;
                  Sample.frame false Sample.fistHand] initialRefs)
  = (map (@calls unit)
         (frameLoop [Sample.frame false Sample.fistHand] initialRefs)
     ++ [] :: map (@calls unit)
                  (frameLoop [Sample.frame false Sample.fistHand]
                     (finalRefs [Sample.frame false Sample.fistHand]
                                initialRefs)))%list.
Proof.
  assert (Hbad : droppedFrame (Sample.frame false Sample.shortHand))
    by (vm_compute; lia).
  destruct (dropped_frame_is_transparent
              [Sample.frame false Sample.fistHand]
              [Sample.frame false Sample.fistHand]
              (Sample.frame false Sample.shortHand) initialRefs Hbad)
    as (o & Hcalls & _ & Hloop & _).
  cbn [app] in Hloop. rewrite Hloop, map_app. cbn [map]. now rewrite Hcalls.
Defined.

Lemma same_video_time_runs_once_witness :
  let t1 := OverlayLoop.animationFrame false (Sample2.readyDom 0.5)
              (normal [Sample.fistHand]) Sample2.loaded initialRefs in
  let t2 := OverlayLoop.animationFrame false (Sample2.readyDom 0.5)
              (normal [Sample.openHand]) (OverlayLoop.service t1)
              (refs (OverlayLoop.run t1)) in
  countGesture "Grab" (OverlayLoop.run t1) = 1
  /\ calls (OverlayLoop.run t2) = []
  /\ refs (OverlayLoop.run t2) = refs (OverlayLoop.run t1).
Proof.
  cbv zeta. split; [vm_compute; reflexivity|].
  assert (Hnan : isNaN (OverlayLoop.currentTime (Sample2.readyVideo 0.5)) = false)
    by (vm_compute; reflexivity).
  assert (Hw : PrimFloat.eqb (OverlayLoop.videoWidth (Sample2.readyVideo 0.5)) 0
               = false) by (vm_compute; reflexivity).
  assert (Hh : PrimFloat.eqb (OverlayLoop.videoHeight (Sample2.readyVideo 0.5)) 0
               = false) by (vm_compute; reflexivity).
  destruct (same_video_time_runs_once false false
              (Sample2.readyDom 0.5) (Sample2.readyDom 0.5)
              (Sample2.readyVideo 0.5) (Sample2.readyVideo 0.5)
              (normal [Sample.fistHand]) (normal [Sample.openHand])
              Sample2.loaded initialRefs
              eq_refl eq_refl eq_refl Hnan eq_refl eq_refl Hw Hh eq_refl)
    as (_ & Hcalls & Hrefs & _).
  split; [exact Hcalls|exact Hrefs].
Defined.

Lemma dragged_window_stays_inside_witness :
  let w' := OverlayWindow.handleWindowMouseMove 1280 900 5000 (-40)
              Sample2.dragged in
  le 0 (XY.x (OverlayWindow.position w')) = true
  /\ le (XY.x (OverlayWindow.position w')) (1280 - 220)%float = true
  /\ le 0 (XY.y (OverlayWindow.position w')) = true
  /\ le (XY.y (OverlayWindow.position w')) (900 - 40)%float = true.
Proof.
  cbv zeta.
  assert (HW : le 0 (1280 - 220)%float = true) by (vm_compute; reflexivity).
  assert (HH : le 0 (900 - 40)%float = true) by (vm_compute; reflexivity).
  assert (Hx : isNaN (XY.x (OverlayWindow.windowPosStartRef Sample2.dragged)
                      + (5000 - XY.x (OverlayWindow.dragStartRef Sample2.dragged)))%float
               = false) by (vm_compute; reflexivity).
  assert (Hy : isNaN (XY.y (OverlayWindow.windowPosStartRef Sample2.dragged)
                      + (-40 - XY.y (OverlayWindow.dragStartRef Sample2.dragged)))%float
               = false) by (vm_compute; reflexivity).
  pose proof (dragged_window_stays_inside 1280 900 5000 (-40) Sample2.dragged
                eq_refl HW HH Hx Hy) as H.
  cbv zeta in H. destruct H as (X1 & X2 & Y1 & Y2 & _).
  repeat split; assumption.
Defined.

End OverlayExtras.

(** ** Further properties of the application *)

Module AppExtras.
Import App Spec Traces AppFacts.
Local Open Scope string_scope.

Section WithLibraries.
Context {T : ThreeJS} {P : Platform}.

(** What a gesture leaves alone, whichever render made the handler. *)
Lemma handleGestureOf_keeps (rendered : option FocusTarget.t) (g : string)
      (d : option GestureOverlay.RotateData) (s : State) :
  rig (handleGestureOf rendered g d s) = rig s
  /\ lastTriggerRef (handleGestureOf rendered g d s) = lastTriggerRef s
  /\ option_map enabled (controls (handleGestureOf rendered g d s))
     = option_map enabled (controls s).
Proof.
  unfold handleGestureOf. destruct (controls s) as [orbit|] eqn:Hc;
    [|rewrite Hc; now repeat split].
  destruct (String.eqb g "Rotate").
  { destruct d as [d|], rendered as [ft|]; cbn;
      repeat match goal with
             | |- context [if ?c then _ else _] => destruct c; cbn
             end;
      rewrite ?Hc, ?update_enabled, ?setPolarAngle_enabled,
        ?setAzimuthalAngle_enabled; now repeat split. }
  repeat match goal with
         | |- context [if ?c then _ else _] => destruct c; cbn
         end;
    rewrite ?Hc, ?update_enabled; now repeat split.
Qed.

Lemma handleGesture_keeps (g : string) (d : option GestureOverlay.RotateData)
      (s : State) :
  rig (handleGesture g d s) = rig s
  /\ lastTriggerRef (handleGesture g d s) = lastTriggerRef s
  /\ option_map enabled (controls (handleGesture g d s))
     = option_map enabled (controls s).
Proof. apply handleGestureOf_keeps. Qed.

Lemma CameraRig_consistent (delta : number) (s : State) :
  orbitInputConsistent s -> orbitInputConsistent (CameraRig delta s).
Proof.
  unfold orbitInputConsistent, CameraRig.
  destruct (focusTarget s) as [ft|].
  - destruct (Rig.saved (rig s)) eqn:Hs;
      destruct (controls s) as [c|] eqn:Hc;
      cbn; rewrite ?Hc; cbn; rewrite ?Hs; auto.
  - destruct (Rig.saved (rig s)) eqn:Hs; [|now rewrite Hs].
    destruct (controls s) as [c|] eqn:Hc; cbn; rewrite ?Hc; cbn;
      match goal with
      | |- context [if ?c then _ else _] => destruct c; cbn
      end; rewrite ?Hc; cbn; rewrite ?Hs; auto.
Qed.

Lemma handleObjectHit_keeps (data : HitData) (s : State) :
  rig (handleObjectHit data s) = rig s
  /\ controls (handleObjectHit data s) = controls s
  /\ camera (handleObjectHit data s) = camera s
  /\ grabSignal (handleObjectHit data s) = grabSignal s
  /\ lastTriggerRef (handleObjectHit data s) = lastTriggerRef s.
Proof.
  unfold handleObjectHit. destruct (type (data_userData data)) as [ty|];
    [|now repeat split].
  destruct (String.eqb ty "album-image"); now repeat split.
Qed.

Lemma CenterRaycaster_keeps (scene : list Object3D) (s : State) :
  rig (CenterRaycaster scene s) = rig s
  /\ controls (CenterRaycaster scene s) = controls s
  /\ camera (CenterRaycaster scene s) = camera s
  /\ grabSignal (CenterRaycaster scene s) = grabSignal s.
Proof.
  unfold CenterRaycaster.
  destruct (PrimFloat.eqb (grabSignal s) (lastTriggerRef s)); [now repeat split|].
  destruct (selectBest _ scene) as [data|]; [|now repeat split].
  destruct (handleObjectHit_keeps data (setLastTrigger (grabSignal s) s))
    as (H1 & H2 & H3 & H4 & _).
  rewrite H1, H2, H3, H4. now repeat split.
Qed.

Lemma step_consistent (e : Event) (s : State) :
  orbitInputConsistent s -> orbitInputConsistent (step s e).
Proof.
  intros H. destruct e as [g d|node| |scene delta]; cbn [step].
  - destruct (handleGesture_keeps g d s) as (Hr & _ & He).
    unfold orbitInputConsistent in *. rewrite Hr.
    destruct (controls (handleGesture g d s)) as [c'|]; [|exact I].
    destruct (controls s) as [c|]; cbn in He; [|discriminate].
    injection He as He. now rewrite He.
  - exact H.
  - exact H.
  - apply (CameraRig_consistent delta) in H.
    destruct (CenterRaycaster_keeps scene (CameraRig delta s)) as (Hr & Hc & _).
    unfold orbitInputConsistent in *. now rewrite Hr, Hc.
Qed.

Lemma CameraRig_first_focus (delta : number) (s : State) (ft : FocusTarget.t) :
  focusTarget s = Some ft -> Rig.saved (rig s) = false ->
  rig (CameraRig delta s)
  = Rig.mk true (position (camera s)) (quaternion (camera s))
           (match controls s with
            | Some c => target c
            | None => Rig.target (rig s)
            end)
  /\ option_map enabled (controls (CameraRig delta s))
     = option_map (fun _ => false) (controls s).
Proof.
  intros Hf Hs. unfold CameraRig. rewrite Hf, Hs. cbn [negb].
  destruct (controls s) as [c|] eqn:Hc; cbn; rewrite ?Hc; cbn; now split.
Qed.

Lemma CameraRig_keeps_snapshot (delta : number) (s : State) :
  Rig.saved (rig s) = true ->
  Rig.position (rig (CameraRig delta s)) = Rig.position (rig s)
  /\ Rig.quaternion (rig (CameraRig delta s)) = Rig.quaternion (rig s)
  /\ Rig.target (rig (CameraRig delta s)) = Rig.target (rig s)
  /\ (focusTarget s <> None ->
      rig (CameraRig delta s) = rig s
      /\ option_map enabled (controls (CameraRig delta s))
         = option_map enabled (controls s)).
Proof.
  intros Hs. unfold CameraRig. rewrite Hs.
  destruct (focusTarget s) as [ft|]; cbn [negb].
  - destruct (controls s) as [c|] eqn:Hc; cbn; rewrite ?Hc; cbn;
      repeat split.
  - destruct (controls s) as [c|] eqn:Hc; cbn; rewrite ?Hc; cbn;
      match goal with
      | |- context [if ?c then _ else _] => destruct c; cbn
      end; rewrite ?Hc; repeat split; congruence.
Qed.


Lemma CameraRig_keeps_focus (delta : number) (s : State) :
  focusTarget (CameraRig delta s) = focusTarget s.
Proof.
  unfold CameraRig. destruct (focusTarget s) as [ft|] eqn:Hf.
  - destruct (Rig.saved (rig s)); cbn; exact Hf.
  - destruct (Rig.saved (rig s)); [|exact Hf]. cbn.
    match goal with
    | |- context [if ?c then _ else _] => destruct c; cbn
    end; exact Hf.
Qed.

End WithLibraries.


(** X8.  The raycaster selects at most once per grab signal: a second
    frame of it without a new Grab changes nothing, whatever the scene
    has become. *)
Theorem raycaster_runs_once_per_grab {T : ThreeJS} {P : Platform}
        (scene scene' : list Object3D) (s : State) :
  isNaN (grabSignal s) = false ->
  CenterRaycaster scene' (CenterRaycaster scene s) = CenterRaycaster scene s.
Proof.
  intros Hnan.
  assert (Hrefl : PrimFloat.eqb (grabSignal s) (grabSignal s) = true).
  { unfold isNaN, is_nan in Hnan. now apply negb_false_iff in Hnan. }
  assert (Hdone : PrimFloat.eqb (grabSignal (CenterRaycaster scene s))
                                (lastTriggerRef (CenterRaycaster scene s)) = true).
  { unfold CenterRaycaster.
    destruct (PrimFloat.eqb (grabSignal s) (lastTriggerRef s)) eqn:E; [exact E|].
    destruct (selectBest _ scene) as [data|]; [|exact Hrefl].
    destruct (handleObjectHit_keeps data (setLastTrigger (grabSignal s) s))
      as (_ & _ & _ & H4 & H5).
    rewrite H4, H5. exact Hrefl. }
  unfold CenterRaycaster at 1. now rewrite Hdone.
Qed.

(** X9.  From fist to focus.  The first fist frame of a run, delivered to
    the application, raises the grab signal by one and changes nothing
    else; the next render frame of the raycaster hands the selector's
    best node to [handleObjectHit]; the fist frames that follow deliver
    nothing. *)
Theorem fist_edge_reaches_the_selector {T : ThreeJS} {P : Platform}
        (f : GestureOverlay.Frame) (r : GestureOverlay.Refs)
        (scene : list Object3D) (s : State) (orbit : OrbitControls) :
  processed f -> classifiedFist f = true ->
  GestureOverlay.wasFist r = false ->
  controls s = Some orbit ->
  PrimFloat.eqb (grabSignal s + 1)%float (lastTriggerRef s) = false ->
  let o := GestureOverlay.predictWebcam (GestureOverlay.isInPreview f)
             (GestureOverlay.results f) r in
  let s1 := deliver (GestureOverlay.calls o) s in
  let o' := GestureOverlay.predictWebcam (GestureOverlay.isInPreview f)
              (GestureOverlay.results f) (GestureOverlay.refs o) in
  s1 = setGrabSignal (grabSignal s + 1)%float s
  /\ CenterRaycaster scene s1
     = match selectBest (camera s) scene with
       | Some data =>
           handleObjectHit data (setLastTrigger (grabSignal s + 1)%float s1)
       | None => setLastTrigger (grabSignal s + 1)%float s1
       end
  /\ deliver (GestureOverlay.calls o') s1 = s1.
Proof.
  intros Hp Hfist Hwas Hc Hpending. cbv zeta.
  destruct f as [pv res]. unfold processed, classifiedFist in *.
  cbn [GestureOverlay.results GestureOverlay.isInPreview] in *.
  destruct res as [[|lm rest]|]; try discriminate.
  destruct (GestureOverlay.detectFist lm) as [[]|] eqn:HF; try discriminate.
  rewrite (FrameFacts.frame_fist pv lm rest r HF), Hwas.
  cbn [GestureOverlay.calls GestureOverlay.refs].
  rewrite (FrameFacts.frame_fist pv lm rest _ HF).
  cbn [GestureOverlay.calls GestureOverlay.refs GestureOverlay.wasFist deliver].
  assert (Hgrab : handleGesture "Grab" None s
                  = setGrabSignal (grabSignal s + 1)%float s).
  { unfold handleGesture, handleGestureOf. rewrite Hc. reflexivity. }
  rewrite Hgrab. split; [reflexivity|]. split; [|reflexivity].
  unfold CenterRaycaster. cbn [setGrabSignal grabSignal lastTriggerRef].
  rewrite Hpending. reflexivity.
Qed.

(** X10.  An open palm always leaves preview: the calls of a processed
    open-palm frame, delivered while the controls are mounted, clear the
    focus target (so the preview and pause flags are off) and change
    nothing else; while the controls are not mounted they change nothing
    at all, and the focus target stays. *)
Theorem open_palm_leaves_preview {T : ThreeJS} {P : Platform}
        (f : GestureOverlay.Frame) (r : GestureOverlay.Refs) (s : State) :
  processed f -> classifiedOpen f = true ->
  let o := GestureOverlay.predictWebcam (GestureOverlay.isInPreview f)
             (GestureOverlay.results f) r in
  (controls s <> None ->
   deliver (GestureOverlay.calls o) s = setFocusTarget None s
   /\ isInPreview (deliver (GestureOverlay.calls o) s) = false
   /\ isPaused (deliver (GestureOverlay.calls o) s) = false)
  /\ (controls s = None -> deliver (GestureOverlay.calls o) s = s).
Proof.
  intros Hp Hopen. cbv zeta.
  destruct f as [pv res]. unfold processed, classifiedOpen in *.
  cbn [GestureOverlay.results GestureOverlay.isInPreview] in *.
  destruct res as [[|lm rest]|]; try discriminate.
  destruct (GestureOverlay.detectFist lm) as [[]|] eqn:HF; try discriminate.
  destruct (GestureOverlay.detectOpenPalm lm) as [[]|] eqn:HO; try discriminate.
  rewrite (FrameFacts.frame_open pv lm rest r HF HO).
  cbn [GestureOverlay.calls deliver]. unfold handleGesture, handleGestureOf.
  destruct (controls s) as [orbit|]; split; intros Hc;
    try congruence; now repeat split.
Qed.

(** X11.  Clicking an album image and grabbing it end in the same place:
    when the selector's best hit is a node built by the album layer, the
    raycaster's frame on a pending grab leaves the state the click
    handler leaves, but for the recorded trigger, with the focus target
    at the node's world pose and the image size 3 by 2. *)
Theorem click_and_grab_agree {T : ThreeJS} {P : Platform}
        (scene : list Object3D) (worldPos : Vector3.t)
        (worldQuat : Quaternion.t) (s : State) :
  let node := AlbumLayer.item worldPos worldQuat in
  PrimFloat.eqb (grabSignal s) (lastTriggerRef s) = false ->
  selectBest (camera s) scene = Some (mkHit (userData node) node) ->
  CenterRaycaster scene s
  = setLastTrigger (grabSignal s) (AlbumLayer.onClick node s)
  /\ focusTarget (CenterRaycaster scene s)
     = focusTarget (AlbumLayer.onClick node s)
  /\ focusTarget (AlbumLayer.onClick node s)
     = Some (FocusTarget.mk worldPos worldQuat 3 2).
Proof.
  cbv zeta. intros Hpending Hbest.
  assert (Hray : CenterRaycaster scene s
                 = setLastTrigger (grabSignal s)
                     (AlbumLayer.onClick
                        (AlbumLayer.item worldPos worldQuat) s)).
  { unfold CenterRaycaster. rewrite Hpending.
    change (camera (setLastTrigger (grabSignal s) s)) with (camera s).
    rewrite Hbest. reflexivity. }
  split; [exact Hray|]. split; [now rewrite Hray|reflexivity].
Qed.

(** X12.  The pose the camera goes back to is the one it had before the
    first focused frame: however many frames run while a focus target is
    set, and whichever targets they see, the rig keeps that one snapshot
    and orbit input stays disabled; the frames after the release never
    rewrite the snapshot either. *)
Theorem snapshot_is_taken_once {T : ThreeJS} {P : Platform}
        (s : State) (first : FocusTarget.t * number)
        (more : list (FocusTarget.t * number)) (deltas : list number) :
  Rig.saved (rig s) = false ->
  let pose := Rig.mk true (position (camera s)) (quaternion (camera s))
                     (match controls s with
                      | Some c => target c
                      | None => Rig.target (rig s)
                      end) in
  let focused := focusedFrames (first :: more) s in
  let after := renderFrames deltas (setFocusTarget None focused) in
  rig focused = pose
  /\ option_map enabled (controls focused)
     = option_map (fun _ => false) (controls s)
  /\ Rig.position (rig after) = Rig.position pose
  /\ Rig.quaternion (rig after) = Rig.quaternion pose
  /\ Rig.target (rig after) = Rig.target pose.
Proof.
  intros Hs. cbv zeta.
  set (pose := Rig.mk true (position (camera s)) (quaternion (camera s))
                      (match controls s with
                       | Some c => target c
                       | None => Rig.target (rig s)
                       end)).
  assert (Hfocused : rig (focusedFrames (first :: more) s) = pose
                     /\ option_map enabled
                          (controls (focusedFrames (first :: more) s))
                        = option_map (fun _ => false) (controls s)).
  { unfold focusedFrames. cbn [fold_left].
    destruct (CameraRig_first_focus (snd first)
                (setFocusTarget (Some (fst first)) s) (fst first) eq_refl Hs)
      as [Hrig Hen].
    cbn [setFocusTarget camera controls rig] in Hrig, Hen. fold pose in Hrig.
    revert Hrig Hen.
    generalize (CameraRig (snd first) (setFocusTarget (Some (fst first)) s)).
    induction more as [|[ft d] more IH]; intros st Hrig Hen;
      cbn [fold_left fst snd].
    - now split.
    - apply IH.
      + destruct (CameraRig_keeps_snapshot d (setFocusTarget (Some ft) st))
          as (_ & _ & _ & Hkeep).
        { cbn [setFocusTarget rig]. now rewrite Hrig. }
        destruct Hkeep as [Hk _]; [discriminate|].
        rewrite Hk. exact Hrig.
      + destruct (CameraRig_keeps_snapshot d (setFocusTarget (Some ft) st))
          as (_ & _ & _ & Hkeep).
        { cbn [setFocusTarget rig]. now rewrite Hrig. }
        destruct Hkeep as [_ Hk]; [discriminate|].
        rewrite Hk. exact Hen. }
  destruct Hfocused as [Hrig Hen].
  split; [exact Hrig|]. split; [exact Hen|].
  assert (Hrestore : forall ds st,
             focusTarget st = None ->
             Rig.position (rig st) = Rig.position pose ->
             Rig.quaternion (rig st) = Rig.quaternion pose ->
             Rig.target (rig st) = Rig.target pose ->
             Rig.position (rig (renderFrames ds st)) = Rig.position pose
             /\ Rig.quaternion (rig (renderFrames ds st)) = Rig.quaternion pose
             /\ Rig.target (rig (renderFrames ds st)) = Rig.target pose).
  { unfold renderFrames. induction ds as [|d ds IH]; intros st Hf H1 H2 H3;
      cbn [fold_left]; [now repeat split|].
    assert (Hf' : focusTarget (CameraRig d st) = None)
      by now rewrite CameraRig_keeps_focus.
    destruct (Rig.saved (rig st)) eqn:Hsaved.
    - destruct (CameraRig_keeps_snapshot d st Hsaved) as (K1 & K2 & K3 & _).
      apply IH; congruence.
    - rewrite (CameraRig_free d st Hf Hsaved). now apply IH. }
  apply Hrestore; cbn [setFocusTarget rig focusTarget]; now rewrite ?Hrig.
Qed.

(** X13.  Orbit input is off exactly while the rig holds a snapshot:
    whatever gestures, clicks, exit-button presses and render frames
    follow one another, the enabled flag of mounted controls is the
    negation of the rig's saved flag. *)
Theorem orbit_input_follows_the_snapshot {T : ThreeJS} {P : Platform}
        (events : list Event) (s : State) :
  orbitInputConsistent s -> orbitInputConsistent (steps events s).
Proof.
  unfold steps. revert s.
  induction events as [|e events IH]; intros s H; cbn [fold_left].
  - exact H.
  - apply IH. now apply step_consistent.
Qed.

(** X14.  The album stands still in preview: while a focus target is set
    the album's frame callback leaves the group's rotation alone, for
    any number of frames, and so it does right after a click on one of
    its images; a grid album never turns; a free album of another layout
    turns by 0.002 per frame. *)
Theorem album_stands_still_in_preview (n : nat) (layout : string)
        (rotationY : option number) (s : State) :
  (focusTarget s <> None ->
   AlbumLayer.frames n (isPaused s) layout rotationY = rotationY)
  /\ (forall node,
         AlbumLayer.frames n (isPaused (AlbumLayer.onClick node s)) layout
                           rotationY = rotationY)
  /\ AlbumLayer.frames n (isPaused s) "grid" rotationY = rotationY
  /\ (focusTarget s = None -> layout <> "grid" ->
      forall y, AlbumLayer.useFrame (isPaused s) layout (Some y)
                = Some (y + 0.002)%float).
Proof.
  assert (Hpaused : forall l r, AlbumLayer.frames n true l r = r).
  { intros l r. unfold AlbumLayer.frames.
    induction n as [|n IH]; [reflexivity|].
    rewrite Nat.iter_succ, IH. reflexivity. }
  repeat split.
  - intros Hf. unfold isPaused.
    destruct (focusTarget s); [apply Hpaused|congruence].
  - intros node. apply Hpaused.
  - clear Hpaused. unfold AlbumLayer.frames.
    induction n as [|n IH]; [reflexivity|].
    rewrite Nat.iter_succ, IH. unfold AlbumLayer.useFrame.
    destruct (isPaused s), rotationY; reflexivity.
  - intros Hf Hl y. unfold isPaused, AlbumLayer.useFrame. rewrite Hf.
    destruct (String.eqb_spec layout "grid"); [congruence|reflexivity].
Qed.

(** *** On sample inputs *)

#[local] Existing Instance Sample.platform.
#[local] Existing Instance Sample.three.

Lemma raycaster_runs_once_per_grab_witness :
  isNaN (grabSignal Sample.grabPending) = false
  /\ CenterRaycaster []
       (CenterRaycaster [Sample.image (Vector3.mk 0 0 0)] Sample.grabPending)
     = CenterRaycaster [Sample.image (Vector3.mk 0 0 0)] Sample.grabPending.
Proof.
  assert (H : isNaN (grabSignal Sample.grabPending) = false)
    by (vm_compute; reflexivity).
  split; [exact H|].
  exact (raycaster_runs_once_per_grab [Sample.image (Vector3.mk 0 0 0)] []
           Sample.grabPending H).
Defined.

Lemma fist_edge_reaches_the_selector_witness :
  let f := Sample.frame false Sample.fistHand in
  let o := GestureOverlay.predictWebcam false (Some [Sample.fistHand])
             GestureOverlay.initialRefs in
  let s1 := deliver (GestureOverlay.calls o) Sample.state0 in
  processed f
  /\ s1 = Sample.grabPending
  /\ focusTarget (CenterRaycaster [Sample.image (Vector3.mk 0 0 0)] s1)
     = Some (Sample.focusOn (Sample.image (Vector3.mk 0 0 0))).
Proof.
  cbv zeta.
  assert (Hp : processed (Sample.frame false Sample.fistHand))
    by (vm_compute; repeat constructor).
  assert (Hf : classifiedFist (Sample.frame false Sample.fistHand) = true)
    by (vm_compute; reflexivity).
  assert (Hw : GestureOverlay.wasFist GestureOverlay.initialRefs = false)
    by reflexivity.
  assert (Hc : controls Sample.state0 = Some Sample.orbit0) by reflexivity.
  assert (Hpend : PrimFloat.eqb (grabSignal Sample.state0 + 1)%float
                                (lastTriggerRef Sample.state0) = false)
    by (vm_compute; reflexivity).
  split; [exact Hp|].
  destruct (fist_edge_reaches_the_selector
              (Sample.frame false Sample.fistHand) GestureOverlay.initialRefs
              [Sample.image (Vector3.mk 0 0 0)] Sample.state0 Sample.orbit0
              Hp Hf Hw Hc Hpend) as (H1 & H2 & _).
  cbn [Sample.frame GestureOverlay.isInPreview GestureOverlay.results] in H1, H2.
  split.
  - rewrite H1. vm_compute. reflexivity.
  - rewrite H2. vm_compute. reflexivity.
Defined.

Lemma open_palm_leaves_preview_witness :
  let s := setFocusTarget
             (Some (Sample.focusOn (Sample.image (Vector3.mk 0 0 0))))
             Sample.state0 in
  let o := GestureOverlay.predictWebcam true (Some [Sample.openHand])
             GestureOverlay.initialRefs in
  processed (Sample.frame true Sample.openHand)
  /\ isInPreview s = true
  /\ deliver (GestureOverlay.calls o) s = Sample.state0.
Proof.
  cbv zeta.
  assert (Hp : processed (Sample.frame true Sample.openHand))
    by (vm_compute; repeat constructor).
  assert (Ho : classifiedOpen (Sample.frame true Sample.openHand) = true)
    by (vm_compute; reflexivity).
  split; [exact Hp|]. split; [reflexivity|].
  destruct (open_palm_leaves_preview (Sample.frame true Sample.openHand)
              GestureOverlay.initialRefs
              (setFocusTarget
                 (Some (Sample.focusOn (Sample.image (Vector3.mk 0 0 0))))
                 Sample.state0) Hp Ho) as [Hmounted _].
  destruct Hmounted as (H1 & _); [discriminate|].
  cbn [Sample.frame GestureOverlay.isInPreview GestureOverlay.results] in H1.
  rewrite H1. reflexivity.
Defined.

Lemma click_and_grab_agree_witness :
  let node := AlbumLayer.item (Vector3.mk 0 0 0) Sample.identity in
  selectBest (camera Sample.grabPending) [Sample.widget (Vector3.mk 8 3 0); node]
  = Some (mkHit (userData node) node)
  /\ CenterRaycaster [Sample.widget (Vector3.mk 8 3 0); node] Sample.grabPending
     = setLastTrigger 1 (AlbumLayer.onClick node Sample.grabPending).
Proof.
  cbv zeta.
  assert (Hpending : PrimFloat.eqb (grabSignal Sample.grabPending)
                                   (lastTriggerRef Sample.grabPending) = false)
    by (vm_compute; reflexivity).
  assert (Hbest : selectBest (camera Sample.grabPending)
                    [Sample.widget (Vector3.mk 8 3 0);
                     AlbumLayer.item (Vector3.mk 0 0 0) Sample.identity]
                  = Some (mkHit (userData (AlbumLayer.item (Vector3.mk 0 0 0)
                                                           Sample.identity))
                                (AlbumLayer.item (Vector3.mk 0 0 0)
                                                 Sample.identity)))
    by (vm_compute; reflexivity).
  split; [exact Hbest|].
  exact (proj1 (click_and_grab_agree _ _ _ Sample.grabPending Hpending Hbest)).
Defined.

Lemma snapshot_is_taken_once_witness :
  let ft := Sample.focusOn (Sample.image (Vector3.mk 0 0 0)) in
  let ft' := Sample.focusOn (Sample.image (Vector3.mk 5 0 0)) in
  Rig.saved (rig Sample.state0) = false
  /\ rig (focusedFrames [(ft, 0.016); (ft', 0.016); (ft, 0.5)]%float
                        Sample.state0)
     = Rig.mk true (Vector3.mk 0 0 30) Sample.identity (Vector3.mk 0 0 0).
Proof.
  cbv zeta.
  assert (H : Rig.saved (rig Sample.state0) = false) by reflexivity.
  split; [exact H|].
  destruct (snapshot_is_taken_once Sample.state0
              (Sample.focusOn (Sample.image (Vector3.mk 0 0 0)), 0.016%float)
              [(Sample.focusOn (Sample.image (Vector3.mk 5 0 0)), 0.016%float);
               (Sample.focusOn (Sample.image (Vector3.mk 0 0 0)), 0.5%float)]
              [] H) as (Hrig & _).
  etransitivity; [exact Hrig|reflexivity].
Defined.

Lemma orbit_input_follows_the_snapshot_witness :
  orbitInputConsistent Sample.state0
  /\ orbitInputConsistent
       (steps [Gesture "Grab" None;
               RenderFrame [Sample.image (Vector3.mk 0 0 0)] 0.016%float;
               Gesture "Rotate" (Some (GestureOverlay.mkRotate 1 1));
               RenderFrame [Sample.image (Vector3.mk 0 0 0)] 0.016%float;
               Gesture "Release" None;
               RenderFrame [] 0.5%float]
              Sample.state0).
Proof.
  assert (H : orbitInputConsistent Sample.state0) by reflexivity.
  split; [exact H|].
  exact (orbit_input_follows_the_snapshot _ Sample.state0 H).
Defined.

End AppExtras.

(** ** The layer handlers *)

Module LayerFacts.
Import JSObject AppLayers ControlPanel Traces JSObjectFacts.
Local Open Scope string_scope.
Local Open Scope list_scope.

Lemma find_app {A : Type} (f : A -> bool) (a b : list A) :
  find f (a ++ b) = match find f a with
                    | Some x => Some x
                    | None => find f b
                    end.
Proof.
  induction a as [|x a IH]; cbn [app find]; [reflexivity|].
  destruct (f x); [reflexivity|exact IH].
Qed.

Lemma find_map_stable {A : Type} (f : A -> bool) (F : A -> A) (ls : list A) :
  (forall x, f (F x) = f x) ->
  find f (map F ls) = option_map F (find f ls).
Proof.
  intros H. induction ls as [|x ls IH]; cbn [map find]; [reflexivity|].
  rewrite H. destruct (f x); [reflexivity|exact IH].
Qed.

Lemma find_filter {A : Type} (f g : A -> bool) (ls : list A) :
  (forall x, f x = true -> g x = true) ->
  find f (filter g ls) = find f ls.
Proof.
  intros H. induction ls as [|x ls IH]; cbn [filter find]; [reflexivity|].
  destruct (g x) eqn:Hg; cbn [find].
  - destruct (f x); [reflexivity|exact IH].
  - destruct (f x) eqn:Hf; [|exact IH].
    apply H in Hf. congruence.
Qed.

Lemma find_none {A : Type} (f : A -> bool) (ls : list A) :
  (forall x, In x ls -> f x = false) -> find f ls = None.
Proof.
  induction ls as [|x ls IH]; intros H; cbn [find]; [reflexivity|].
  rewrite (H x (or_introl eq_refl)). apply IH.
  intros y Hy. apply H. now right.
Qed.

Lemma filter_none {A : Type} (g : A -> bool) (ls : list A) :
  (forall x, In x ls -> g x = true) -> filter g ls = ls.
Proof.
  induction ls as [|x ls IH]; intros H; cbn [filter]; [reflexivity|].
  rewrite (H x (or_introl eq_refl)). f_equal. apply IH.
  intros y Hy. apply H. now right.
Qed.

Lemma state_eta (st : State) : mkState (layers st) (selectedLayerId st) = st.
Proof. now destruct st. Qed.

Lemma hasId_get (id : string) (l : JSObject.t) :
  hasId id l = true <-> get "id" l = VString id.
Proof.
  unfold hasId, isString. destruct (get "id" l); split; try discriminate.
  - intros H. apply String.eqb_eq in H. now subst.
  - intros H. injection H as ->. apply String.eqb_refl.
Qed.

Lemma hasId_inj (id id' : string) (l : JSObject.t) :
  hasId id l = true -> hasId id' l = true -> id = id'.
Proof.
  intros H H'. apply hasId_get in H. apply hasId_get in H'. congruence.
Qed.

Lemma get_update (k : string) (updates l : JSObject.t) :
  has k updates = false -> get k (spread l updates) = get k l.
Proof. intros H. now rewrite get_spread, H. Qed.

Lemma updated_get (k id : string) (updates l : JSObject.t) :
  has k updates = false -> get k (updated id updates l) = get k l.
Proof.
  intros H. unfold updated. destruct (hasId id l); [|reflexivity].
  now apply get_update.
Qed.

Lemma updated_hasId (id' id : string) (updates l : JSObject.t) :
  has "id" updates = false ->
  hasId id' (updated id updates l) = hasId id' l.
Proof. intros H. unfold hasId. now rewrite updated_get. Qed.

Lemma find_update (id' id : string) (updates : JSObject.t) (st : State) :
  has "id" updates = false ->
  find (hasId id') (layers (handleUpdateLayer id updates st))
  = option_map (updated id updates) (find (hasId id') (layers st)).
Proof.
  intros H. unfold handleUpdateLayer. cbn [layers].
  apply (find_map_stable (hasId id') (updated id updates)).
  intros x. now apply updated_hasId.
Qed.

Lemma find_delete (id' id : string) (st : State) :
  id' <> id ->
  find (hasId id') (layers (handleDeleteLayer id st))
  = find (hasId id') (layers st).
Proof.
  intros Hne. unfold handleDeleteLayer.
  destruct (match find (hasId id) (layers st) with
            | Some l => truthy (get "locked" l)
            | None => false
            end); [reflexivity|].
  cbn [layers]. apply find_filter. intros x Hx.
  destruct (hasId id x) eqn:Hid; [|reflexivity].
  exfalso. apply Hne. exact (hasId_inj _ _ _ Hx Hid).
Qed.

Lemma find_in {A : Type} (f : A -> bool) (ls : list A) (x : A) :
  In x ls -> f x = true -> exists y, find f ls = Some y.
Proof.
  induction ls as [|z ls IH]; intros Hin Hf; [contradiction|].
  cbn [find]. destruct (f z) eqn:Hz; [now exists z|].
  destruct Hin as [->|Hin]; [congruence|]. now apply IH.
Qed.

(** The layer [handleAddLayer] builds from a default. *)
Lemma new_layer (D : JSObject.t) (name : Value) (uuid : string) :
  get "locked" D = VUndefined ->
  hasId uuid (set "name" name (set "id" (VString uuid) D)) = true
  /\ truthy (get "locked" (set "name" name (set "id" (VString uuid) D)))
     = false.
Proof.
  intros H. split.
  - apply hasId_get.
    rewrite get_set_other by discriminate. apply get_set_same.
  - rewrite !get_set_other by discriminate. now rewrite H.
Qed.

Lemma handleAddLayer_cases (type uuid : string) (st : State) :
  (In type layerTypes
   /\ exists l, handleAddLayer type uuid st
                = mkState (layers st ++ [l]) (Some uuid)
                /\ hasId uuid l = true
                /\ truthy (get "locked" l) = false)
  \/ (~ In type layerTypes /\ handleAddLayer type uuid st = st).
Proof.
  unfold handleAddLayer, layerTypes.
  destruct (String.eqb_spec type "PARTICLE") as [->|H1].
  { left. split; [cbn; tauto|]. eexists. split; [reflexivity|].
    now apply new_layer. }
  destruct (String.eqb_spec type "ALBUM") as [->|H2].
  { left. split; [cbn; tauto|]. eexists. split; [reflexivity|].
    now apply new_layer. }
  destruct (String.eqb_spec type "IMAGE_PARTICLE") as [->|H3].
  { left. split; [cbn; tauto|]. eexists. split; [reflexivity|].
    now apply new_layer. }
  destruct (String.eqb_spec type "TEXT_PARTICLE") as [->|H4].
  { left. split; [cbn; tauto|]. eexists. split; [reflexivity|].
    now apply new_layer. }
  right. split; [|reflexivity]. cbn. intuition congruence.
Qed.

Lemma instantiate_nth (uuids : nat -> string) (j i : nat)
      (ls : list JSObject.t) :
  nth_error (instantiate uuids j ls) i
  = option_map (fun l => set "locked" (VBool false)
                             (set "id" (VString (uuids (j + i))) l))
               (nth_error ls i).
Proof.
  revert j i. induction ls as [|l ls IH]; intros j [|i]; cbn; try reflexivity.
  - now rewrite Nat.add_0_r.
  - rewrite IH. now rewrite Nat.add_succ_r.
Qed.

Lemma instantiate_length (uuids : nat -> string) (j : nat)
      (ls : list JSObject.t) :
  List.length (instantiate uuids j ls) = List.length ls.
Proof.
  revert j. induction ls as [|l ls IH]; intros j; cbn; [reflexivity|].
  now rewrite IH.
Qed.

Lemma handleLoadPreset_cases (presets : list ScenePreset)
      (uuids : nat -> string) (presetId : string) (st : State) :
  handleLoadPreset presets uuids presetId st = st
  \/ (exists p,
         find (fun p => String.eqb (preset_id p) presetId) presets = Some p
         /\ layers (handleLoadPreset presets uuids presetId st)
            = layers st ++ instantiate uuids 0 (preset_layers p)
         /\ selectedLayerId (handleLoadPreset presets uuids presetId st)
            = match preset_layers p with
              | [] => selectedLayerId st
              | _ :: _ => Some (uuids 0)
              end).
Proof.
  unfold handleLoadPreset.
  destruct (find _ presets) as [p|]; [|now left].
  right. exists p. split; [reflexivity|]. split; [reflexivity|].
  cbn [selectedLayerId]. destruct (preset_layers p) as [|l rest];
    [reflexivity|].
  cbn [instantiate].
  rewrite get_set_other by discriminate. now rewrite get_set_same.
Qed.

Lemma updateSelectedAlbum_cases (f : list Value -> list Value) (st : State) :
  updateSelectedAlbum f st = st
  \/ exists id imgs,
      updateSelectedAlbum f st
      = handleUpdateLayer id [("images", VArray imgs)] st.
Proof.
  unfold updateSelectedAlbum.
  destruct (selectedLayer st) as [l|]; [|now left].
  destruct (isAlbum l); [|now left].
  destruct (idOf l) as [id|]; [|now left].
  destruct (imagesOf l) as [items|]; [|now left].
  right. now exists id, (f items).
Qed.

(** Every handler of the album images is the identity or one update of
    [images]. *)
Lemma album_op_cases (op : LayerOp) (st : State) :
  match op with
  | AddImageUrl _ | UploadImages _ | RemoveImage _ => True
  | _ => False
  end ->
  applyOp st op = st
  \/ exists id imgs,
      applyOp st op = handleUpdateLayer id [("images", VArray imgs)] st.
Proof.
  destruct op; try contradiction; intros _; cbn [applyOp].
  - unfold addAlbumImageUrl. destruct (String.eqb url ""); [now left|].
    apply updateSelectedAlbum_cases.
  - unfold handleAlbumImageUpload. destruct objectUrls; [now left|].
    apply updateSelectedAlbum_cases.
  - apply updateSelectedAlbum_cases.
Qed.

Lemma locked_update (id id' : string) (updates : JSObject.t) (st : State) :
  has "id" updates = false -> has "locked" updates = false ->
  lockedLayer id st -> lockedLayer id (handleUpdateLayer id' updates st).
Proof.
  intros Hi Hl (l & Hfind & Hlock). unfold lockedLayer.
  rewrite (find_update id id' updates st Hi), Hfind. cbn [option_map].
  eexists. split; [reflexivity|]. now rewrite updated_get.
Qed.

Ltac album_case st H lemma :=
  match goal with
  | |- context [applyOp st ?op] =>
      let E := fresh "E" in
      destruct (album_op_cases op st I) as [E|(? & ? & E)]; rewrite E;
      [exact H|now apply lemma]
  end.

Lemma locked_step (id : string) (op : LayerOp) (st : State) :
  keepsIdentity op -> lockedLayer id st -> lockedLayer id (applyOp st op).
Proof.
  intros Hop Hlocked.
  destruct op as [type uuid|id' updates|id'|presets uuids presetId
                  |url|urls|index|sel].
  - cbn [applyOp].
    destruct (handleAddLayer_cases type uuid st)
      as [(_ & l & E & _)|(_ & E)]; rewrite E; [|exact Hlocked].
    destruct Hlocked as (l0 & Hfind & Hlock). exists l0. cbn [layers].
    now rewrite find_app, Hfind.
  - destruct Hop as [Hi Hl]. now apply locked_update.
  - cbn [applyOp]. destruct Hlocked as (l0 & Hfind & Hlock).
    destruct (String.eqb_spec id id') as [<-|Hne].
    + unfold handleDeleteLayer. rewrite Hfind, Hlock. now exists l0.
    + exists l0. now rewrite find_delete.
  - cbn [applyOp].
    destruct (handleLoadPreset_cases presets uuids presetId st)
      as [E|(p & _ & E & _)]; [now rewrite E|].
    destruct Hlocked as (l0 & Hfind & Hlock). exists l0.
    now rewrite E, find_app, Hfind.
  - album_case st Hlocked locked_update.
  - album_case st Hlocked locked_update.
  - album_case st Hlocked locked_update.
  - exact Hlocked.
Qed.

Lemma selection_update (id : string) (updates : JSObject.t) (st : State) :
  has "id" updates = false ->
  selectionValid st -> selectionValid (handleUpdateLayer id updates st).
Proof.
  intros Hi Hvalid sel Hsel. cbn [handleUpdateLayer selectedLayerId] in Hsel.
  destruct (Hvalid sel Hsel) as [l Hl].
  unfold selectedLayer in *. rewrite Hsel in Hl.
  cbn [handleUpdateLayer selectedLayerId]. rewrite Hsel.
  change (map _ (layers st)) with (layers (handleUpdateLayer id updates st)).
  rewrite (find_update sel id updates st Hi), Hl. now eexists.
Qed.

Lemma selection_step (op : LayerOp) (st : State) :
  offeredAt st op -> selectionValid st -> selectionValid (applyOp st op).
Proof.
  intros Hop Hvalid.
  destruct op as [type uuid|id' updates|id'|presets uuids presetId
                  |url|urls|index|sel'].
  - cbn [applyOp].
    destruct (handleAddLayer_cases type uuid st)
      as [(_ & l & E & Hid & _)|(_ & E)]; rewrite E; [|exact Hvalid].
    intros sel Hsel. cbn [selectedLayerId] in Hsel. injection Hsel as <-.
    unfold selectedLayer. cbn [selectedLayerId layers]. rewrite find_app.
    destruct (find (hasId uuid) (layers st)) as [l0|]; [now eexists|].
    cbn [find]. rewrite Hid. now eexists.
  - destruct Hop as [Hi _]. now apply selection_update.
  - cbn [applyOp]. intros sel Hsel.
    assert (Hcases : handleDeleteLayer id' st = st
                     \/ (sel <> id' /\ selectedLayerId st = Some sel)).
    { unfold handleDeleteLayer in Hsel |- *.
      destruct (match find (hasId id') (layers st) with
                | Some l => truthy (get "locked" l)
                | None => false
                end); [now left|right].
      cbn [selectedLayerId] in Hsel.
      destruct (selectedLayerId st) as [s|]; [|discriminate].
      destruct (String.eqb_spec s id'); [discriminate|].
      injection Hsel as <-. now split. }
    destruct Hcases as [E|[Hne Hold]].
    + rewrite E in Hsel |- *. exact (Hvalid sel Hsel).
    + destruct (Hvalid sel Hold) as [l Hl].
      unfold selectedLayer in *. rewrite Hsel. rewrite Hold in Hl.
      rewrite (find_delete sel id' st Hne), Hl. now eexists.
  - cbn [applyOp].
    destruct (handleLoadPreset_cases presets uuids presetId st)
      as [E|(p & _ & El & Es)]; [now rewrite E|].
    intros sel Hsel. unfold selectedLayer. rewrite Hsel, El, find_app.
    rewrite Es in Hsel.
    destruct (preset_layers p) as [|l rest].
    + destruct (Hvalid sel Hsel) as [l0 Hl0].
      unfold selectedLayer in Hl0. rewrite Hsel in Hl0. rewrite Hl0.
      now eexists.
    + injection Hsel as <-.
      destruct (find (hasId (uuids 0)) (layers st)) as [l0|]; [now eexists|].
      cbn [instantiate find].
      assert (Hid : hasId (uuids 0)
                      (set "locked" (VBool false)
                           (set "id" (VString (uuids 0)) l)) = true).
      { apply hasId_get. rewrite get_set_other by discriminate.
        apply get_set_same. }
      rewrite Hid. now eexists.
  - album_case st Hvalid selection_update.
  - album_case st Hvalid selection_update.
  - album_case st Hvalid selection_update.
  - cbn [applyOp]. destruct Hop as (l & Hin & Hid).
    intros sel Hsel. cbn [selectedLayerId] in Hsel. injection Hsel as <-.
    unfold selectedLayer. cbn [selectedLayerId layers].
    exact (find_in _ _ l Hin Hid).
Qed.

Lemma dropIndex_past {A : Type} (index i : nat) (items : list A) :
  index < i -> dropIndex index i items = items.
Proof.
  revert i. induction items as [|x rest IH]; intros i Hlt; cbn [dropIndex];
    [reflexivity|].
  destruct (Nat.eqb_spec i index); [lia|].
  rewrite IH by lia. reflexivity.
Qed.

(** [currentImages.filter((_, i) => i !== index)] takes out the image at
    [index], if there is one. *)
Lemma dropIndex_spec {A : Type} (index i : nat) (items : list A) :
  i <= index ->
  dropIndex index i items
  = firstn (index - i) items ++ skipn (S (index - i)) items.
Proof.
  revert i. induction items as [|x rest IH]; intros i Hle.
  - cbn [dropIndex]. now rewrite firstn_nil, skipn_nil.
  - cbn [dropIndex]. destruct (Nat.eqb_spec i index) as [->|Hne].
    + rewrite Nat.sub_diag. cbn [firstn skipn app].
      apply dropIndex_past. lia.
    + rewrite IH by lia.
      replace (index - i) with (S (index - S i)) by lia.
      reflexivity.
Qed.

Lemma dropIndex_last {A : Type} (i : nat) (items : list A) (x : A) :
  dropIndex (i + List.length items) i (items ++ [x]) = items.
Proof.
  revert i. induction items as [|y rest IH]; intros i;
    cbn [app dropIndex List.length].
  - rewrite Nat.add_0_r, Nat.eqb_refl. reflexivity.
  - destruct (Nat.eqb_spec i (i + S (List.length rest))); [lia|].
    f_equal.
    replace (i + S (List.length rest)) with (S i + List.length rest) by lia.
    apply IH.
Qed.

End LayerFacts.

Module LayerExtras.
Import JSObject AppLayers ControlPanel Traces JSObjectFacts LayerFacts.
Local Open Scope string_scope.
Local Open Scope list_scope.

Lemma get_has (k : string) (o : JSObject.t) :
  get k o <> VUndefined -> has k o = true.
Proof.
  induction o as [|[k' v'] o IH]; cbn [get has]; [congruence|].
  destruct (String.eqb k' k); [reflexivity|exact IH].
Qed.

Lemma selected_hasId (st : State) (id : string) (l : JSObject.t) :
  selectedLayerId st = Some id -> selectedLayer st = Some l ->
  In l (layers st) /\ hasId id l = true.
Proof.
  intros Hsel Hl. unfold selectedLayer in Hl. rewrite Hsel in Hl.
  now apply find_some in Hl.
Qed.

Lemma updateSelectedAlbum_selected (f : list Value -> list Value)
      (st : State) (id : string) (l : JSObject.t) (items : list Value) :
  selectedLayerId st = Some id -> selectedLayer st = Some l ->
  isAlbum l = true -> imagesOf l = Some items ->
  updateSelectedAlbum f st
  = handleUpdateLayer id [("images", VArray (f items))] st.
Proof.
  intros Hsel Hl Halbum Himg.
  destruct (selected_hasId st id l Hsel Hl) as [_ Hid].
  apply hasId_get in Hid.
  unfold updateSelectedAlbum, idOf. now rewrite Hl, Halbum, Hid, Himg.
Qed.

Lemma selected_after_update (st : State) (id : string)
      (l updates : JSObject.t) :
  selectedLayerId st = Some id -> selectedLayer st = Some l ->
  has "id" updates = false ->
  selectedLayer (handleUpdateLayer id updates st) = Some (spread l updates).
Proof.
  intros Hsel Hl Hu.
  destruct (selected_hasId st id l Hsel Hl) as [_ Hid].
  unfold selectedLayer in *. cbn [handleUpdateLayer selectedLayerId].
  rewrite Hsel in Hl |- *.
  change (map _ (layers st)) with (layers (handleUpdateLayer id updates st)).
  rewrite (find_update id id updates st Hu), Hl. cbn [option_map].
  unfold updated. now rewrite Hid.
Qed.

(** Two updates of the same property in a row are the second one. *)
Lemma update_twice (id k : string) (v w : Value) (st : State) :
  k <> "id" ->
  handleUpdateLayer id [(k, v)] (handleUpdateLayer id [(k, w)] st)
  = handleUpdateLayer id [(k, v)] st.
Proof.
  intros Hk. unfold handleUpdateLayer. cbn [layers selectedLayerId].
  f_equal. rewrite map_map. apply map_ext. intros m.
  destruct (hasId id m) eqn:Hid.
  - assert (Hid' : hasId id (spread m [(k, w)]) = true).
    { unfold hasId. cbn [spread fold_left fst snd].
      rewrite get_set_other by congruence. exact Hid. }
    rewrite Hid'. cbn [spread fold_left fst snd]. apply set_set.
  - now rewrite Hid.
Qed.

(** Writing back what the only layer with this id holds changes
    nothing. *)
Lemma update_write_back (id k : string) (st : State) (l : JSObject.t) :
  uniqueId id st -> In l (layers st) -> hasId id l = true ->
  has k l = true ->
  handleUpdateLayer id [(k, get k l)] st = st.
Proof.
  intros Huniq Hin Hid Hhas. unfold handleUpdateLayer.
  rewrite <- (state_eta st) at 3. f_equal.
  rewrite <- (map_id (layers st)) at 2. apply map_ext_in. intros m Hm.
  destruct (hasId id m) eqn:Hidm; [|reflexivity].
  rewrite (Huniq m l Hm Hin Hidm Hid).
  cbn [spread fold_left fst snd]. now apply set_get.
Qed.

(** X15.  A locked layer cannot be lost: through any sequence of adding,
    deleting, loading presets, editing album images, selecting, and
    updates that write neither [id] nor [locked], the first layer with
    the id stays there and stays locked. *)
Theorem locked_layer_stays (id : string) (ops : list LayerOp) (st : State) :
  Forall keepsIdentity ops ->
  lockedLayer id st -> lockedLayer id (applyOps ops st).
Proof.
  unfold applyOps. intros Hops. revert st.
  induction Hops as [|op ops Hop _ IH]; intros st H; cbn [fold_left].
  - exact H.
  - apply IH. now apply locked_step.
Qed.

(** X16.  The selection never dangles: as long as the panel sends what
    it offers, a selected id is always the id of a layer in the list, so
    [selectedLayer] is defined whenever an id is selected. *)
Theorem selection_never_dangles (ops : list LayerOp) (st : State) :
  offered ops st -> selectionValid st -> selectionValid (applyOps ops st).
Proof.
  unfold applyOps. revert st.
  induction ops as [|op ops IH]; intros st Hops H; cbn [fold_left].
  - exact H.
  - destruct Hops as [Hop Hrest]. apply IH; [exact Hrest|].
    now apply selection_step.
Qed.

(** X17.  Adding a layer under a fresh id and deleting it again restores
    the list of layers, with nothing selected; a type the handler does
    not know adds nothing. *)
Theorem add_then_delete_restores_layers (type uuid : string) (st : State) :
  (forall l, In l (layers st) -> hasId uuid l = false) ->
  (In type layerTypes ->
   handleDeleteLayer uuid (handleAddLayer type uuid st)
   = mkState (layers st) None)
  /\ (~ In type layerTypes -> handleAddLayer type uuid st = st).
Proof.
  intros Hfresh.
  destruct (handleAddLayer_cases type uuid st)
    as [(Hin & l & E & Hid & Hlock)|(Hnot & E)].
  2:{ split; [intros Hin; contradiction|intros _; exact E]. }
  split; [intros _|intros Hnot; contradiction].
  rewrite E. unfold handleDeleteLayer. cbn [layers selectedLayerId].
  rewrite find_app, (find_none _ _ Hfresh). cbn [find]. rewrite Hid, Hlock.
  rewrite String.eqb_refl, filter_app. cbn [filter]. rewrite Hid.
  cbn [negb]. rewrite app_nil_r. f_equal. apply filter_none.
  intros x Hx. now rewrite (Hfresh x Hx).
Qed.

(** X18.  An update reaches only the layers with its id: the selection,
    the number and order of the layers and every other layer stay; in a
    layer it reaches, a property the update does not name keeps its
    value and one it names takes the update's; with no layer of that id
    nothing changes. *)
Theorem update_reaches_only_its_layer (id : string) (updates : JSObject.t)
        (st : State) :
  let st' := handleUpdateLayer id updates st in
  selectedLayerId st' = selectedLayerId st
  /\ List.length (layers st') = List.length (layers st)
  /\ (forall i l,
         nth_error (layers st) i = Some l ->
         exists l',
           nth_error (layers st') i = Some l'
           /\ (hasId id l = false -> l' = l)
           /\ (forall k, has k updates = false -> get k l' = get k l)
           /\ (hasId id l = true ->
               forall k, has k updates = true ->
                         get k l' = get k (spread [] updates)))
  /\ ((forall l, In l (layers st) -> hasId id l = false) -> st' = st).
Proof.
  cbv zeta. split; [reflexivity|]. split.
  { unfold handleUpdateLayer. cbn [layers]. apply length_map. }
  split.
  - intros i l Hnth. exists (updated id updates l). split.
    + unfold handleUpdateLayer. cbn [layers].
      now rewrite nth_error_map, Hnth.
    + split; [|split].
      * intros Hid. unfold updated. now rewrite Hid.
      * intros k Hk. now apply updated_get.
      * intros Hid k Hk. unfold updated. rewrite Hid.
        now rewrite get_spread, Hk.
  - intros Hnone. unfold handleUpdateLayer.
    rewrite <- (state_eta st) at 3. f_equal.
    rewrite <- (map_id (layers st)) at 2. apply map_ext_in.
    intros m Hm. now rewrite (Hnone m Hm).
Qed.

(** X19.  Loading a preset appends its layers after the present ones,
    each with the next id handed out and unlocked, whatever the preset
    says about locking, and with the preset's other properties as they
    are; the first of them becomes the selection; a preset id that is
    not in the table changes nothing. *)
Theorem preset_layers_arrive_unlocked (presets : list ScenePreset)
        (uuids : nat -> string) (presetId : string) (st : State) :
  let st' := handleLoadPreset presets uuids presetId st in
  (find (fun p => String.eqb (preset_id p) presetId) presets = None ->
   st' = st)
  /\ (forall p,
         find (fun p => String.eqb (preset_id p) presetId) presets = Some p ->
         firstn (List.length (layers st)) (layers st') = layers st
         /\ List.length (layers st')
            = List.length (layers st) + List.length (preset_layers p)
         /\ (forall i l,
                nth_error (preset_layers p) i = Some l ->
                exists l',
                  nth_error (layers st') (List.length (layers st) + i)
                  = Some l'
                  /\ get "id" l' = VString (uuids i)
                  /\ get "locked" l' = VBool false
                  /\ (forall k, k <> "id" -> k <> "locked" ->
                                get k l' = get k l))
         /\ selectedLayerId st'
            = match preset_layers p with
              | [] => selectedLayerId st
              | _ :: _ => Some (uuids 0)
              end).
Proof.
  cbv zeta. split.
  { intros Hnone. unfold handleLoadPreset. now rewrite Hnone. }
  intros p Hp. unfold handleLoadPreset. rewrite Hp.
  cbn [layers selectedLayerId]. split; [|split; [|split]].
  - rewrite firstn_app, firstn_all, Nat.sub_diag. cbn [firstn].
    apply app_nil_r.
  - now rewrite length_app, instantiate_length.
  - intros i l Hnth. eexists. split.
    + rewrite nth_error_app2 by lia.
      replace (List.length (layers st) + i - List.length (layers st))
        with i by lia.
      rewrite instantiate_nth, Hnth. reflexivity.
    + cbn [Nat.add]. split; [|split].
      * rewrite get_set_other by discriminate. apply get_set_same.
      * apply get_set_same.
      * intros k Hk1 Hk2. rewrite !get_set_other by congruence. reflexivity.
  - destruct (preset_layers p) as [|l0 rest]; [reflexivity|].
    cbn [instantiate].
    rewrite get_set_other by discriminate. now rewrite get_set_same.
Qed.

(** X20.  Adding an image url to the selected album and removing the
    last image again gives back the state, provided no other layer
    shares the album's id (the update goes to every layer with that
    id). *)
Theorem album_image_add_then_remove (url id : string) (st : State)
        (l : JSObject.t) (items : list Value) :
  selectedLayerId st = Some id -> selectedLayer st = Some l ->
  isAlbum l = true -> imagesOf l = Some items ->
  url <> "" -> uniqueId id st ->
  removeAlbumImage (List.length items) (addAlbumImageUrl url st) = st.
Proof.
  intros Hsel Hl Halbum Himg Hurl Huniq.
  destruct (selected_hasId st id l Hsel Hl) as [Hin Hid].
  unfold addAlbumImageUrl, removeAlbumImage.
  destruct (String.eqb_spec url "") as [|_]; [contradiction|].
  rewrite (updateSelectedAlbum_selected _ st id l items Hsel Hl Halbum Himg).
  set (st1 := handleUpdateLayer id
                [("images", VArray (items ++ [VString url]))] st).
  assert (Hl1 : selectedLayer st1
                = Some (set "images" (VArray (items ++ [VString url])) l)).
  { exact (selected_after_update st id l
             [("images", VArray (items ++ [VString url]))] Hsel Hl eq_refl). }
  rewrite (updateSelectedAlbum_selected _ st1 id _ (items ++ [VString url])
             Hsel Hl1).
  - cbv beta.
    rewrite (dropIndex_last 0 items (VString url)
             : dropIndex (List.length items) 0 (items ++ [VString url])
               = items).
    unfold st1. rewrite update_twice by discriminate.
    assert (Hget : get "images" l = VArray items).
    { unfold imagesOf in Himg. destruct (get "images" l); congruence. }
    rewrite <- Hget. apply (update_write_back id "images" st l Huniq Hin Hid).
    apply get_has. rewrite Hget. discriminate.
  - unfold isAlbum in *. now rewrite get_set_other by discriminate.
  - unfold imagesOf. now rewrite get_set_same.
Qed.

(** X21.  Removing an image of the selected album takes out the image at
    that index and nothing else: the images before and after it keep
    their order, every other property of the layer stays, and an index
    past the end removes nothing. *)
Theorem remove_takes_out_one_image (index : nat) (id : string) (st : State)
        (l : JSObject.t) (items : list Value) :
  selectedLayerId st = Some id -> selectedLayer st = Some l ->
  isAlbum l = true -> imagesOf l = Some items ->
  exists l',
    selectedLayer (removeAlbumImage index st) = Some l'
    /\ imagesOf l'
       = Some (firstn index items ++ skipn (S index) items)
    /\ (forall k, k <> "images" -> get k l' = get k l)
    /\ (List.length items <= index -> imagesOf l' = Some items).
Proof.
  intros Hsel Hl Halbum Himg.
  unfold removeAlbumImage.
  rewrite (updateSelectedAlbum_selected _ st id l items Hsel Hl Halbum Himg).
  rewrite (selected_after_update st id l
             [("images", VArray (dropIndex index 0 items))] Hsel Hl eq_refl).
  cbn [spread fold_left fst snd]. eexists. split; [reflexivity|].
  assert (Hdrop : dropIndex index 0 items
                  = firstn index items ++ skipn (S index) items).
  { rewrite dropIndex_spec by lia. now rewrite Nat.sub_0_r. }
  split; [|split].
  - unfold imagesOf. now rewrite get_set_same, Hdrop.
  - intros k Hk. apply get_set_other. congruence.
  - intros Hlen. unfold imagesOf. rewrite get_set_same, Hdrop.
    rewrite firstn_all2 by lia. rewrite skipn_all2 by lia.
    now rewrite app_nil_r.
Qed.

(** *** On sample inputs *)

Lemma locked_layer_stays_witness :
  lockedLayer "base-0"
    (applyOps [DeleteLayer "base-0";
               AddLayer "ALBUM" "album-1";
               UpdateLayer "base-0" [("visible", VBool false)];
               LoadPreset [Sample2.snow] Sample2.presetIds "snow_mountains";
               DeleteLayer "base-0"]
              (initial "base-0")).
Proof.
  apply locked_layer_stays.
  - repeat constructor.
  - eexists. split; [reflexivity|reflexivity].
Defined.

Lemma selection_never_dangles_witness :
  selectionValid
    (applyOps [AddLayer "ALBUM" "album-1";
               SelectLayer "base-0";
               AddLayer "PARTICLE" "p-2";
               DeleteLayer "p-2";
               SelectLayer "album-1";
               AddImageUrl "https://example.org/a.png"]
              (initial "base-0")).
Proof.
  apply selection_never_dangles.
  - cbn [offered offeredAt keepsIdentity]. repeat split.
    + eexists. split; [left; reflexivity|reflexivity].
    + eexists. split; [right; left; reflexivity|reflexivity].
  - intros id Hid. eexists. reflexivity.
Defined.

Lemma add_then_delete_restores_layers_witness :
  handleDeleteLayer "album-1" Sample2.withAlbum
  = mkState (layers (initial "base-0")) None.
Proof.
  apply (add_then_delete_restores_layers "ALBUM" "album-1" (initial "base-0")).
  - intros l [<-|[]]. reflexivity.
  - right. left. reflexivity.
Defined.

Lemma album_image_add_then_remove_witness :
  removeAlbumImage 8
    (addAlbumImageUrl "https://example.org/a.png" Sample2.withAlbum)
  = Sample2.withAlbum.
Proof.
  refine (album_image_add_then_remove "https://example.org/a.png" "album-1"
            Sample2.withAlbum _ _ eq_refl eq_refl eq_refl eq_refl _ _).
  - discriminate.
  - intros a b Ha Hb Hida Hidb.
    destruct Ha as [<-|[<-|[]]]; [discriminate Hida|].
    destruct Hb as [<-|[<-|[]]]; [discriminate Hidb|reflexivity].
Defined.

Lemma remove_takes_out_one_image_witness :
  exists l',
    selectedLayer (removeAlbumImage 2 Sample2.withAlbum) = Some l'
    /\ imagesOf l'
       = Some [ VString "https://placehold.co/400x400/png?text=1";
                VString "https://placehold.co/400x400/png?text=2";
                VString "https://placehold.co/400x400/png?text=4";
                VString "https://placehold.co/400x400/png?text=5";
                VString "https://placehold.co/400x400/png?text=6";
                VString "https://placehold.co/400x400/png?text=7";
                VString "https://placehold.co/400x400/png?text=8" ].
Proof.
  destruct (remove_takes_out_one_image 2 "album-1" Sample2.withAlbum _ _
              eq_refl eq_refl eq_refl eq_refl) as (l' & H1 & H2 & _).
  exists l'. split; [exact H1|exact H2].
Defined.

End LayerExtras.
